(** * scintellometry: VLBI header bit-fields, VDIF headers and frame sets,
      Mark 4 payload codec.

    A shallow embedding of
      - [scintellometry/io/vlbi_helpers.py]  (bit-field parsers and setters,
        parser tables, frame-rate scan),
      - [scintellometry/io/vdif/header.py]   (VDIF header classes, reading a
        header from a file, time to header fields),
      - [scintellometry/io/vdif/frame.py]    (reading a frame set),
      - [scintellometry/io/mark4/payload.py] (track reordering, the
        8 channel / 2 bit / fan-out 4 codec).

    Python integers are [Z]; exceptions are values of [exn] carried by the
    [result] monad; file handles are explicit state.  The sources are written
    for Python 2 and 3 alike ([header.py], [frame.py] and [payload.py] start
    with [from __future__ import ... division ...]);
    where the two differ (the name bound by [except ... as], [round]) the
    definitions take the interpreter, a [python], as an argument.  What
    [astropy] computes with times is not modelled: it is a parameter, an
    [astropy]. *)

From Stdlib.Strings Require Import Byte String.
From Stdlib Require Import ZArith List Lia Bool QArith Qround Qabs Sorted.
Import ListNotations.
Local Open Scope Z_scope.

(** ** Exceptions and the error monad *)

Inductive exn : Type :=
| ValueError
| IndexError
| TypeError
| KeyError
| EOFError
| IOError
| AssertionError
| AttributeError
| ZeroDivisionError
| UnboundLocalError
| OverflowError
| StructError.

Inductive result (A : Type) : Type :=
| Ok (a : A)
| Raise (e : exn).
Arguments Ok {A} a.
Arguments Raise {A} e.

Definition bind {A B : Type} (m : result A) (k : A -> result B) : result B :=
  match m with
  | Ok a => k a
  | Raise e => Raise e
  end.

Declare Scope py_scope.
Delimit Scope py_scope with py.
Notation "x <- m ;; k" := (bind m (fun x => k))
  (at level 61, m at next level, right associativity) : py_scope.
Notation "m ;;; k" := (bind m (fun _ => k))
  (at level 61, right associativity) : py_scope.
Local Open Scope py_scope.

(** [assert c] *)
Definition py_assert (c : bool) : result unit :=
  if c then Ok tt else Raise AssertionError.

(** A Python value as far as header fields need them: [bool] or [int]. *)
Inductive pyval : Type :=
| VBool (b : bool)
| VInt (z : Z).

(** [int(value)]; the argument is [None] or a value. *)
Definition py_int (value : option pyval) : result Z :=
  match value with
  | None => Raise TypeError
  | Some (VBool b) => Ok (if b then 1 else 0)
  | Some (VInt z) => Ok z
  end.

(** [a << n] and [a >> n]: a negative shift count raises [ValueError]. *)
Definition py_lshift (a n : Z) : result Z :=
  if n <? 0 then Raise ValueError else Ok (Z.shiftl a n).

Definition py_rshift (a n : Z) : result Z :=
  if n <? 0 then Raise ValueError else Ok (Z.shiftr a n).

(** [words[i]] on a tuple, for an index [i >= 0]. *)
Definition getitem {A : Type} (words : list A) (i : nat) : result A :=
  match nth_error words i with
  | Some w => Ok w
  | None => Raise IndexError
  end.

(** Stateful code that can raise: the state (a file handle, a header being
    filled in) survives an exception. *)
Definition SE (S A : Type) : Type := S -> S * result A.

Definition se_ret {S A : Type} (a : A) : SE S A := fun s => (s, Ok a).

Definition se_bind {S A B : Type} (m : SE S A) (k : A -> SE S B) : SE S B :=
  fun s => match m s with
           | (s', Ok a) => k a s'
           | (s', Raise e) => (s', Raise e)
           end.

Definition se_lift {S A : Type} (r : result A) : SE S A := fun s => (s, r).

Definition se_raise {S A : Type} (e : exn) : SE S A := fun s => (s, Raise e).

Notation "x <~ m ;; k" := (se_bind m (fun x => k))
  (at level 61, m at next level, right associativity) : py_scope.
Notation "m ;;> k" := (se_bind m (fun _ => k))
  (at level 61, right associativity) : py_scope.

(** Truth value and integer value of a field value. *)
Definition truthy (v : pyval) : bool :=
  match v with
  | VBool b => b
  | VInt z => negb (z =? 0)
  end.

Definition as_int (v : pyval) : Z :=
  match v with
  | VBool b => if b then 1 else 0
  | VInt z => z
  end.

(** [a == b] on field values: [True == 1] and [False == 0]. *)
Definition pyval_eqb (a b : pyval) : bool := as_int a =? as_int b.

(** [l[i]] for an integer index: a negative one counts from the end. *)
Definition py_index {A : Type} (l : list A) (i : Z) : result A :=
  let n := Z.of_nat (length l) in
  if i <? 0 then
    if i + n <? 0 then Raise IndexError else getitem l (Z.to_nat (i + n))
  else getitem l (Z.to_nat i).

(** A finite float is given by the rational number it stands for; the
    comparisons, [int] and [round] of floats are exact on it. *)
Definition Qlt_bool (a b : Q) : bool := negb (Qle_bool b a).

(** [int(x)] of a float: towards zero. *)
Definition Qtrunc (q : Q) : Z := Z.quot (Qnum q) (Z.pos (Qden q)).

(** The interpreter that runs the code. *)
Inductive python : Type :=
| Python2
| Python3.

(** [round(x)] of a float, to the nearest integer: Python 2 rounds halves
    away from zero, Python 3 to the even neighbour. *)
Definition round_half_away (q : Q) : Z :=
  if Qle_bool 0 q then Qfloor (q + (1 # 2)) else - Qfloor (- q + (1 # 2)).

Definition round_half_even (q : Q) : Z :=
  let f := Qfloor q in
  let r := (q - inject_Z f)%Q in
  if Qlt_bool r (1 # 2) then f
  else if Qlt_bool (1 # 2) r then f + 1
  else if Z.even f then f else f + 1.

Definition py_round (py : python) (q : Q) : Z :=
  match py with
  | Python2 => round_half_away q
  | Python3 => round_half_even q
  end.

(** [b / 2] for an int [b] under [from __future__ import division]: the
    float nearest to the half, ties to the even significand, and
    [OverflowError] where that is beyond the floats.  Below [2 ^ 53] the
    half is a float itself. *)
Definition float_half (b : Z) : result Q :=
  let m := Z.abs b in
  if m <? 2 ^ 53 then Ok (inject_Z b / 2)%Q
  else
    let p := Z.log2 m - 52 in
    let q := m / 2 ^ p in
    let r := m mod 2 ^ p in
    let up := (2 ^ (p - 1) <? r) || ((2 ^ (p - 1) =? r) && Z.odd q) in
    let v := (if up then q + 1 else q) * 2 ^ (p - 1) in
    if 2 ^ 1024 <=? v then Raise OverflowError
    else Ok (inject_Z (Z.sgn b * v)).

(** [x % 1 == 0] of a float *)
Definition is_whole (q : Q) : bool := Qeq_bool q (inject_Z (Qfloor q)).

(** What [astropy] hands to the code: times, their differences and
    frequencies are its objects, and its arithmetic is not modelled.
    [Time_gt a b] is [a > b]; [Time_sub a b] is [a - b];
    [TimeDelta_sec d] is the float [d.sec]; [TimeDelta_minus_sec d n] is
    [d - n * u.s]; [TimeDelta_below_2ns d] is [abs(d) < 2. * u.ns];
    [cycles d f] is the float [(d * f).to(u.one).value];
    [Hz x] is [u.Quantity(x, u.Hz)]; [true_div a b] is the float [a / b]
    of two ints, the second not 0. *)
Record astropy : Type := MkAstropy {
  Time : Type;
  TimeDelta : Type;
  Quantity : Type;
  Time_gt : Time -> Time -> bool;
  Time_sub : Time -> Time -> TimeDelta;
  TimeDelta_sec : TimeDelta -> Q;
  TimeDelta_minus_sec : TimeDelta -> Z -> TimeDelta;
  TimeDelta_below_2ns : TimeDelta -> bool;
  cycles : TimeDelta -> Quantity -> Q;
  Hz : Q -> Quantity;
  true_div : Z -> Z -> Q
}.

(** An [astropy] that computes without rounding, with times in seconds,
    for the examples. *)
Definition exact_astropy : astropy :=
  MkAstropy Q Q Q
            (fun a b => Qlt_bool b a)
            Qminus
            (fun d => d)
            (fun d n => (d - inject_Z n)%Q)
            (fun d => Qlt_bool (Qabs d) (2 # 1000000000))
            Qmult
            (fun x => x)
            (fun a b => (inject_Z a / inject_Z b)%Q).

(** A file opened for reading: its bytes and the current position. *)
Record file : Type := MkFile {
  content : list byte;
  pos : Z
}.

(** [fh.read(n)]: at most [n] bytes from the current position (all the
    rest for a negative [n]); the position moves past what was read. *)
Definition fh_read (n : Z) : SE file (list byte) := fun fh =>
  let rest := skipn (Z.to_nat (pos fh)) (content fh) in
  let s := if n <? 0 then rest else firstn (Z.to_nat n) rest in
  (MkFile (content fh) (pos fh + Z.of_nat (length s)), Ok s).

(** [fh.seek(offset, whence)], [whence] being 0 (start), 1 (current) or
    2 (end); a negative target is refused with [IOError]. *)
Definition fh_seek (offset whence : Z) : SE file unit := fun fh =>
  let base := if whence =? 0 then 0
              else if whence =? 1 then pos fh
              else Z.of_nat (length (content fh)) in
  if base + offset <? 0 then (fh, Raise IOError)
  else (MkFile (content fh) (base + offset), Ok tt).

(** [struct.Struct('<nI')]: [size] and [unpack], little-endian 32-bit
    words; a string of the wrong length raises [struct.error]. *)
Definition le_word (bs : list byte) : Z :=
  fold_right (fun b acc => Z.of_N (Byte.to_N b) + 256 * acc) 0 bs.

Fixpoint le_words (n : nat) (s : list byte) : list Z :=
  match n with
  | O => []
  | S n' => le_word (firstn 4 s) :: le_words n' (skipn 4 s)
  end.

Definition struct_size (nwords : nat) : Z := 4 * Z.of_nat nwords.

Definition struct_unpack (nwords : nat) (s : list byte) : result (list Z) :=
  if (length s =? 4 * nwords)%nat then Ok (le_words nwords s)
  else Raise StructError.

(** [pack]: the four bytes of every word, lowest first. *)
Definition byte_of_Z (z : Z) : byte :=
  match Byte.of_N (Z.to_N (z mod 256)) with
  | Some b => b
  | None => x00
  end.

Definition le_bytes (w : Z) : list byte :=
  [byte_of_Z w; byte_of_Z (Z.shiftr w 8);
   byte_of_Z (Z.shiftr w 16); byte_of_Z (Z.shiftr w 24)].

Definition struct_pack (ws : list Z) : list byte := flat_map le_bytes ws.

(** ** vlbi_helpers.py: parsers and setters of bit fields *)

Module VlbiHelpers.

(** [make_parser(word_index, bit_index, bit_length)]: building the closure
    can fail (the [assert], the shift that computes the mask); running it
    can fail too (index out of range, negative shift count). *)
Definition make_parser (word_index : nat) (bit_index bit_length : Z)
  : result (list Z -> result pyval) :=
  if bit_length =? 1 then
    Ok (fun words =>
          w <- getitem words word_index ;;
          s <- py_rshift w bit_index ;;
          Ok (VBool (negb (Z.land s 1 =? 0))))
  else if bit_length =? 32 then
    py_assert (bit_index =? 0) ;;;
    Ok (fun words => w <- getitem words word_index ;; Ok (VInt w))
  else
    m <- py_lshift 1 bit_length ;;
    let mask := m - 1 in
    if bit_index =? 0 then
      Ok (fun words =>
            w <- getitem words word_index ;; Ok (VInt (Z.land w mask)))
    else
      Ok (fun words =>
            w <- getitem words word_index ;;
            s <- py_rshift w bit_index ;;
            Ok (VInt (Z.land s mask))).

(** [make_setter(word_index, bit_index, bit_length, default=None)] returns
    [setter(words, value)]. *)
Definition make_setter (word_index : nat) (bit_index bit_length : Z)
  (default : option pyval) (words : list Z) (value : option pyval)
  : result (list Z) :=
  let value := match value, default with
               | None, Some d => Some d
               | _, _ => value
               end in
  value <- py_int value ;;
  word <- getitem words word_index ;;
  m <- py_lshift 1 bit_length ;;
  let bit_mask := m - 1 in
  if negb (Z.land value bit_mask =? value) then Raise ValueError
  else
    bit_mask <- py_lshift bit_mask bit_index ;;
    let word := Z.lxor (Z.lor word bit_mask) bit_mask in
    sv <- py_lshift value bit_index ;;
    let word := Z.lor word sv in
    Ok (firstn word_index words ++ [word] ++ skipn (word_index + 1) words).

(** What a field read is expected to give back for a stored integer [v]:
    a boolean for a one-bit field, the integer otherwise. *)
Definition as_field_value (bit_length v : Z) : pyval :=
  if bit_length =? 1 then VBool (negb (v =? 0)) else VInt v.

(** The word the setter leaves and the integer the parser reads, for a
    field of [bit_length] bits from bit [bit_index]. *)
Definition put_field (bit_index bit_length value word : Z) : Z :=
  Z.lor (Z.lxor (Z.lor word (Z.shiftl (Z.ones bit_length) bit_index))
                (Z.shiftl (Z.ones bit_length) bit_index))
        (Z.shiftl value bit_index).

Definition get_field (bit_index bit_length word : Z) : Z :=
  Z.land (Z.shiftr word bit_index) (Z.ones bit_length).

(** A header word as [struct.unpack('<8I')] produces it. *)
Definition word32 (w : Z) : Prop := 0 <= w < 2 ^ 32.


(** *** Parser tables: [HeaderParser(OrderedDict)] *)

(** A field definition: the tuple [(word_index, bit_index, bit_length)] or
    [(word_index, bit_index, bit_length, default)]. *)
Record field_def : Type := FieldDef {
  word_index : nat;
  bit_index : Z;
  bit_length : Z;
  default : option pyval
}.

(** An [OrderedDict] with string keys: the items in insertion order, no key
    twice. *)
Definition odict (V : Type) : Type := list (string * V).

Fixpoint od_get {V : Type} (d : odict V) (k : string) : option V :=
  match d with
  | [] => None
  | (k', v) :: d' => if String.eqb k k' then Some v else od_get d' k
  end.

(** [d[k] = v]: an existing key keeps its position, a new one is appended. *)
Fixpoint od_setitem {V : Type} (d : odict V) (k : string) (v : V) : odict V :=
  match d with
  | [] => [(k, v)]
  | (k', v') :: d' =>
      if String.eqb k k' then (k, v) :: d' else (k', v') :: od_setitem d' k v
  end.

(** [d.update(other)]: [d[k] = v] for every item of [other], in order. *)
Definition od_update {V : Type} (d other : odict V) : odict V :=
  fold_left (fun acc kv => od_setitem acc (fst kv) (snd kv)) other d.

Definition od_keys {V : Type} (d : odict V) : list string := map fst d.

Definition od_contains {V : Type} (d : odict V) (k : string) : bool :=
  match od_get d k with Some _ => true | None => false end.

(** [d[k]], raising [KeyError]. *)
Definition od_getitem {V : Type} (d : odict V) (k : string) : result V :=
  match od_get d k with
  | Some v => Ok v
  | None => Raise KeyError
  end.

(** The table: the ordered items and the precomputed [parsers] dict. *)
Record HeaderParser : Type := MkHeaderParser {
  items : odict field_def;
  parsers : odict (list Z -> result pyval)
}.

(** The dict comprehension of [__init__]: every key [k] with value [v] is
    mapped to [make_parser] of the first three entries of [v]. *)
Fixpoint build_parsers (acc : odict (list Z -> result pyval))
  (its : odict field_def) : result (odict (list Z -> result pyval)) :=
  match its with
  | [] => Ok acc
  | (k, v) :: rest =>
      p <- make_parser (word_index v) (bit_index v) (bit_length v) ;;
      build_parsers (od_setitem acc k p) rest
  end.

(** [HeaderParser.__init__(self, args)]: the ordered dict is filled from
    the sequence of pairs, then the parsers are computed. *)
Definition HeaderParser_init (args : list (string * field_def))
  : result HeaderParser :=
  let its := od_update [] args in
  ps <- build_parsers [] its ;;
  Ok (MkHeaderParser its ps).

(** [OrderedDict.copy(self)] is [self.__class__(self)]. *)
Definition HeaderParser_copy (self : HeaderParser) : result HeaderParser :=
  HeaderParser_init (items self).

(** [HeaderParser.update(self, other)] *)
Definition HeaderParser_update (self other : HeaderParser) : HeaderParser :=
  MkHeaderParser (od_update (items self) (items other))
                 (od_update (parsers self) (parsers other)).

(** [HeaderParser.__add__(self, other)] *)
Definition HeaderParser_add (self other : HeaderParser)
  : result HeaderParser :=
  r <- HeaderParser_copy self ;;
  Ok (HeaderParser_update r other).

(** [==] of two ordered dicts: the same items in the same order. *)
Definition HeaderParser_eq (a b : HeaderParser) : Prop := items a = items b.

(** [header_parser.defaults[item]] *)
Definition defaults (hp : HeaderParser) (item : string)
  : result (option pyval) :=
  d <- od_getitem (items hp) item ;; Ok (default d).

(** [header_parser.setters[item]] *)
Definition setters (hp : HeaderParser) (item : string)
  : result (list Z -> option pyval -> result (list Z)) :=
  d <- od_getitem (items hp) item ;;
  Ok (make_setter (word_index d) (bit_index d) (bit_length d) (default d)).

(** The dict invariant of a table and the property that its definitions
    were accepted by [make_parser] when it was built. *)
Definition accepted (d : field_def) : Prop :=
  exists p, make_parser (word_index d) (bit_index d) (bit_length d) = Ok p.

Definition table_ok (hp : HeaderParser) : Prop :=
  NoDup (od_keys (items hp)) /\ Forall (fun kv => accepted (snd kv)) (items hp).

(** The same, as a check that can be run on a given table. *)
Fixpoint distinct (ks : list string) : bool :=
  match ks with
  | [] => true
  | k :: ks' => negb (existsb (String.eqb k) ks') && distinct ks'
  end.

Definition accepts (d : field_def) : bool :=
  match make_parser (word_index d) (bit_index d) (bit_length d) with
  | Ok _ => true
  | Raise _ => false
  end.

Definition table_okb (hp : HeaderParser) : bool :=
  distinct (od_keys (items hp))
  && forallb (fun kv => accepts (snd kv)) (items hp).

End VlbiHelpers.

(** ** numpy arrays as nested lists *)

Module Np.

(** [a[:, idx]] and [a.take(idx, axis=1)] on a two-dimensional array. *)
Definition take_axis1 {A : Type} (d : A) (idx : list nat)
  (rows : list (list A)) : list (list A) :=
  map (fun r => map (fun i => nth i r d) idx) rows.

(** [a.T] of an array of shape [(len a, ncols)]; on three dimensions, under
    [map], it is [transpose(0, 2, 1)]. *)
Definition transpose {A : Type} (d : A) (ncols : nat) (a : list (list A))
  : list (list A) :=
  map (fun c => map (fun r => nth c r d) a) (seq 0 ncols).

(** Splitting the first axis into blocks of [k]: [reshape(-1, k, ...)] of an
    array and [view] of bytes as wider words both group [k] consecutive
    entries; numpy raises [ValueError] when the length is no multiple. *)
Definition blocks {A : Type} (k : nat) (l : list A) : result (list (list A)) :=
  if (length l mod k =? 0)%nat then
    Ok (map (fun i => firstn k (skipn (k * i) l)) (seq 0 (length l / k)))
  else Raise ValueError.

(** [table.take(i)] with the default [mode='raise']. *)
Definition take {A : Type} (table : list A) (i : Z) : result A :=
  if (i <? 0) || (Z.of_nat (length table) <=? i) then Raise IndexError
  else getitem table (Z.to_nat i).

Fixpoint mapM {A B : Type} (f : A -> result B) (l : list A)
  : result (list B) :=
  match l with
  | [] => Ok []
  | x :: l' => y <- f x ;; ys <- mapM f l' ;; Ok (y :: ys)
  end.

(** Elementwise binary operation with a vector broadcast along the last
    axis. *)
Fixpoint zip_with {A B C : Type} (f : A -> B -> C) (l : list A) (m : list B)
  : list C :=
  match l, m with
  | x :: l', y :: m' => f x y :: zip_with f l' m'
  | _, _ => []
  end.

Definition uint8 (x : Z) : Z := x mod 2 ^ 8.
Definition uint32 (x : Z) : Z := x mod 2 ^ 32.
Definition uint64 (x : Z) : Z := x mod 2 ^ 64.

(** Eight bytes seen as one little-endian [uint64], and back. *)
Definition word_of_bytes (bs : list Z) : Z :=
  fold_right (fun b acc => Z.lor b (Z.shiftl acc 8)) 0 bs.

Definition bytes_of_word (w : Z) : list Z :=
  map (fun i => Z.land (Z.shiftr w (8 * Z.of_nat i)) 255) (seq 0 8).

End Np.

(** ** mark4/payload.py *)

Module Mark4Payload.
Import Np.

(** [OPTIMAL_2BIT_HIGH = 3.3359].  The levels are single-precision floats in
    the source; they are modelled by the rationals they are written as, so
    that two samples are the same float exactly when they are the same
    level. *)
Definition OPTIMAL_2BIT_HIGH : Q := 33359 # 10000.

(** The little-endian branch of [sys.byteorder]. *)
Definition reorder32 (x : Z) : Z :=
  Z.lor (Z.lor (Z.land x 0xAA55AA55)
               (Z.shiftr (Z.land x 0x55005500) 7))
        (uint32 (Z.shiftl (Z.land x 0x00AA00AA) 7)).

Definition reorder64 (x : Z) : Z :=
  Z.lor (Z.lor (Z.land x 0xAA55AA55AA55AA55)
               (Z.shiftr (Z.land x 0x5500550055005500) 7))
        (uint64 (Z.shiftl (Z.land x 0x00AA00AA00AA00AA) 7)).

(** The big-endian branch. *)
Definition reorder32_big (x : Z) : Z :=
  Z.lor (Z.lor (Z.land x 0x55AA55AA)
               (Z.shiftr (Z.land x 0xAA00AA00) 9))
        (uint32 (Z.shiftl (Z.land x 0x00550055) 9)).

Definition reorder64_big (x : Z) : Z :=
  Z.lor (Z.lor (Z.land x 0x55AA55AA55AA55AA)
               (Z.shiftr (Z.land x 0xAA00AA00AA00AA00) 9))
        (uint64 (Z.shiftl (Z.land x 0x0055005500550055) 9)).

(** The reorderings read bit by bit: with [f] the bits of the argument,
    bit [n] of the result is bit [n] where [keep] has a one, bit [n + s]
    where [down] has a one at [n + s], bit [n - s] where [up] has a one at
    [n - s] (nothing is shifted in beyond the width [w]). *)
Definition moved_bits (keep down up s w : Z) (f : Z -> bool) (n : Z) : bool :=
  (0 <=? n)
  && ((f n && Z.testbit keep n)
      || (f (n + s) && Z.testbit down (n + s))
      || ((n <? w) && (f (n - s) && Z.testbit up (n - s)))).

(** [init_luts] *)
Definition lut2level : list Q := [1; -1]%Q.

Definition lut4level : list Q :=
  [- OPTIMAL_2BIT_HIGH; 1; -1; OPTIMAL_2BIT_HIGH]%Q.

Definition bit (b s : Z) : Z := Z.land (Z.shiftr b s) 1.

Definition byte_values : list Z := map Z.of_nat (seq 0 256).

Definition lut1bit : list (list Q) :=
  map (fun b => map (fun i => nth (Z.to_nat (bit b i)) lut2level 0%Q)
                    [0; 1; 2; 3; 4; 5; 6; 7]) byte_values.

(** A two-bit table from the positions [s] and [m] of the two bits of each
    of the four samples in a byte. *)
Definition lut2bit (s m : list Z) : list (list Q) :=
  map (fun b => zip_with (fun s m =>
                            nth (Z.to_nat (bit b s + bit b m * 2))
                                lut4level 0%Q) s m) byte_values.

Definition lut2bit1 : list (list Q) := lut2bit [0; 2; 4; 6] [1; 3; 5; 7].
Definition lut2bit2 : list (list Q) := lut2bit [0; 1; 4; 5] [2; 3; 6; 7].
Definition lut2bit3 : list (list Q) := lut2bit [0; 1; 2; 3] [4; 5; 6; 7].

Definition reorder_channels : list nat := [0; 2; 1; 3; 4; 6; 5; 7]%nat.

(** [lut.take(b, axis=0)] for one byte [b]: the row of the table. *)
Definition lut_take (lut : list (list Q)) (b : Z) : list Q :=
  nth (Z.to_nat b) lut [].

(** [decode_8chan_2bit_fanout4(frame)] with [out=None]: [frame] is the array
    of [uint64] words, the result has shape [(4 * len(frame), 8)]. *)
Definition decode_8chan_2bit_fanout4 (frame : list Z) : list (list Q) :=
  (* reorder64(frame).view(np.uint8).reshape(-1, 8) *)
  let frame := map bytes_of_word (map reorder64 frame) in
  let frame := take_axis1 0 reorder_channels frame in
  (* lut2bit1.take(frame.T, axis=0): shape (8, n, 4) *)
  let looked := map (map (lut_take lut2bit1)) (transpose 0 8 frame) in
  (* .reshape(8, -1).T *)
  let flat := map (@concat Q) looked in
  transpose 0%Q (length (hd [] flat)) flat.

Section Encoder.

(** [encode_2bit_real_base] is imported from [vlbi_base], which is not among
    the sources: it is a parameter, applied to every sample. *)
Variable encode_2bit_real_base : Q -> Z.

Definition reorder_bits : list Z := [0; 2; 1; 3].

(** [quad <<= [0, 2, 4, 6]] in [uint8], then [np.bitwise_or.reduce]. *)
Definition shift_quad (quad : list Z) : list Z :=
  zip_with (fun b s => uint8 (Z.shiftl b s)) quad [0; 2; 4; 6].

Definition or_reduce (quad : list Z) : Z := fold_left Z.lor quad 0.

(** [encode_8chan_2bit_fanout4(values)] for [values] of shape [(m, 8)]. *)
Definition encode_8chan_2bit_fanout4 (values : list (list Q))
  : result (list Z) :=
  let values := take_axis1 0%Q reorder_channels values in
  (* .reshape(-1, 4, 8).transpose(0, 2, 1) *)
  values <- blocks 4 values ;;
  let values := map (transpose 0%Q 8) values in
  let bitvalues := map (map (map encode_2bit_real_base)) values in
  (* reorder_bits.take(bitvalues, out=bitvalues) *)
  bitvalues <- mapM (mapM (mapM (take reorder_bits))) bitvalues ;;
  (* bitvalues <<= [0, 2, 4, 6] *)
  let bitvalues := map (map shift_quad) bitvalues in
  (* np.bitwise_or.reduce(bitvalues, axis=-1).ravel().view(np.uint64) *)
  let out := map (map or_reduce) bitvalues in
  out <- blocks 8 (concat out) ;;
  Ok (map reorder64 (map word_of_bytes out)).

End Encoder.

(** The codec read one block at a time: four consecutive samples of the
    eight channels make one word.  [level_code] is the place of a level in
    [lut4level], the two bits stored for it. *)
Definition level_code (v : Q) : Z :=
  if Qeq_bool v (- OPTIMAL_2BIT_HIGH) then 0
  else if Qeq_bool v 1 then 1
  else if Qeq_bool v (-1) then 2
  else 3.

Definition encode_block (blk : list (list Q)) : Z :=
  reorder64
    (word_of_bytes
       (map (fun col => or_reduce (shift_quad (map level_code col)))
            (transpose 0%Q 8 (take_axis1 0%Q reorder_channels blk)))).

Definition decode_block (w : Z) : list (list Q) :=
  transpose 0%Q 4
    (map (lut_take lut2bit1)
         (map (fun i => nth i (bytes_of_word (reorder64 w)) 0)
              reorder_channels)).

(** Modelled from the spec: [encode_2bit_real_base] of [vlbi_base] is not
    among the sources.  "Sample magnitudes are quantized to the nearest
    level": the rank, from 0 to 3, of the level nearest to the sample.
    It serves as an instance of the parameter of the encoder. *)
Definition nearest_level_rank (v : Q) : Z :=
  let mid := ((OPTIMAL_2BIT_HIGH + 1) / 2)%Q in
  if Qlt_bool v (- mid) then 0
  else if Qlt_bool v 0 then 1
  else if Qlt_bool v mid then 2
  else 3.

(** The four levels a two-bit sample can take. *)
Definition is_level (v : Q) : Prop := In v lut4level.

End Mark4Payload.

(** ** vdif/header.py *)

Module VdifHeader.
Import VlbiHelpers.
Local Open Scope string_scope.
Local Open Scope Z_scope.
Local Open Scope py_scope.

(** The [edv] attribute of a header: [None], [False] or an integer. *)
Inductive edv_t : Type :=
| EdvNone
| EdvFalse
| EdvInt (n : Z).

(** The classes a header object can have. *)
Inductive vdif_class : Type :=
| VDIFLegacyHeader
| VDIFBaseHeader
| VDIFHeader1
| VDIFHeader2
| VDIFHeader3
| VDIFHeader4
| VDIFMark5BHeader.

(** A header object: its class and its two instance attributes. *)
Record header : Type := MkHeader {
  cls : vdif_class;
  edv : edv_t;
  words : list Z
}.

Definition set_words (ws : list Z) (h : header) : header :=
  MkHeader (cls h) (edv h) ws.

(** The tables are built when the module is imported; an exception there
    would leave no table at all (none is raised, see [tables_built]). *)
Definition built (r : result HeaderParser) : HeaderParser :=
  match r with
  | Ok t => t
  | Raise _ => MkHeaderParser [] []
  end.

Definition fd (w : nat) (b l : Z) : field_def := FieldDef w b l None.
Definition fdd (w : nat) (b l : Z) (d : pyval) : field_def :=
  FieldDef w b l (Some d).

Definition plus (a : result HeaderParser) (args : list (string * field_def))
  : result HeaderParser :=
  a <- a ;; b <- HeaderParser_init args ;; HeaderParser_add a b.

Definition Legacy_fields : list (string * field_def) :=
  [("invalid_data", fdd 0 31 1 (VBool false));
   ("legacy_mode", fdd 0 30 1 (VBool true));
   ("seconds", fd 0 0 30);
   ("_1_30_2", fdd 1 30 2 (VInt 0));
   ("ref_epoch", fd 1 24 6);
   ("frame_nr", fdd 1 0 24 (VInt 0));
   ("vdif_version", fdd 2 29 3 (VInt 1));
   ("lg2_nchan", fd 2 24 5);
   ("frame_length", fd 2 0 24);
   ("complex_data", fd 3 31 1);
   ("bits_per_sample", fd 3 26 5);
   ("thread_id", fdd 3 16 10 (VInt 0));
   ("station_id", fd 3 0 16)].

Definition Legacy_parser : result HeaderParser :=
  HeaderParser_init Legacy_fields.

Definition Base_fields : list (string * field_def) :=
  [("legacy_mode", fdd 0 30 1 (VBool false));
   ("edv", fd 4 24 8)].

Definition Base_parser : result HeaderParser :=
  plus Legacy_parser Base_fields.

Definition SampleRate_fields : list (string * field_def) :=
  [("sampling_unit", fd 4 23 1);
   ("sample_rate", fd 4 0 23);
   ("sync_pattern", fdd 5 0 32 (VInt 0xACABFEED))].

Definition SampleRate_parser : result HeaderParser :=
  plus Base_parser SampleRate_fields.

Definition Header1_fields : list (string * field_def) :=
  [("das_id", fdd 6 0 64 (VInt 0))].

Definition Header1_parser : result HeaderParser :=
  plus SampleRate_parser Header1_fields.

Definition Header3_fields : list (string * field_def) :=
  [("frame_length", fdd 2 0 24 (VInt 629));
   ("loif_tuning", fdd 6 0 32 (VInt 0));
   ("_7_28_4", fdd 7 28 4 (VInt 0));
   ("dbe_unit", fdd 7 24 4 (VInt 0));
   ("if_nr", fdd 7 20 4 (VInt 0));
   ("subband", fdd 7 17 3 (VInt 0));
   ("sideband", fdd 7 16 1 (VBool false));
   ("major_rev", fdd 7 12 4 (VInt 0));
   ("minor_rev", fdd 7 8 4 (VInt 0));
   ("personality", fd 7 0 8)].

Definition Header3_parser : result HeaderParser :=
  plus SampleRate_parser Header3_fields.

Definition Header2_fields : list (string * field_def) :=
  [("complex_data", fdd 3 31 1 (VInt 0));
   ("bits_per_sample", fdd 3 26 5 (VInt 1));
   ("pol", fd 4 0 1);
   ("BL_quadrant", fd 4 1 2);
   ("BL_correlator", fd 4 3 1);
   ("sync_pattern", fdd 4 4 20 (VInt 0xa5ea5));
   ("PIC_status", fd 5 0 32);
   ("PSN", fd 6 0 64)].

Definition Header2_parser : result HeaderParser :=
  plus Base_parser Header2_fields.

(** [is_legacy_header] and [get_header_edv]: two parsers of the base
    table. *)
Definition base_parser_of (item : string) (ws : list Z) : result pyval :=
  p <- od_getitem (parsers (built Base_parser)) item ;; p ws.

Definition is_legacy_header : list Z -> result pyval :=
  base_parser_of "legacy_mode".

Definition get_header_edv : list Z -> result pyval :=
  base_parser_of "edv".

(** [vdif_header_classes.get(edv, VDIFBaseHeader)].  The key of the legacy
    class is [False], and [0 == False] with the same hash, so the integer 0
    finds it too. *)
Definition class_of_edv (e : edv_t) : vdif_class :=
  match e with
  | EdvFalse => VDIFLegacyHeader
  | EdvInt 0 => VDIFLegacyHeader
  | EdvInt 1 => VDIFHeader1
  | EdvInt 2 => VDIFHeader2
  | EdvInt 3 => VDIFHeader3
  | EdvInt 4 => VDIFHeader4
  | EdvInt 0xab => VDIFMark5BHeader
  | _ => VDIFBaseHeader
  end.

(** [cls._struct.size // 4] and [header.size] *)
Definition struct_words (c : vdif_class) : nat :=
  match c with
  | VDIFLegacyHeader => 4%nat
  | _ => 8%nat
  end.

Definition size (h : header) : Z := struct_size (struct_words (cls h)).

Section Classes.

(** [Mark5BHeader] lives in [mark5b/header.py], which is not among the
    sources: its parser table and the comparison of the two times in
    [VDIFMark5BHeader.verify] are parameters. *)
Variable Mark5BHeader_header_parser : HeaderParser.
Variable Mark5B_time_agrees : list Z -> result unit.

(** The interpreter, and [astropy] with [ref_epochs]: the start of every
    half year since 2000, up to the day the module is imported. *)
Variable interpreter : python.
Variable astro : astropy.
Variable ref_epochs : list (Time astro).

Definition Mark5B_parser : result HeaderParser :=
  a <- plus Base_parser [("frame_length", fdd 2 0 24 (VInt 1254))] ;;
  b <- HeaderParser_init
         (map (fun kv => (fst kv,
                          FieldDef (word_index (snd kv) + 4)
                                   (bit_index (snd kv))
                                   (bit_length (snd kv))
                                   (default (snd kv))))
              (items Mark5BHeader_header_parser)) ;;
  HeaderParser_add a b.

(** [self._header_parser] *)
Definition header_parser (c : vdif_class) : HeaderParser :=
  built match c with
        | VDIFLegacyHeader => Legacy_parser
        | VDIFBaseHeader => Base_parser
        | VDIFHeader1 => Header1_parser
        | VDIFHeader2 => Header2_parser
        | VDIFHeader3 => Header3_parser
        | VDIFHeader4 => SampleRate_parser
        | VDIFMark5BHeader => Mark5B_parser
        end.

(** [VLBIHeaderBase.__getitem__], [__setitem__], [keys] *)
Definition h_getitem (h : header) (item : string) : result pyval :=
  p <- od_getitem (parsers (header_parser (cls h))) item ;; p (words h).

Definition h_setitem (item : string) (value : option pyval)
  : SE header unit := fun h =>
  match (s <- setters (header_parser (cls h)) item ;; s (words h) value) with
  | Ok ws => (set_words ws h, Ok tt)
  | Raise e => (h, Raise e)
  end.

Definition h_keys (h : header) : list string :=
  od_keys (items (header_parser (cls h))).

(** *** Properties common to all VDIF headers *)

Definition framesize (h : header) : result Z :=
  v <- h_getitem h "frame_length" ;; Ok (as_int v * 8).

Definition payloadsize (h : header) : result Z :=
  f <- framesize h ;; Ok (f - size h).

Definition bps (h : header) : result Z :=
  b <- h_getitem h "bits_per_sample" ;;
  c <- h_getitem h "complex_data" ;;
  Ok (if truthy c then (as_int b + 1) * 2 else as_int b + 1).

Definition nchan (h : header) : result Z :=
  l <- h_getitem h "lg2_nchan" ;; Ok (2 ^ as_int l).

(** [a // b] *)
Definition py_floordiv (a b : Z) : result Z :=
  if b =? 0 then Raise ZeroDivisionError else Ok (a / b).

Definition samples_per_frame (h : header) : result Z :=
  b <- bps h ;;
  values_per_word <- py_floordiv 32 b ;;
  p <- payloadsize h ;;
  n <- nchan h ;;
  py_floordiv (p / 4 * values_per_word) n.

(** [VDIFSampleRateHeader.framerate], in Hz; the other classes have no such
    attribute. *)
Definition has_framerate (c : vdif_class) : bool :=
  match c with
  | VDIFHeader1 | VDIFHeader3 | VDIFHeader4 => true
  | _ => false
  end.

Definition framerate (h : header) : result (Quantity astro) :=
  if has_framerate (cls h) then
    r <- h_getitem h "sample_rate" ;;
    u <- h_getitem h "sampling_unit" ;;
    n <- nchan h ;;
    s <- samples_per_frame h ;;
    if s =? 0 then Raise ZeroDivisionError
    else Ok (Hz astro
               (true_div astro
                  (as_int r * (if truthy u then 1000000 else 1000) * 2 * n)
                  s))
  else Raise AttributeError.

(** *** [verify] of every class *)

Definition edv_is_false (e : edv_t) : bool :=
  match e with EdvFalse => true | _ => false end.

(** [self.edv == self['edv']] *)
Definition edv_eqb (e : edv_t) (v : pyval) : bool :=
  match e with
  | EdvNone => false
  | EdvFalse => as_int v =? 0
  | EdvInt n => as_int v =? n
  end.

Definition option_eqb (v : pyval) (d : option pyval) : bool :=
  match d with
  | Some d => pyval_eqb v d
  | None => false
  end.

Definition verify_legacy (h : header) : result unit :=
  py_assert (edv_is_false (edv h)) ;;;
  l <- h_getitem h "legacy_mode" ;;
  py_assert (truthy l) ;;;
  py_assert (length (words h) =? 4)%nat.

Definition verify_base (h : header) : result unit :=
  l <- h_getitem h "legacy_mode" ;;
  py_assert (negb (truthy l)) ;;;
  e <- h_getitem h "edv" ;;
  py_assert (edv_eqb (edv h) e) ;;;
  py_assert (length (words h) =? 8)%nat ;;;
  if existsb (String.eqb "sync_pattern") (h_keys h) then
    s <- h_getitem h "sync_pattern" ;;
    d <- defaults (header_parser (cls h)) "sync_pattern" ;;
    py_assert (option_eqb s d)
  else Ok tt.

Definition verify (h : header) : result unit :=
  match cls h with
  | VDIFLegacyHeader => verify_legacy h
  | VDIFHeader3 =>
      verify_base h ;;;
      f <- h_getitem h "frame_length" ;;
      py_assert (as_int f =? 629)
  | VDIFHeader2 =>
      verify_base h ;;;
      f <- h_getitem h "frame_length" ;;
      py_assert ((as_int f =? 629) || (as_int f =? 1004)) ;;;
      b <- bps h ;;
      if b =? 2 then
        c <- h_getitem h "complex_data" ;; py_assert (negb (truthy c))
      else Raise AssertionError
  | VDIFMark5BHeader =>
      verify_base h ;;;
      f <- h_getitem h "frame_length" ;;
      py_assert (as_int f =? 1254) ;;;
      Mark5B_time_agrees (words h)
  | _ => verify_base h
  end.

(** *** Construction: [VDIFHeader(words, edv, verify)] *)

(** [VDIFHeader.__new__]: picks the class and sets [self.edv]. *)
Definition VDIFHeader_new (ws : list Z) (e : edv_t)
  : result (vdif_class * edv_t) :=
  e <- match e with
       | EdvNone =>
           l <- is_legacy_header ws ;;
           if truthy l then Ok EdvFalse
           else (v <- get_header_edv ws ;; Ok (EdvInt (as_int v)))
       | _ => Ok e
       end ;;
  Ok (class_of_edv e, e).

(** [__init__] of the class of the new object, called by Python with the
    arguments of the call: [e] is the [edv] the caller passed, [self_edv]
    the attribute [__new__] has set. *)
Definition VDIFHeader_init (c : vdif_class) (self_edv : edv_t)
  (ws : list Z) (e : edv_t) (do_verify : bool) : result header :=
  let self_edv :=
    match c with
    | VDIFLegacyHeader =>
        (* if self.edv is not None: self.edv = edv *)
        match self_edv with EdvNone => self_edv | _ => e end
    | _ =>
        (* if edv is not None: self.edv = edv *)
        match e with EdvNone => self_edv | _ => e end
    end in
  let h := MkHeader c self_edv ws in
  (if do_verify then verify h else Ok tt) ;;;
  Ok h.

Definition VDIFHeader_call (ws : list Z) (e : edv_t) (do_verify : bool)
  : result header :=
  ce <- VDIFHeader_new ws e ;;
  VDIFHeader_init (fst ce) (snd ce) ws e do_verify.

(** [VDIFHeader.fromfile(fh, edv=None, verify=True)] *)
Definition fromfile (e : edv_t) (do_verify : bool) : SE file header :=
  s <~ fh_read 32 ;;
  if negb (length s =? 32)%nat then se_raise EOFError
  else
    ws <~ se_lift (struct_unpack 8 s) ;;
    self <~ se_lift (VDIFHeader_call ws e false) ;;
    self <~ (if edv_is_false (edv self) then
               fh_seek (-16) 1 ;;>
               se_ret (set_words (firstn 4 (words self)) self)
             else se_ret self) ;;
    (if do_verify then se_lift (verify self) else se_ret tt) ;;>
    se_ret self.

(** *** [set_time] *)

(** [np.searchsorted(a, v)] on an increasing array: the number of entries
    before the first one that is [>= v]. *)
Fixpoint searchsorted (a : list Q) (v : Q) : Z :=
  match a with
  | [] => 0
  | x :: a' => if Qlt_bool x v then 1 + searchsorted a' v else 0
  end.

(** [VDIFHeader.set_time(self, time, framerate=None)], [framerate] a
    frequency. *)
Definition set_time (time : Time astro)
  (framerate_arg : option (Quantity astro)) : SE header unit :=
  e0 <~ se_lift (getitem ref_epochs 0) ;;
  se_lift (py_assert (Time_gt astro time e0)) ;;>
  let ref_index :=
    searchsorted
      (map (fun e => TimeDelta_sec astro (Time_sub astro e time)) ref_epochs)
      0 - 1 in
  h_setitem "ref_epoch" (Some (VInt ref_index)) ;;>
  e <~ se_lift (py_index ref_epochs ref_index) ;;
  let seconds := Time_sub astro time e in
  let int_sec := Qtrunc (TimeDelta_sec astro seconds) in
  h_setitem "seconds" (Some (VInt int_sec)) ;;>
  let frac_sec := TimeDelta_minus_sec astro seconds int_sec in
  if TimeDelta_below_2ns astro frac_sec then
    h_setitem "frame_nr" (Some (VInt 0))
  else
    fr <~ match framerate_arg with
          | Some f => se_ret f
          | None => fun h => match framerate h with
                             | Raise AttributeError => (h, Raise ValueError)
                             | r => (h, r)
                             end
          end ;;
    h_setitem "frame_nr"
              (Some (VInt (py_round interpreter (cycles astro frac_sec fr)))).

(** What is said of [set_time]: the seconds from [time] to the epochs, as
    [(ref_epochs - time).sec] has them; [k] is the last index whose epoch
    is before [time]; the three fields of a header have given values. *)
Definition seconds_to_epochs (time : Time astro) : list Q :=
  map (fun e => TimeDelta_sec astro (Time_sub astro e time)) ref_epochs.

Definition epoch_before (time : Time astro) (k : nat) (e : Time astro)
  : Prop :=
  nth_error ref_epochs k = Some e /\
  (TimeDelta_sec astro (Time_sub astro e time) < 0)%Q /\
  forall j e', nth_error ref_epochs j = Some e' ->
               (TimeDelta_sec astro (Time_sub astro e' time) < 0)%Q ->
               (j <= k)%nat.

Definition time_fields (h : header) (ref_epoch seconds frame_nr : Z)
  : Prop :=
  h_getitem h "ref_epoch" = Ok (VInt ref_epoch) /\
  h_getitem h "seconds" = Ok (VInt seconds) /\
  h_getitem h "frame_nr" = Ok (VInt frame_nr).

End Classes.

(** Example inputs: a legacy header (bit 30 of word 0 set, thread 0) and
    a header of EDV 1 (sync pattern in word 5, 40-byte frames), each
    followed by a payload of eight bytes. *)
Definition legacy_words : list Z := [0x40000000; 0; 3; 0].

Definition legacy_file : file :=
  MkFile (struct_pack legacy_words ++ repeat x00 24) 0.

Definition edv1_words (frame_nr thread_id : Z) : list Z :=
  [100; frame_nr; 5; Z.shiftl thread_id 16; 0x01000000; 0xACABFEED; 0; 0].

Definition edv1_frame (frame_nr thread_id : Z) : list byte :=
  struct_pack (edv1_words frame_nr thread_id) ++ repeat x00 8.

(** Half-year starts since 2000-01-01, in seconds (2000 is a leap year). *)
Definition example_ref_epochs : list Q :=
  [0; 15724800; 31622400; 47260800; 63158400]%Q.

End VdifHeader.

(** ** vdif/frame.py: [VDIFFrameSet.fromfile] *)

Module VdifFrame.
Import VlbiHelpers VdifHeader.
Local Open Scope string_scope.
Local Open Scope Z_scope.
Local Open Scope py_scope.

Section FrameSet.

Variable Mark5BHeader_header_parser : HeaderParser.
Variable Mark5B_time_agrees : list Z -> result unit.
Variable interpreter : python.

(** [VDIFPayload] ([vdif/payload.py]) and [VLBIFrameBase] ([vlbi_base.py])
    are not among the sources: reading a payload and the checks of
    [VDIFFrame.verify] are parameters. *)
Variable payload : Type.
Variable VDIFPayload_fromfile : header -> SE file payload.
Variable VDIFFrame_verify : header -> payload -> result unit.

Record frame : Type := MkFrame {
  frame_header : header;
  frame_payload : payload
}.

(** [VDIFFrame(header, payload, verify)] *)
Definition VDIFFrame_init (h : header) (p : payload) (do_verify : bool)
  : result frame :=
  (if do_verify then VDIFFrame_verify h p else Ok tt) ;;;
  Ok (MkFrame h p).

Record frameset : Type := MkFrameSet {
  frames : list frame;
  header0 : header
}.

(** The local name [exc] after the loop: still [None]; or bound to the
    exception that was caught, as Python 2 leaves the name of
    [except EOFError as exc]; or unbound, since Python 3 deletes that name
    when the handler is left. *)
Inductive local_exc : Type :=
| ExcNone
| ExcCaught (x : exn)
| ExcUnbound.

(** [frames.sort(key=lambda frame: frame['thread_id'])]: the keys are
    computed first, the sort is stable. *)
Fixpoint insert_by_key (kf : Z * frame) (l : list (Z * frame))
  : list (Z * frame) :=
  match l with
  | [] => [kf]
  | kf' :: l' =>
      if fst kf <? fst kf' then kf :: l
      else kf' :: insert_by_key kf l'
  end.

Definition sort_by_thread_id (fs : list frame) : result (list frame) :=
  keyed <- Np.mapM
             (fun f =>
                k <- h_getitem Mark5BHeader_header_parser (frame_header f)
                               "thread_id" ;;
                Ok (as_int k, f)) fs ;;
  Ok (map snd (fold_left (fun acc kf => insert_by_key kf acc) keyed [])).

(** [header['thread_id'] in thread_ids] *)
Definition selected (thread_ids : option (list Z)) (h : header)
  : result bool :=
  match thread_ids with
  | None => Ok true
  | Some ids =>
      t <- h_getitem Mark5BHeader_header_parser h "thread_id" ;;
      Ok (existsb (Z.eqb (as_int t)) ids)
  end.

(** What is said of the frames of a set: a frame has the frame number of
    the first header; its thread was asked for; the reader is at the end of
    the file. *)
Definition same_frame_nr (h0 : header) (f : frame) : Prop :=
  exists a b,
    h_getitem Mark5BHeader_header_parser (frame_header f) "frame_nr" = Ok a /\
    h_getitem Mark5BHeader_header_parser h0 "frame_nr" = Ok b /\
    pyval_eqb a b = true.

Definition wanted (thread_ids : option (list Z)) (f : frame) : Prop :=
  selected thread_ids (frame_header f) = Ok true.

Definition at_end (fh : file) : Prop :=
  pos fh = Z.of_nat (length (content fh)).

(** The body of the [while] loop up to the [try]. *)
Definition keep_or_skip (thread_ids : option (list Z)) (do_verify : bool)
  (h : header) (fs : list frame) : SE file (list frame) :=
  sel <~ se_lift (selected thread_ids h) ;;
  if sel then
    p <~ VDIFPayload_fromfile h ;;
    f <~ se_lift (VDIFFrame_init h p do_verify) ;;
    se_ret (fs ++ [f])%list
  else
    n <~ se_lift (payloadsize Mark5BHeader_header_parser h) ;;
    fh_seek n 1 ;;>
    se_ret fs.

(** The [while ... else] loop.  It yields the frames and what has become
    of the name [exc].  [None] stands for a loop that has not ended within
    [fuel] iterations. *)
Fixpoint collect (fuel : nat) (thread_ids : option (list Z))
  (e : edv_t) (do_verify : bool) (h0 h : header) (fs : list frame)
  (fh : file) : option (file * result (list frame * local_exc)) :=
  match fuel with
  | O => None
  | S fuel' =>
      match (nr <- h_getitem Mark5BHeader_header_parser h "frame_nr" ;;
             nr0 <- h_getitem Mark5BHeader_header_parser h0 "frame_nr" ;;
             Ok (pyval_eqb nr nr0)) with
      | Raise x => Some (fh, Raise x)
      | Ok false =>
          (* else: move back to before the header *)
          match fh_seek (- size h) 1 fh with
          | (fh', Ok _) => Some (fh', Ok (fs, ExcNone))
          | (fh', Raise x) => Some (fh', Raise x)
          end
      | Ok true =>
          match keep_or_skip thread_ids do_verify h fs fh with
          | (fh1, Raise x) => Some (fh1, Raise x)
          | (fh1, Ok fs1) =>
              match VdifHeader.fromfile Mark5BHeader_header_parser
                      Mark5B_time_agrees e do_verify fh1 with
              | (fh2, Ok h') =>
                  collect fuel' thread_ids e do_verify h0 h' fs1 fh2
              | (fh2, Raise EOFError) =>
                  match fh_seek 0 2 fh2 with
                  | (fh3, Ok _) =>
                      Some (fh3, Ok (fs1, match interpreter with
                                          | Python2 => ExcCaught EOFError
                                          | Python3 => ExcUnbound
                                          end))
                  | (fh3, Raise x) => Some (fh3, Raise x)
                  end
              | (fh2, Raise x) => Some (fh2, Raise x)
              end
          end
      end
  end.

(** What follows the loop.  Reading the unbound name [exc] raises
    [UnboundLocalError]; the bare [raise] raises again the exception that
    was caught last. *)
Definition finish (thread_ids : option (list Z)) (sort : bool)
  (h0 : header) (fs : list frame) (exc : local_exc) : result frameset :=
  let n_ids := match thread_ids with
               | None => Nat.min (length fs) 1
               | Some ids => length ids
               end in
  if (length fs <? n_ids)%nat then
    match exc with
    | ExcUnbound => Raise UnboundLocalError
    | ExcCaught x => Raise x
    | ExcNone => Raise IOError
    end
  else
    fs <- (if sort then sort_by_thread_id fs else Ok fs) ;;
    Ok (MkFrameSet fs h0).

(** [VDIFFrameSet.fromfile(fh, thread_ids=None, sort=True, edv=None,
    verify=True)] *)
Definition fromfile (fuel : nat) (thread_ids : option (list Z))
  (sort : bool) (e : edv_t) (do_verify : bool) (fh : file)
  : option (file * result frameset) :=
  match VdifHeader.fromfile Mark5BHeader_header_parser Mark5B_time_agrees
              e do_verify fh with
  | (fh1, Raise x) => Some (fh1, Raise x)
  | (fh1, Ok h0) =>
      match collect fuel thread_ids (edv h0) do_verify h0 h0 [] fh1 with
      | None => None
      | Some (fh2, Raise x) => Some (fh2, Raise x)
      | Some (fh2, Ok (fs, exc)) =>
          Some (fh2, finish thread_ids sort h0 fs exc)
      end
  end.

End FrameSet.

Arguments MkFrame {payload} _ _.
Arguments frame_header {payload} _.
Arguments frame_payload {payload} _.
Arguments MkFrameSet {payload} _ _.
Arguments frames {payload} _.
Arguments header0 {payload} _.

(** A payload reader in the manner of [Mark4Payload.fromfile]: the bytes
    of the payload, [EOFError] when there are fewer than
    [header.payloadsize]. *)
Definition read_payload (m5 : HeaderParser) (h : header)
  : SE file (list byte) :=
  n <~ se_lift (payloadsize m5 h) ;;
  s <~ fh_read n ;;
  if Z.of_nat (length s) <? n then se_raise EOFError else se_ret s.

(** Example streams: threads 0 and 1 of frame 7, and the same followed by
    thread 0 of frame 8. *)
Definition two_threads : file :=
  MkFile (edv1_frame 7 0 ++ edv1_frame 7 1) 0.

Definition two_threads_and_next : file :=
  MkFile (edv1_frame 7 0 ++ edv1_frame 7 1 ++ edv1_frame 8 0) 0.

End VdifFrame.

(** ** vlbi_helpers.py: [get_frame_rate] *)

Module FrameRate.
Local Open Scope string_scope.
Local Open Scope Z_scope.
Local Open Scope py_scope.

(** What [get_frame_rate] asks of [header_class] and of its instances. *)
Class HeaderClass (H : Type) : Type := {
  hc_fromfile : SE file H;
  hc_getitem : H -> string -> result pyval;
  hc_contains : H -> string -> bool;
  hc_seconds : H -> result Z;
  hc_payloadsize : H -> result Z
}.

Inductive warning : Type :=
| UserWarning (msg : string).

Definition time_changed : warning :=
  UserWarning "Header time changed by more than 1 second?".

Section GetFrameRate.

Context {H : Type} `{HeaderClass H}.

(** [fh.seek(header.payloadsize, 1); header = header_class.fromfile(fh)] *)
Definition next_header (h : H) : SE file H :=
  n <~ se_lift (hc_payloadsize h) ;;
  fh_seek n 1 ;;>
  hc_fromfile.

(** [while header['frame_nr'] == 0: ...]; [None] when the loop has not
    ended within [fuel] iterations. *)
Fixpoint skip_zero (fuel : nat) (h : H) (fh : file)
  : option (file * result H) :=
  match fuel with
  | O => None
  | S fuel' =>
      match hc_getitem h "frame_nr" with
      | Raise x => Some (fh, Raise x)
      | Ok nr =>
          if pyval_eqb nr (VInt 0) then
            match next_header h fh with
            | (fh', Ok h') => skip_zero fuel' h' fh'
            | (fh', Raise x) => Some (fh', Raise x)
            end
          else Some (fh, Ok h)
      end
  end.

(** [while header['frame_nr'] > 0: max_frame = header['frame_nr']; ...] *)
Fixpoint count_up (fuel : nat) (h : H) (max_frame : option Z) (fh : file)
  : option (file * result (H * option Z)) :=
  match fuel with
  | O => None
  | S fuel' =>
      match hc_getitem h "frame_nr" with
      | Raise x => Some (fh, Raise x)
      | Ok nr =>
          if 0 <? as_int nr then
            match hc_getitem h "frame_nr" with
            | Raise x => Some (fh, Raise x)
            | Ok m =>
                match next_header h fh with
                | (fh', Ok h') => count_up fuel' h' (Some (as_int m)) fh'
                | (fh', Raise x) => Some (fh', Raise x)
                end
            end
          else Some (fh, Ok (h, max_frame))
      end
  end.

(** [get_frame_rate(fh, header_class, thread_id=None)]: the value returned
    and the warnings issued. *)
Definition get_frame_rate (fuel : nat) (thread_id : option pyval)
  (fh : file) : option (file * result (Z * list warning)) :=
  match (fh_seek 0 0 ;;>
         header <~ hc_fromfile ;;
         nr <~ se_lift (hc_getitem header "frame_nr") ;;
         se_lift (py_assert (pyval_eqb nr (VInt 0))) ;;>
         sec0 <~ se_lift (hc_seconds header) ;;
         thread_id <~ se_lift
           (match thread_id with
            | None => if hc_contains header "thread_id"
                      then t <- hc_getitem header "thread_id" ;; Ok (Some t)
                      else Ok None
            | Some t => Ok (Some t)
            end) ;;
         se_ret (header, sec0)) fh with
  | (fh1, Raise x) => Some (fh1, Raise x)
  | (fh1, Ok (header, sec0)) =>
      match skip_zero fuel header fh1 with
      | None => None
      | Some (fh2, Raise x) => Some (fh2, Raise x)
      | Some (fh2, Ok header) =>
          match count_up fuel header None fh2 with
          | None => None
          | Some (fh3, Raise x) => Some (fh3, Raise x)
          | Some (fh3, Ok (header, max_frame)) =>
              Some (fh3,
                    s <- hc_seconds header ;;
                    let ws := if negb (s =? sec0 + 1) then [time_changed]
                              else [] in
                    match max_frame with
                    | Some m => Ok (m + 1, ws)
                    | None => Raise UnboundLocalError
                    end)
          end
      end
  end.

(** The headers a scan meets: [reads_on h fh hs fh'] when, from header [h]
    with the reader in state [fh], skipping the payload and reading the
    next header again and again gives the headers [hs] and leaves the
    reader in state [fh']. *)
Inductive reads_on : H -> file -> list H -> file -> Prop :=
| reads_nil (h : H) (fh : file) : reads_on h fh [] fh
| reads_cons (h h1 : H) (fh fh1 fh' : file) (hs : list H) :
    next_header h fh = (fh1, Ok h1) ->
    reads_on h1 fh1 hs fh' ->
    reads_on h fh (h1 :: hs) fh'.

(** [header['frame_nr']] is [n]. *)
Definition frame_nr_is (h : H) (n : Z) : Prop :=
  exists v, hc_getitem h "frame_nr" = Ok v /\ as_int v = n.

Definition frame_nr_positive (h : H) : Prop :=
  exists n, frame_nr_is h n /\ 0 < n.

End GetFrameRate.

(** *** An example of a header class

    [VLBIHeaderBase.fromfile] for a class with the four-word struct, the
    fields of the legacy VDIF table, a [seconds] property that is the
    ['seconds'] field and frames of [frame_length * 8] bytes. *)
Module ExampleClass.
Import VlbiHelpers VdifHeader.

Definition VLBIHeaderBase_fromfile (nwords : nat) : SE file (list Z) :=
  s <~ fh_read (struct_size nwords) ;;
  if negb (Z.of_nat (length s) =? struct_size nwords) then se_raise EOFError
  else se_lift (struct_unpack nwords s).

Definition getitem_words (ws : list Z) (item : string) : result pyval :=
  p <- od_getitem (parsers (built Legacy_parser)) item ;; p ws.

#[export] Instance example_class : HeaderClass (list Z) := {
  hc_fromfile := VLBIHeaderBase_fromfile 4;
  hc_getitem := getitem_words;
  hc_contains := fun _ k => od_contains (items (built Legacy_parser)) k;
  hc_seconds := fun ws => v <- getitem_words ws "seconds" ;; Ok (as_int v);
  hc_payloadsize :=
    fun ws => v <- getitem_words ws "frame_length" ;; Ok (as_int v * 8 - 16)
}.

(** A frame that is its header alone. *)
Definition bare_frame (seconds frame_nr : Z) : list byte :=
  struct_pack [seconds; frame_nr; 2; 0].

(** One second of four frames and the start of the next one ... *)
Definition four_frames_a_second : file :=
  MkFile (bare_frame 100 0 ++ bare_frame 100 1 ++ bare_frame 100 2
          ++ bare_frame 100 3 ++ bare_frame 101 0) 0.

(** ... and a second whose frames 5 and 3 come in that order. *)
Definition frames_out_of_order : file :=
  MkFile (bare_frame 100 0 ++ bare_frame 100 5 ++ bare_frame 100 3
          ++ bare_frame 101 0) 0.

End ExampleClass.

End FrameRate.

(** ** vlbi_helpers.py: binary-coded decimals *)

Module Bcd.

(** The [while bcd > 0] loop of [bcd_decode], one iteration for one unit of
    [fuel]; [None] when the fuel runs out before the loop ends. *)
Fixpoint bcd_decode_loop (fuel : nat) (bcd res factor : Z)
  : option (result Z) :=
  match fuel with
  | O => None
  | S fuel' =>
      if 0 <? bcd then
        let digit := Z.land bcd 0xf in
        if negb ((0 <=? digit) && (digit <=? 9)) then Some (Raise ValueError)
        else bcd_decode_loop fuel' (Z.shiftr bcd 4)
                             (res + digit * factor) (factor * 10)
      else Some (Ok res)
  end.

(** [bcd_decode(value)] *)
Definition bcd_decode (fuel : nat) (value : Z) : option (result Z) :=
  bcd_decode_loop fuel value 0 1.

(** The [while value > 0] loop of [bcd_encode]; [divmod(value, 10)] is the
    floor division and its remainder. *)
Fixpoint bcd_encode_loop (fuel : nat) (value res factor : Z) : option Z :=
  match fuel with
  | O => None
  | S fuel' =>
      if 0 <? value then
        let digit := value mod 10 in
        let value := value / 10 in
        bcd_encode_loop fuel' value (res + digit * factor) (factor * 16)
      else Some res
  end.

(** [bcd_encode(value)] *)
Definition bcd_encode (fuel : nat) (value : Z) : option Z :=
  bcd_encode_loop fuel value 0 1.

End Bcd.

(** ** Parser tables as they are built *)

Module ParserTables.
Import VlbiHelpers.

(** The tables a program can hold: made by the constructor from a sequence
    of pairs, or by [+] from two tables. *)
Inductive built_table : HeaderParser -> Prop :=
| built_init (args : list (string * field_def)) (hp : HeaderParser) :
    HeaderParser_init args = Ok hp -> built_table hp
| built_add (A B R : HeaderParser) :
    built_table A -> built_table B -> HeaderParser_add A B = Ok R ->
    built_table R.

(** [make_parser] on the first three entries of a definition. *)
Definition parser_of (d : field_def)
  : result (list Z -> result pyval) :=
  make_parser (word_index d) (bit_index d) (bit_length d).

(** The [parsers] dict has, under every key of the table, the parser of
    the definition the table has there, and no other key. *)
Definition parsers_in_step (hp : HeaderParser) : Prop :=
  forall k,
    match od_get (items hp) k with
    | Some d => exists p, parser_of d = Ok p /\ od_get (parsers hp) k = Some p
    | None => od_get (parsers hp) k = None
    end.

(** What a parser built for the definition [d] makes of the word [w] it
    finds at its index. *)
Definition field_read (d : field_def) (w : Z) : result pyval :=
  if bit_length d =? 1 then
    if bit_index d <? 0 then Raise ValueError
    else Ok (VBool (negb (get_field (bit_index d) 1 w =? 0)))
  else if bit_length d =? 32 then Ok (VInt w)
  else if bit_index d <? 0 then Raise ValueError
  else Ok (VInt (get_field (bit_index d) (bit_length d) w)).

(** Writing the field [d] cannot change what is read of the field [d']:
    they are in different words, or their bits do not meet (a field of 32
    bits is read as the whole word). *)
Definition fields_apart (d d' : field_def) : bool :=
  negb (word_index d =? word_index d')%nat
  || (negb (bit_length d' =? 32)
      && ((bit_index d + bit_length d <=? bit_index d')
          || (bit_index d' + bit_length d' <=? bit_index d))).

Definition all_apart (its : odict field_def) : bool :=
  forallb (fun kd =>
             forallb (fun kd' => String.eqb (fst kd) (fst kd')
                                 || fields_apart (snd kd) (snd kd')) its)
          its.

End ParserTables.

(** ** vdif/header.py: the setters of the properties, [same_stream] *)

Module VdifProperties.
Import VlbiHelpers VdifHeader.
Local Open Scope string_scope.
Local Open Scope Z_scope.
Local Open Scope py_scope.

Section Properties.

Variable Mark5BHeader_header_parser : HeaderParser.

(** Reading in the middle of stateful code. *)
Definition reading {A : Type} (f : header -> result A) : SE header A :=
  fun h => (h, f h).

(** [framesize.setter]: [size % 8] and [int(size) // 8] round downwards. *)
Definition set_framesize (fsize : Z) : SE header unit :=
  se_lift (py_assert (fsize mod 8 =? 0)) ;;>
  h_setitem Mark5BHeader_header_parser "frame_length"
            (Some (VInt (fsize / 8))).

(** [payloadsize.setter] *)
Definition set_payloadsize (psize : Z) : SE header unit :=
  fun h => set_framesize (psize + size h) h.

(** [bps.setter], for an int [bps]: [bps /= 2] makes a float of it. *)
Definition set_bps (b : Z) : SE header unit :=
  c <~ reading (fun h => h_getitem Mark5BHeader_header_parser h
                                   "complex_data") ;;
  if truthy c then
    half <~ se_lift (float_half b) ;;
    se_lift (py_assert (is_whole half)) ;;>
    h_setitem Mark5BHeader_header_parser "bits_per_sample"
              (Some (VInt (Qtrunc half - 1)))
  else
    h_setitem Mark5BHeader_header_parser "bits_per_sample"
              (Some (VInt (b - 1))).

(** [samples_per_frame.setter]; [divmod] raises on a zero divisor. *)
Definition set_samples_per_frame (spf : Z) : SE header unit :=
  b <~ reading (bps Mark5BHeader_header_parser) ;;
  values_per_word <~ se_lift (py_floordiv 32 b) ;;
  let values_per_long := values_per_word * 2 in
  n <~ reading (nchan Mark5BHeader_header_parser) ;;
  longs <~ se_lift (py_floordiv (spf * n) values_per_long) ;;
  let extra := (spf * n) mod values_per_long in
  let longs := if extra =? 0 then longs else longs + 1 in
  fun h => h_setitem Mark5BHeader_header_parser "frame_length"
                     (Some (VInt (longs + size h / 8))) h.

(** A station: a string, given by the code points of its characters, or an
    integer. *)
Inductive station_t : Type :=
| StationChars (cs : list Z)
| StationId (z : Z).

(** [station] (getter): two characters when the high byte is from 48 to
    127. *)
Definition station (h : header) : result station_t :=
  v <- h_getitem Mark5BHeader_header_parser h "station_id" ;;
  let msb := Z.shiftr (as_int v) 8 in
  if (48 <=? msb) && (msb <? 128) then
    Ok (StationChars [msb; Z.land (as_int v) 0xff])
  else Ok (StationId (as_int v)).

(** [station.setter]: indexing an integer raises the [TypeError] that is
    caught; a string too short raises [IndexError], which is not. *)
Definition set_station (s : station_t) : SE header unit :=
  match s with
  | StationChars cs =>
      c0 <~ se_lift (getitem cs 0) ;;
      c1 <~ se_lift (getitem cs 1) ;;
      h_setitem Mark5BHeader_header_parser "station_id"
                (Some (VInt (Z.shiftl c0 8 + c1)))
  | StationId z =>
      h_setitem Mark5BHeader_header_parser "station_id" (Some (VInt z))
  end.

(** [a == b] of two [edv] attributes: [False == 0]. *)
Definition edv_eq (a b : edv_t) : bool :=
  match a, b with
  | EdvNone, EdvNone => true
  | EdvNone, _ | _, EdvNone => false
  | EdvFalse, EdvFalse => true
  | EdvFalse, EdvInt n | EdvInt n, EdvFalse => n =? 0
  | EdvInt n, EdvInt m => n =? m
  end.

(** [all(self[key] == other[key] for key in keys)]: stops at the first
    difference. *)
Fixpoint all_keys_equal (keys : list string) (self other : header)
  : result bool :=
  match keys with
  | [] => Ok true
  | key :: keys' =>
      a <- h_getitem Mark5BHeader_header_parser self key ;;
      b <- h_getitem Mark5BHeader_header_parser other key ;;
      if pyval_eqb a b then all_keys_equal keys' self other else Ok false
  end.

(** [VDIFHeader.same_stream] *)
Definition same_stream_base (self other : header) : result bool :=
  if edv_eq (edv self) (edv other) then
    all_keys_equal ["ref_epoch"; "vdif_version"; "frame_length";
                    "complex_data"; "bits_per_sample"; "station_id"]
                   self other
  else Ok false.

(** [VDIFSampleRateHeader.same_stream] for the classes that have it. *)
Definition same_stream (self other : header) : result bool :=
  if has_framerate (cls self) then
    b <- same_stream_base self other ;;
    if b then
      s4 <- getitem (words self) 4 ;;
      o4 <- getitem (words other) 4 ;;
      if s4 =? o4 then
        s5 <- getitem (words self) 5 ;;
        o5 <- getitem (words other) 5 ;;
        Ok (s5 =? o5)
      else Ok false
    else Ok false
  else same_stream_base self other.

End Properties.

End VdifProperties.
(** ** vlbi_helpers.py: writing a header *)

Module HeaderOutput.

Import VlbiHelpers VdifHeader.

(** [fh.write(s)]: the bytes replace those at the current position and
    lengthen the file where it ends before them; a gap after the end is
    filled with zeros. *)
Definition fh_write (s : list byte) : SE file unit := fun fh =>
  let p := Z.to_nat (pos fh) in
  let before := firstn p (content fh) ++ repeat x00 (p - length (content fh)) in
  (MkFile (before ++ s ++ skipn (p + length s) (content fh))
          (pos fh + Z.of_nat (length s)),
   Ok tt).

(** [pack] of [struct.Struct('<nI')]: as many words as the format has,
    each one of 32 bits, or [struct.error]. *)
Definition word_fits (w : Z) : bool := (0 <=? w) && (w <? 2 ^ 32).

Definition struct_pack_checked (nwords : nat) (ws : list Z)
  : result (list byte) :=
  if (length ws =? nwords)%nat && forallb word_fits ws
  then Ok (struct_pack ws)
  else Raise StructError.

(** [VLBIHeaderBase.tobytes] *)
Definition tobytes (h : header) : result (list byte) :=
  struct_pack_checked (struct_words (cls h)) (words h).

(** [VLBIHeaderBase.tofile] *)
Definition tofile (h : header) : SE file unit :=
  s <~ se_lift (tobytes h) ;;
  fh_write s.

End HeaderOutput.
(** ** header.py, vlbi_helpers.py: [fromkeys] *)

Module FromKeys.

Import VlbiHelpers VdifHeader.

(** [kwargs.pop(key)] on the keyword arguments, a dict: the value and the
    dict without the key, or [KeyError]. *)
Fixpoint od_remove {V : Type} (d : odict V) (k : string) : odict V :=
  match d with
  | [] => []
  | (k', v) :: d' =>
      if String.eqb k k' then d' else (k', v) :: od_remove d' k
  end.

Definition od_pop {V : Type} (d : odict V) (k : string)
  : result (V * odict V) :=
  match od_get d k with
  | Some v => Ok (v, od_remove d k)
  | None => Raise KeyError
  end.

(** The [edv] that a keyword value stands for: [True == 1] as a key of
    [vdif_header_classes] and in every comparison. *)
Definition edv_of_value (v : pyval) : edv_t :=
  match v with
  | VBool false => EdvFalse
  | VBool true => EdvInt 1
  | VInt n => EdvInt n
  end.

Section FromKeys.

Variable Mark5BHeader_header_parser : HeaderParser.
Variable Mark5B_time_agrees : list Z -> result unit.

(** The keyword arguments that a header passed with two stars gives:
    [header[key]] for every key of [header.keys()]. *)
Fixpoint items_of (h : header) (keys : list string)
  : result (odict pyval) :=
  match keys with
  | [] => Ok []
  | key :: keys' =>
      v <- h_getitem Mark5BHeader_header_parser h key ;;
      r <- items_of h keys' ;;
      Ok ((key, v) :: r)
  end.

Definition header_items (h : header) : result (odict pyval) :=
  items_of h (h_keys Mark5BHeader_header_parser h).

(** The loop of [VLBIHeaderBase.fromkeys]:
    [self.words = self._header_parser.setters[key](self.words,
    kwargs.pop(key))] for every key. *)
Fixpoint set_keys (hp : HeaderParser) (keys : list string) (ws : list Z)
  (kwargs : odict pyval) : result (list Z * odict pyval) :=
  match keys with
  | [] => Ok (ws, kwargs)
  | key :: keys' =>
      s <- setters hp key ;;
      vk <- od_pop kwargs key ;;
      ws' <- s ws (Some (fst vk)) ;;
      set_keys hp keys' ws' (snd vk)
  end.

(** [VDIFHeader.fromkeys] with keyword values that are integers or
    booleans: the header, and whether the warning of unused keywords was
    given.  The empty header is [cls(None, edv, verify=False)], where
    [__new__] does not look at the words since [edv] is not [None], and
    [__init__] puts zeros. *)
Definition fromkeys (kwargs : odict pyval) : result (header * bool) :=
  l <- od_getitem kwargs "legacy_mode" ;;
  e <- (if truthy l then Ok EdvFalse
        else v <- od_getitem kwargs "edv" ;; Ok (edv_of_value v)) ;;
  let c := class_of_edv e in
  self <- VDIFHeader_init Mark5BHeader_header_parser Mark5B_time_agrees
            c e (repeat 0 (struct_words c)) e false ;;
  r <- set_keys (header_parser Mark5BHeader_header_parser c)
         (h_keys Mark5BHeader_header_parser self) (words self) kwargs ;;
  let self := set_words (fst r) self in
  verify Mark5BHeader_header_parser Mark5B_time_agrees self ;;;
  Ok (self, match snd r with [] => false | _ => true end).

End FromKeys.

(** What is said of [fromkeys]. A field that a header of [nwords] words can
    hold: its word is there, its bits are counted from 0, and a field of
    32 bits starts at bit 0. *)
Definition field_fits (nwords : nat) (d : field_def) : bool :=
  (word_index d <? nwords)%nat && (0 <=? bit_index d)
  && (0 <=? bit_length d)
  && implb (bit_length d =? 32) (bit_index d =? 0).

Definition table_fits (nwords : nat) (hp : HeaderParser) : bool :=
  forallb (fun kd => field_fits nwords (snd kd)) (items hp).

(** The integer that the field [d] holds in the word [w]. *)
Definition stored (d : field_def) (w : Z) : Z :=
  if bit_length d =? 32 then w
  else get_field (bit_index d) (bit_length d) w.

(** Bit [n] of word [j] belongs to the field [d], to the field of one of
    the keys. *)
Definition covers (d : field_def) (j : nat) (n : Z) : bool :=
  (word_index d =? j)%nat && (bit_index d <=? n)
  && (n <? bit_index d + bit_length d).

Definition covered (hp : HeaderParser) (keys : list string) (j : nat)
  (n : Z) : bool :=
  existsb (fun k => match od_get (items hp) k with
                    | Some d => covers d j n
                    | None => false
                    end) keys.

(** The fields of the table cover the 32 bits of each of the [nwords]
    words. *)
Definition all_covered (hp : HeaderParser) (nwords : nat) : bool :=
  forallb (fun j =>
             forallb (fun n => covered hp (od_keys (items hp)) j
                                       (Z.of_nat n))
                     (seq 0 32))
          (seq 0 nwords).

End FromKeys.
(** ** mark4/payload.py: the two branches of the track reordering *)

Module HostOrder.

Import Np.

(** The word that a big-endian host reads from the [nbytes] bytes that
    hold [x] on a little-endian host, and the other way round: the bytes
    in reverse order. *)
Definition byteswap (nbytes : nat) (x : Z) : Z :=
  word_of_bytes
    (rev (map (fun i => Z.land (Z.shiftr x (8 * Z.of_nat i)) 255)
              (seq 0 nbytes))).

(** Where bit [n] of the swapped word comes from. *)
Definition swapped_position (nbytes : nat) (n : Z) : Z :=
  8 * (Z.of_nat nbytes - 1 - n / 8) + n mod 8.

End HostOrder.
(** ** vdif/frame.py: the order of the frames of a set *)

Module FrameOrder.

(** Frames with their sort keys: one is not after the other. *)
Definition key_le {A : Type} (a b : Z * A) : Prop := fst a <= fst b.

End FrameOrder.

(** * Properties *)

(** ** Bit fields: [make_setter] and [make_parser] *)

Import VlbiHelpers.

Lemma mask_is_ones (bl : Z) : 0 <= bl -> Z.shiftl 1 bl - 1 = Z.ones bl.
Proof.
  intros _. rewrite Z.shiftl_1_l, Z.ones_equiv. apply Z.sub_1_r.
Qed.

Lemma fitting_high_bits (v bl : Z) :
  0 <= bl -> Z.land v (Z.ones bl) = v ->
  forall j, bl <= j -> Z.testbit v j = false.
Proof.
  intros Hbl Hfit j Hj. rewrite <- Hfit, Z.land_spec, Z.testbit_ones by lia.
  replace (j <? bl) with false by (symmetry; apply Z.ltb_ge; lia).
  now rewrite andb_false_r, andb_false_r.
Qed.

Lemma word32_high_bits (w : Z) :
  word32 w -> forall j, 32 <= j -> Z.testbit w j = false.
Proof.
  intros [Hlo Hhi] j Hj.
  apply fitting_high_bits with (bl := 32); try lia.
  rewrite Z.land_ones by lia. apply Z.mod_small. lia.
Qed.

Section StoredWord.

Variables w v bi bl : Z.
Hypothesis Hbi : 0 <= bi.
Hypothesis Hbl : 0 <= bl.
Hypothesis Hfit : Z.land v (Z.ones bl) = v.

(** The word the setter writes back agrees with the old one outside the
    field ... *)
Lemma stored_outside (i : Z) :
  i < bi \/ bi + bl <= i ->
  Z.testbit (Z.lor (Z.lxor (Z.lor w (Z.shiftl (Z.ones bl) bi))
                           (Z.shiftl (Z.ones bl) bi))
                   (Z.shiftl v bi)) i
  = Z.testbit w i.
Proof.
  intros Hi. destruct (Z.neg_nonneg_cases i) as [Hneg | Hpos].
  - now rewrite !Z.testbit_neg_r.
  - rewrite Z.lor_spec, Z.lxor_spec, Z.lor_spec, !Z.shiftl_spec by lia.
    destruct Hi as [Hi | Hi].
    + rewrite !(Z.testbit_neg_r _ (i - bi)) by lia.
      now rewrite orb_false_r, xorb_false_r, orb_false_r.
    + rewrite Z.testbit_ones by lia.
      replace (i - bi <? bl) with false by (symmetry; apply Z.ltb_ge; lia).
      rewrite (fitting_high_bits v bl Hbl Hfit) by lia.
      now rewrite andb_false_r, orb_false_r, xorb_false_r, orb_false_r.
Qed.

(** ... and carries [v] in the field. *)
Lemma stored_field :
  Z.land (Z.shiftr (Z.lor (Z.lxor (Z.lor w (Z.shiftl (Z.ones bl) bi))
                                  (Z.shiftl (Z.ones bl) bi))
                          (Z.shiftl v bi)) bi)
         (Z.ones bl)
  = v.
Proof.
  apply Z.bits_inj'. intros n Hn.
  rewrite Z.land_spec, Z.shiftr_spec, Z.lor_spec, Z.lxor_spec, Z.lor_spec,
    !Z.shiftl_spec by lia.
  replace (n + bi - bi) with n by lia.
  rewrite Z.testbit_ones_nonneg by lia.
  destruct (Z.ltb_spec n bl) as [Hlt | Hge].
  - rewrite orb_true_r. simpl. now rewrite andb_true_r.
  - rewrite andb_false_r. symmetry.
    apply (fitting_high_bits v bl Hbl Hfit). lia.
Qed.

End StoredWord.

Lemma getitem_in_range {A : Type} (ws : list A) (wi : nat) (d : A) :
  (wi < length ws)%nat -> getitem ws wi = Ok (nth wi ws d).
Proof.
  intros Hwi. unfold getitem.
  rewrite (nth_error_nth' ws d Hwi). reflexivity.
Qed.

(** What the setter returns when the value fits. *)
Lemma make_setter_fits (wi : nat) (bi bl : Z) (d : option pyval)
  (ws : list Z) (v : Z) :
  (wi < length ws)%nat -> 0 <= bi -> 0 <= bl ->
  Z.land v (Z.shiftl 1 bl - 1) = v ->
  make_setter wi bi bl d ws (Some (VInt v))
  = Ok (firstn wi ws
        ++ [Z.lor (Z.lxor (Z.lor (nth wi ws 0) (Z.shiftl (Z.ones bl) bi))
                          (Z.shiftl (Z.ones bl) bi))
                  (Z.shiftl v bi)]
        ++ skipn (wi + 1) ws).
Proof.
  intros Hwi Hbi Hbl Hfit. unfold make_setter.
  replace (match d with Some _ | _ => Some (VInt v) end)
    with (Some (VInt v)) by now destruct d.
  simpl py_int. cbn [bind].
  rewrite (getitem_in_range ws wi 0 Hwi). cbn [bind].
  unfold py_lshift.
  replace (bl <? 0) with false by (symmetry; apply Z.ltb_ge; lia).
  replace (bi <? 0) with false by (symmetry; apply Z.ltb_ge; lia).
  cbn [bind]. rewrite Hfit, Z.eqb_refl. cbn [negb bind].
  now rewrite (mask_is_ones bl Hbl).
Qed.

Lemma replaced_length {A : Type} (ws : list A) (wi : nat) (x : A) :
  (wi < length ws)%nat ->
  length (firstn wi ws ++ [x] ++ skipn (wi + 1) ws) = length ws.
Proof.
  intros Hwi. rewrite !length_app, length_firstn, length_skipn. simpl. lia.
Qed.

Lemma replaced_nth {A : Type} (ws : list A) (wi : nat) (x d : A) :
  (wi < length ws)%nat ->
  nth wi (firstn wi ws ++ [x] ++ skipn (wi + 1) ws) d = x.
Proof.
  intros Hwi. rewrite app_nth2; rewrite length_firstn; try lia.
  replace (wi - Nat.min wi (length ws))%nat with 0%nat by lia. reflexivity.
Qed.

Lemma replaced_other {A : Type} (ws : list A) (wi j : nat) (x : A) :
  (wi < length ws)%nat -> j <> wi ->
  nth_error (firstn wi ws ++ [x] ++ skipn (wi + 1) ws) j = nth_error ws j.
Proof.
  intros Hwi Hj.
  destruct (Nat.lt_ge_cases j wi) as [Hlt | Hge].
  - rewrite nth_error_app1 by (rewrite length_firstn; lia).
    now rewrite nth_error_firstn, (proj2 (Nat.ltb_lt j wi) Hlt).
  - rewrite nth_error_app2 by (rewrite length_firstn; lia).
    rewrite length_firstn.
    replace (j - Nat.min wi (length ws))%nat with (S (j - wi - 1)) by lia.
    simpl. rewrite nth_error_skipn. f_equal. lia.
Qed.

(** C2.  For a field [(word_index, lsb, width)] whose parser was built, a
    tuple of 32-bit words that has the word of the field, and a value [v]
    with [v & ((1 << width) - 1) == v]: the setter returns a tuple of the
    same length that has the same words elsewhere and, in the word of the
    field, the same bits outside the field; the parser applied to it
    returns [v] (as a boolean when the width is 1). *)
Theorem setter_isolates_and_parser_reads_back
  (wi : nat) (bi bl : Z) (d : option pyval) (ws : list Z) (v : Z)
  (p : list Z -> result pyval) :
  (wi < length ws)%nat ->
  0 <= bi ->
  make_parser wi bi bl = Ok p ->
  Forall word32 ws ->
  Z.land v (Z.shiftl 1 bl - 1) = v ->
  exists ws',
    make_setter wi bi bl d ws (Some (VInt v)) = Ok ws' /\
    length ws' = length ws /\
    (forall j, j <> wi -> nth_error ws' j = nth_error ws j) /\
    (forall i, i < bi \/ bi + bl <= i ->
               Z.testbit (nth wi ws' 0) i = Z.testbit (nth wi ws 0) i) /\
    p ws' = Ok (as_field_value bl v).
Proof.
  intros Hwi Hbi Hp Hws Hfit.
  assert (Hbl : 0 <= bl).
  { unfold make_parser in Hp.
    destruct (Z.eqb_spec bl 1); [lia|].
    destruct (Z.eqb_spec bl 32); [lia|].
    unfold py_lshift in Hp. destruct (Z.ltb_spec bl 0); [discriminate | lia]. }
  assert (Hfit' : Z.land v (Z.ones bl) = v) by now rewrite <- mask_is_ones.
  eexists. split; [apply make_setter_fits; assumption|].
  split; [apply replaced_length; assumption|].
  split; [intros j Hj; apply replaced_other; assumption|].
  rewrite replaced_nth by assumption.
  split; [intros i Hi; apply stored_outside; assumption|].
  pose proof (stored_field (nth wi ws 0) v bi bl Hbi Hbl Hfit') as Hfield.
  assert (Hget : forall x, getitem (firstn wi ws ++ [x] ++ skipn (wi + 1) ws) wi
                           = Ok x).
  { intros x. rewrite (getitem_in_range _ wi 0)
      by (rewrite replaced_length; assumption).
    now rewrite replaced_nth. }
  assert (Hshr : py_rshift
                   (Z.lor (Z.lxor (Z.lor (nth wi ws 0)
                                         (Z.shiftl (Z.ones bl) bi))
                                  (Z.shiftl (Z.ones bl) bi))
                          (Z.shiftl v bi)) bi
                 = Ok (Z.shiftr
                         (Z.lor (Z.lxor (Z.lor (nth wi ws 0)
                                               (Z.shiftl (Z.ones bl) bi))
                                        (Z.shiftl (Z.ones bl) bi))
                                (Z.shiftl v bi)) bi)).
  { unfold py_rshift.
    now replace (bi <? 0) with false by (symmetry; apply Z.ltb_ge; lia). }
  unfold make_parser in Hp. unfold as_field_value.
  destruct (Z.eqb_spec bl 1) as [H1 | H1].
  - (* one bit: a boolean *)
    injection Hp as <-. rewrite Hget. cbn [bind]. rewrite Hshr. cbn [bind].
    subst bl. change (Z.ones 1) with 1 in *. now rewrite Hfield.
  - destruct (Z.eqb_spec bl 32) as [H32 | H32].
    + (* a whole word *)
      destruct (Z.eqb_spec bi 0) as [H0 | H0]; [|discriminate].
      cbn in Hp. injection Hp as <-. rewrite Hget. cbn [bind].
      do 2 f_equal. subst bl bi. rewrite <- Hfield at 2.
      rewrite Z.shiftr_0_r. apply Z.bits_inj'. intros n Hn.
      rewrite Z.land_spec, Z.testbit_ones_nonneg by lia.
      destruct (Z.ltb_spec n 32) as [Hlt | Hge];
        [now rewrite andb_true_r|].
      rewrite andb_false_r, stored_outside by (assumption || lia).
      apply word32_high_bits; [|assumption].
      rewrite Forall_forall in Hws. apply Hws, nth_In, Hwi.
    + unfold py_lshift in Hp.
      replace (bl <? 0) with false in Hp by (symmetry; apply Z.ltb_ge; lia).
      cbn [bind] in Hp. rewrite (mask_is_ones bl Hbl) in Hp.
      destruct (Z.eqb_spec bi 0) as [H0 | H0].
      * injection Hp as <-. rewrite Hget. cbn [bind]. do 2 f_equal.
        subst bi. now rewrite Z.shiftr_0_r in Hfield.
      * injection Hp as <-. rewrite Hget. cbn [bind]. rewrite Hshr.
        cbn [bind]. now rewrite Hfield.
Qed.

(** The ['ref_epoch'] field, [(1, 24, 6)], of a zeroed legacy header. *)
Lemma setter_isolates_and_parser_reads_back_witness :
  exists ws',
    make_setter 1 24 6 None [0; 0; 0; 0] (Some (VInt 33)) = Ok ws' /\
    length ws' = 4%nat /\
    (forall j, j <> 1%nat -> nth_error ws' j = nth_error [0; 0; 0; 0] j) /\
    (forall i, i < 24 \/ 24 + 6 <= i ->
               Z.testbit (nth 1 ws' 0) i = Z.testbit 0 i) /\
    (fun words => w <- getitem words 1 ;; s <- py_rshift w 24 ;;
                  Ok (VInt (Z.land s (2 ^ 6 - 1)))) ws' = Ok (VInt 33).
Proof.
  refine (setter_isolates_and_parser_reads_back
            1 24 6 None [0; 0; 0; 0] 33 _ _ _ eq_refl _ eq_refl).
  - simpl. lia.
  - lia.
  - repeat constructor; unfold word32; lia.
Defined.

(** C3.  A value that fits the width of the field is written; one with a
    bit outside the mask raises [ValueError] (the spec's FieldOverflow),
    and the setter returns no word vector at all. *)
Theorem setter_width_fit
  (wi : nat) (bi bl : Z) (d : option pyval) (ws : list Z) (v : Z) :
  (wi < length ws)%nat ->
  0 <= bi ->
  0 <= bl ->
  (Z.land v (Z.shiftl 1 bl - 1) = v ->
   exists ws', make_setter wi bi bl d ws (Some (VInt v)) = Ok ws') /\
  (Z.land v (Z.shiftl 1 bl - 1) <> v ->
   make_setter wi bi bl d ws (Some (VInt v)) = Raise ValueError).
Proof.
  intros Hwi Hbi Hbl. split; intros Hfit.
  - eexists. apply make_setter_fits; assumption.
  - unfold make_setter.
    replace (match d with Some _ | _ => Some (VInt v) end)
      with (Some (VInt v)) by now destruct d.
    simpl py_int. cbn [bind].
    rewrite (getitem_in_range ws wi 0 Hwi). cbn [bind].
    unfold py_lshift.
    replace (bl <? 0) with false by (symmetry; apply Z.ltb_ge; lia).
    cbn [bind].
    now replace (Z.land v (Z.shiftl 1 bl - 1) =? v) with false
      by (symmetry; apply Z.eqb_neq; assumption).
Qed.

(** The 6-bit ['ref_epoch'] field takes 63 and refuses 64. *)
Lemma setter_width_fit_witness :
  (Z.land 63 (Z.shiftl 1 6 - 1) = 63 ->
   exists ws', make_setter 1 24 6 None [0; 0; 0; 0] (Some (VInt 63)) = Ok ws')
  /\ (Z.land 64 (Z.shiftl 1 6 - 1) <> 64 ->
      make_setter 1 24 6 None [0; 0; 0; 0] (Some (VInt 64))
      = Raise ValueError).
Proof.
  split.
  - apply (setter_width_fit 1 24 6 None [0; 0; 0; 0] 63); simpl; lia.
  - apply (setter_width_fit 1 24 6 None [0; 0; 0; 0] 64); simpl; lia.
Defined.

(** ** Track reordering *)

Import Np Mark4Payload.

Lemma uint_bit (w a n : Z) :
  0 <= w -> 0 <= n ->
  Z.testbit (a mod 2 ^ w) n = (n <? w) && Z.testbit a n.
Proof.
  intros Hw Hn. destruct (Z.ltb_spec n w).
  - now rewrite Z.mod_pow2_bits_low.
  - now rewrite Z.mod_pow2_bits_high.
Qed.

Lemma moved_bits_ext (keep down up s w : Z) (f g : Z -> bool) (n : Z) :
  (forall k, f k = g k) ->
  moved_bits keep down up s w f n = moved_bits keep down up s w g n.
Proof.
  intros Hfg. unfold moved_bits. now rewrite !Hfg.
Qed.

Lemma reorder64_bit (x n : Z) :
  Z.testbit (reorder64 x) n
  = moved_bits 0xAA55AA55AA55AA55 0x5500550055005500 0x00AA00AA00AA00AA
               7 64 (Z.testbit x) n.
Proof.
  unfold moved_bits. destruct (Z.leb_spec 0 n) as [Hn | Hn].
  - unfold reorder64, uint64.
    rewrite !Z.lor_spec, uint_bit, Z.shiftr_spec, Z.shiftl_spec by lia.
    now rewrite !Z.land_spec.
  - now rewrite Z.testbit_neg_r.
Qed.

Lemma reorder32_bit (x n : Z) :
  Z.testbit (reorder32 x) n
  = moved_bits 0xAA55AA55 0x55005500 0x00AA00AA 7 32 (Z.testbit x) n.
Proof.
  unfold moved_bits. destruct (Z.leb_spec 0 n) as [Hn | Hn].
  - unfold reorder32, uint32.
    rewrite !Z.lor_spec, uint_bit, Z.shiftr_spec, Z.shiftl_spec by lia.
    now rewrite !Z.land_spec.
  - now rewrite Z.testbit_neg_r.
Qed.

(** A property of the bit positions below [k] is checked position by
    position. *)
Lemma each_position (k : nat) (P : Z -> Prop) :
  (forall i : nat, (i < k)%nat -> P (Z.of_nat i)) ->
  forall n, 0 <= n < Z.of_nat k -> P n.
Proof.
  intros HP n Hn. rewrite <- (Z2Nat.id n) by lia. apply HP. lia.
Qed.

Ltac settle_bits f :=
  cbv;
  repeat match goal with
         | |- context [f ?k] => destruct (f k)
         end;
  reflexivity.

Lemma moved_twice_64 (f : Z -> bool) (n : Z) :
  0 <= n < 64 ->
  moved_bits 0xAA55AA55AA55AA55 0x5500550055005500 0x00AA00AA00AA00AA 7 64
    (moved_bits 0xAA55AA55AA55AA55 0x5500550055005500 0x00AA00AA00AA00AA
                7 64 f) n
  = f n.
Proof.
  revert n. apply (each_position 64). intros i Hi.
  do 64 (destruct i as [|i]; [settle_bits f|]). lia.
Qed.

Lemma moved_twice_32 (f : Z -> bool) (n : Z) :
  0 <= n < 32 ->
  moved_bits 0xAA55AA55 0x55005500 0x00AA00AA 7 32
    (moved_bits 0xAA55AA55 0x55005500 0x00AA00AA 7 32 f) n
  = f n.
Proof.
  revert n. apply (each_position 32). intros i Hi.
  do 32 (destruct i as [|i]; [settle_bits f|]). lia.
Qed.

Lemma mask_high_bit (m w n : Z) :
  0 <= w -> 0 <= m < 2 ^ w -> w <= n -> Z.testbit m n = false.
Proof.
  intros Hw Hm Hn. rewrite <- (Z.mod_small m (2 ^ w)) by lia.
  apply Z.mod_pow2_bits_high. lia.
Qed.

Lemma moved_bits_high (keep down up s w : Z) (f : Z -> bool) (n : Z) :
  0 <= w -> 0 <= s -> 0 <= keep < 2 ^ w -> 0 <= down < 2 ^ w -> w <= n ->
  moved_bits keep down up s w f n = false.
Proof.
  intros Hw Hs Hk Hd Hn. unfold moved_bits.
  rewrite (mask_high_bit keep w n), (mask_high_bit down w (n + s)) by lia.
  replace (n <? w) with false by (symmetry; apply Z.ltb_ge; lia).
  now rewrite !andb_false_r.
Qed.

Lemma reorder64_twice (x : Z) :
  0 <= x < 2 ^ 64 -> reorder64 (reorder64 x) = x.
Proof.
  intros Hx. apply Z.bits_inj'. intros n Hn.
  rewrite reorder64_bit.
  rewrite (moved_bits_ext _ _ _ _ _ _ _ _ (reorder64_bit x)).
  destruct (Z.lt_ge_cases n 64) as [Hlt | Hge].
  - apply moved_twice_64. lia.
  - rewrite moved_bits_high by lia.
    symmetry. apply (mask_high_bit x 64); lia.
Qed.

Lemma reorder32_twice (x : Z) :
  0 <= x < 2 ^ 32 -> reorder32 (reorder32 x) = x.
Proof.
  intros Hx. apply Z.bits_inj'. intros n Hn.
  rewrite reorder32_bit.
  rewrite (moved_bits_ext _ _ _ _ _ _ _ _ (reorder32_bit x)).
  destruct (Z.lt_ge_cases n 32) as [Hlt | Hge].
  - apply moved_twice_32. lia.
  - rewrite moved_bits_high by lia.
    symmetry. apply (mask_high_bit x 32); lia.
Qed.

(** C10.  Both little-endian reorderings are involutions on the words of
    their width: the bits that the masks shift by 7 swap places. *)
Theorem reorder_involutive :
  (forall x, 0 <= x < 2 ^ 64 -> reorder64 (reorder64 x) = x) /\
  (forall x, 0 <= x < 2 ^ 32 -> reorder32 (reorder32 x) = x).
Proof.
  split; [exact reorder64_twice | exact reorder32_twice].
Qed.

Lemma reorder_involutive_witness :
  reorder64 (reorder64 738811025863578102) = 738811025863578102 /\
  reorder32 (reorder32 0xF435D176) = 0xF435D176.
Proof.
  split.
  - apply (proj1 reorder_involutive). lia.
  - apply (proj2 reorder_involutive). lia.
Defined.

(** C7, as the spec writes it in hexadecimal, does not hold:
    [0x0A40D994F435D176] is the result of the check recorded in the source,
    not its argument. *)
Lemma reorder64_spot_check_hex_fails :
  reorder64 0x0A40D994F435D176 <> 0x0A40D99894F435B6.
Proof.
  vm_compute. discriminate.
Qed.

(** C7, amended: the check of the source, in decimal and in hexadecimal. *)
Theorem reorder64_spot_check :
  reorder64 738811025863578102 = 738829572664316278 /\
  reorder64 0x0A40C8B6B0BD91F6 = 0x0A40D994F435D176.
Proof.
  split; vm_compute; reflexivity.
Qed.

(** The decoded samples recorded next to that check in the source
    ([.astype(int)] truncates). *)
Example decode_spot_check :
  map (map Qtrunc) (decode_8chan_2bit_fanout4 [738811025863578102])
  = [[-1; 1; 1; -3; -3; -3; 1; -1];
     [1; 1; -3; 1; 1; -3; -1; -1];
     [3; 3; 1; 3; 1; -3; 1; -3];
     [1; -3; 3; 3; -1; 1; 3; -3]].
Proof.
  vm_compute. reflexivity.
Qed.

(** ** Parser tables *)

Lemma filter_twice {A : Type} (f g : A -> bool) (l : list A) :
  filter f (filter g l) = filter (fun x => g x && f x) l.
Proof.
  induction l as [|x l IH]; simpl; [reflexivity|].
  destruct (g x); simpl; [destruct (f x)|]; now rewrite IH.
Qed.

Section OrderedDict.

Variable V : Type.
Implicit Types (d o a b c : odict V) (k : string) (v : V).

Lemma od_get_setitem d k v k' :
  od_get (od_setitem d k v) k'
  = if String.eqb k' k then Some v else od_get d k'.
Proof.
  induction d as [|[k0 v0] d IH]; simpl.
  - reflexivity.
  - destruct (String.eqb_spec k k0) as [-> | Hne]; simpl.
    + now destruct (String.eqb_spec k' k0).
    + destruct (String.eqb_spec k' k0) as [-> | Hne'].
      * destruct (String.eqb_spec k0 k); [congruence | reflexivity].
      * apply IH.
Qed.

Lemma od_get_none d k : ~ In k (od_keys d) -> od_get d k = None.
Proof.
  induction d as [|[k0 v0] d IH]; simpl; intros Hk.
  - reflexivity.
  - destruct (String.eqb_spec k k0) as [-> | Hne]; [tauto|].
    apply IH. tauto.
Qed.

Lemma od_get_some_in d k v : od_get d k = Some v -> In k (od_keys d).
Proof.
  induction d as [|[k0 v0] d IH]; simpl; [discriminate|].
  destruct (String.eqb_spec k k0) as [-> | Hne]; [now left|].
  intros Hg. right. now apply IH.
Qed.

Lemma od_contains_in d k : od_contains d k = true <-> In k (od_keys d).
Proof.
  unfold od_contains. split.
  - destruct (od_get d k) eqn:Hg; [|discriminate].
    intros _. eapply od_get_some_in, Hg.
  - intros Hin. destruct (od_get d k) eqn:Hg; [reflexivity|].
    exfalso. revert Hin Hg. clear.
    induction d as [|[k0 v0] d IH]; simpl; [tauto|].
    destruct (String.eqb_spec k k0) as [-> | Hne]; [discriminate|].
    intros [Heq | Hin]; [congruence | now apply IH].
Qed.

Lemma od_keys_setitem d k v :
  od_keys (od_setitem d k v)
  = if od_contains d k then od_keys d else od_keys d ++ [k].
Proof.
  unfold od_contains.
  induction d as [|[k0 v0] d IH]; simpl.
  - reflexivity.
  - destruct (String.eqb_spec k k0) as [-> | Hne]; simpl; [reflexivity|].
    rewrite IH. now destruct (od_get d k).
Qed.

Lemma od_contains_setitem d k v k' :
  od_contains (od_setitem d k v) k' = String.eqb k' k || od_contains d k'.
Proof.
  unfold od_contains. rewrite od_get_setitem.
  now destruct (String.eqb k' k).
Qed.

Lemma od_setitem_nodup d k v :
  NoDup (od_keys d) -> NoDup (od_keys (od_setitem d k v)).
Proof.
  intros Hd. rewrite od_keys_setitem.
  destruct (od_contains d k) eqn:Hc; [assumption|].
  apply NoDup_app; [assumption | repeat constructor; simpl; tauto |].
  intros x Hx [<- | []].
  apply od_contains_in in Hx. congruence.
Qed.

Lemma od_update_nodup o d :
  NoDup (od_keys d) -> NoDup (od_keys (od_update d o)).
Proof.
  unfold od_update. revert d.
  induction o as [|[k v] o IH]; simpl; intros d Hd; [assumption|].
  apply IH, od_setitem_nodup, Hd.
Qed.

(** Reading the merged dict: the right operand first. *)
Lemma od_get_update o d k :
  NoDup (od_keys o) ->
  od_get (od_update d o) k
  = match od_get o k with Some v => Some v | None => od_get d k end.
Proof.
  unfold od_update. revert d.
  induction o as [|[k0 v0] o IH]; simpl; intros d Ho; [reflexivity|].
  inversion Ho as [|? ? Hnotin Ho']; subst.
  rewrite IH by assumption. rewrite od_get_setitem.
  destruct (String.eqb_spec k k0) as [-> | Hne].
  - now rewrite (od_get_none o k0 Hnotin).
  - reflexivity.
Qed.

(** The keys of the merged dict: those of the left operand in their
    places, then the new ones of the right operand in theirs. *)
Lemma od_keys_update o d :
  NoDup (od_keys o) ->
  od_keys (od_update d o)
  = od_keys d ++ filter (fun k => negb (od_contains d k)) (od_keys o).
Proof.
  unfold od_update. revert d.
  induction o as [|[k0 v0] o IH]; simpl; intros d Ho.
  - now rewrite app_nil_r.
  - inversion Ho as [|? ? Hnotin Ho']; subst.
    rewrite IH by assumption. rewrite od_keys_setitem.
    assert (Hfilter :
              filter (fun k => negb (od_contains (od_setitem d k0 v0) k))
                     (od_keys o)
              = filter (fun k => negb (od_contains d k)) (od_keys o)).
    { apply filter_ext_in. intros k Hk. rewrite od_contains_setitem.
      destruct (String.eqb_spec k k0) as [-> | Hne]; [tauto | reflexivity]. }
    rewrite Hfilter.
    destruct (od_contains d k0); simpl; [reflexivity|].
    now rewrite <- app_assoc.
Qed.

Lemma od_contains_update o d k :
  NoDup (od_keys o) ->
  od_contains (od_update d o) k = od_contains d k || od_contains o k.
Proof.
  intros Ho. unfold od_contains. rewrite od_get_update by assumption.
  destruct (od_get o k), (od_get d k); reflexivity.
Qed.

(** Two dicts with the same keys in the same order and the same value at
    every key are the same. *)
Lemma od_ext d o :
  NoDup (od_keys d) ->
  od_keys d = od_keys o ->
  (forall k, od_get d k = od_get o k) ->
  d = o.
Proof.
  revert o. induction d as [|[k v] d IH]; intros [|[k' v'] o] Hd Hk Hg;
    simpl in *; try discriminate; [reflexivity|].
  injection Hk as <- Hk. inversion Hd as [|? ? Hnotin Hd']; subst.
  pose proof (Hg k) as Hv. rewrite String.eqb_refl in Hv.
  injection Hv as <-. f_equal. apply IH; try assumption.
  intros k0. specialize (Hg k0).
  destruct (String.eqb_spec k0 k) as [Heq | Hne]; [subst k0 | assumption].
  rewrite (od_get_none d k Hnotin).
  symmetry. apply od_get_none. now rewrite <- Hk.
Qed.

Lemma od_update_empty o : NoDup (od_keys o) -> od_update [] o = o.
Proof.
  intros Ho. apply od_ext.
  - apply od_update_nodup. constructor.
  - rewrite od_keys_update by assumption. simpl.
    clear. induction (od_keys o) as [|k ks IH]; simpl; [reflexivity|].
    now rewrite IH.
  - intros k. rewrite od_get_update by assumption.
    now destruct (od_get o k).
Qed.

Lemma od_update_assoc a b c :
  NoDup (od_keys a) -> NoDup (od_keys b) -> NoDup (od_keys c) ->
  od_update (od_update a b) c = od_update a (od_update b c).
Proof.
  intros Ha Hb Hc.
  assert (Hbc : NoDup (od_keys (od_update b c))) by now apply od_update_nodup.
  apply od_ext.
  - now apply od_update_nodup, od_update_nodup.
  - rewrite !od_keys_update by assumption.
    rewrite filter_app, filter_twice, <- app_assoc. do 2 f_equal.
    apply filter_ext. intros k. rewrite od_contains_update by assumption.
    now rewrite negb_orb, andb_comm.
  - intros k. rewrite !od_get_update by assumption.
    now destruct (od_get c k).
Qed.

Lemma od_setitem_forall (P : string * V -> Prop) d k v :
  Forall P d -> P (k, v) -> Forall P (od_setitem d k v).
Proof.
  intros Hd Hkv. induction Hd as [|[k0 v0] d Hx Hd IH]; simpl.
  - now constructor.
  - destruct (String.eqb k k0); constructor; assumption.
Qed.

Lemma od_update_forall (P : string * V -> Prop) o d :
  Forall P d -> Forall P o -> Forall P (od_update d o).
Proof.
  unfold od_update. intros Hd Ho. revert d Hd.
  induction Ho as [|[k v] o Hx Ho IH]; simpl; intros d Hd; [assumption|].
  apply IH. now apply od_setitem_forall.
Qed.

End OrderedDict.

Lemma build_parsers_accepted (its : odict field_def) :
  Forall (fun kv => accepted (snd kv)) its ->
  forall acc, exists ps, build_parsers acc its = Ok ps.
Proof.
  induction 1 as [|[k d] its [p Hp] Hits IH]; intros acc; simpl.
  - now exists acc.
  - simpl in Hp. rewrite Hp. cbn [bind]. apply IH.
Qed.

(** Copying a well-formed table succeeds and keeps the items. *)
Lemma HeaderParser_copy_ok (A : HeaderParser) :
  table_ok A ->
  exists ps, HeaderParser_copy A = Ok (MkHeaderParser (items A) ps).
Proof.
  intros [Hnd Hacc]. unfold HeaderParser_copy, HeaderParser_init.
  rewrite od_update_empty by assumption.
  destruct (build_parsers_accepted (items A) Hacc []) as [ps Hps].
  exists ps. now rewrite Hps.
Qed.

Lemma HeaderParser_add_ok (A B : HeaderParser) :
  table_ok A -> table_ok B ->
  exists AB, HeaderParser_add A B = Ok AB /\
             items AB = od_update (items A) (items B) /\
             table_ok AB.
Proof.
  intros HA HB. destruct (HeaderParser_copy_ok A HA) as [ps Hps].
  unfold HeaderParser_add. rewrite Hps. cbn [bind].
  eexists. split; [reflexivity|]. split; [reflexivity|].
  destruct HA as [HAn HAa], HB as [HBn HBa]. split; simpl.
  - now apply od_update_nodup.
  - now apply od_update_forall.
Qed.

(** C6.  Merging well-formed parser tables is associative, as ordered
    mappings; in a merge, a name of both operands keeps the place it has in
    the left one and takes the definition of the right one, and the names
    of the right operand alone follow in their order. *)
Theorem merge_associative (A B C : HeaderParser) :
  table_ok A -> table_ok B -> table_ok C ->
  exists AB BC L R,
    HeaderParser_add A B = Ok AB /\
    HeaderParser_add B C = Ok BC /\
    HeaderParser_add AB C = Ok L /\
    HeaderParser_add A BC = Ok R /\
    HeaderParser_eq L R /\
    od_keys (items AB)
    = od_keys (items A)
      ++ filter (fun k => negb (od_contains (items A) k)) (od_keys (items B)) /\
    (forall k, od_get (items AB) k
               = match od_get (items B) k with
                 | Some d => Some d
                 | None => od_get (items A) k
                 end).
Proof.
  intros HA HB HC.
  destruct (HeaderParser_add_ok A B HA HB) as (AB & HAB & IAB & OAB).
  destruct (HeaderParser_add_ok B C HB HC) as (BC & HBC & IBC & OBC).
  destruct (HeaderParser_add_ok AB C OAB HC) as (L & HL & IL & OL).
  destruct (HeaderParser_add_ok A BC HA OBC) as (R & HR & IR & OR).
  exists AB, BC, L, R. repeat split; try assumption.
  - unfold HeaderParser_eq. rewrite IL, IR, IAB, IBC.
    apply od_update_assoc; [apply HA | apply HB | apply HC].
  - rewrite IAB. apply od_keys_update, HB.
  - intros k. rewrite IAB. apply od_get_update, HB.
Qed.

Import VdifHeader.

Lemma distinct_nodup (ks : list string) : distinct ks = true -> NoDup ks.
Proof.
  induction ks as [|k ks IH]; simpl; intros Hd; constructor.
  - apply andb_prop in Hd as [Hk _]. intros Hin.
    apply negb_true_iff in Hk.
    assert (Hex : existsb (String.eqb k) ks = true).
    { apply existsb_exists. exists k. split; [assumption|].
      apply String.eqb_refl. }
    congruence.
  - apply IH. now apply andb_prop in Hd as [_ Hd].
Qed.

Lemma table_okb_ok (t : HeaderParser) : table_okb t = true -> table_ok t.
Proof.
  unfold table_okb, table_ok. intros Hb.
  apply andb_prop in Hb as [Hd Ha]. split.
  - now apply distinct_nodup.
  - rewrite forallb_forall in Ha. apply Forall_forall. intros kv Hin.
    specialize (Ha kv Hin). unfold accepts, accepted in *.
    destruct (make_parser _ _ _) as [p|]; [now exists p | discriminate].
Qed.

Ltac table_ok_by_computation :=
  apply table_okb_ok; vm_compute; reflexivity.

(** The three tables that make up [VDIFSampleRateHeader._header_parser]. *)
Lemma merge_associative_witness :
  exists AB BC L R,
    HeaderParser_add (built (HeaderParser_init Legacy_fields))
                     (built (HeaderParser_init Base_fields)) = Ok AB /\
    HeaderParser_add (built (HeaderParser_init Base_fields))
                     (built (HeaderParser_init SampleRate_fields)) = Ok BC /\
    HeaderParser_add AB (built (HeaderParser_init SampleRate_fields)) = Ok L /\
    HeaderParser_add (built (HeaderParser_init Legacy_fields)) BC = Ok R /\
    HeaderParser_eq L R /\
    od_keys (items AB)
    = od_keys (items (built (HeaderParser_init Legacy_fields)))
      ++ filter (fun k => negb (od_contains
                                  (items (built (HeaderParser_init
                                                   Legacy_fields))) k))
                (od_keys (items (built (HeaderParser_init Base_fields)))) /\
    (forall k, od_get (items AB) k
               = match od_get (items (built (HeaderParser_init Base_fields)))
                              k with
                 | Some d => Some d
                 | None => od_get (items (built (HeaderParser_init
                                                   Legacy_fields))) k
                 end).
Proof.
  apply (merge_associative (built (HeaderParser_init Legacy_fields))
                           (built (HeaderParser_init Base_fields))
                           (built (HeaderParser_init SampleRate_fields)));
    table_ok_by_computation.
Defined.

(** No exception is raised while the tables of the VDIF classes are built,
    and every one of them is well formed. *)
Lemma tables_built :
  Forall (fun r => exists t, r = Ok t /\ table_ok t)
         [Legacy_parser; Base_parser; SampleRate_parser; Header1_parser;
          Header2_parser; Header3_parser].
Proof.
  assert (Hb : forall r,
             match r with Ok t => table_okb t | Raise _ => false end = true ->
             exists t, r = Ok t /\ table_ok t).
  { intros [t|e] Hr; [|discriminate].
    exists t. split; [reflexivity | now apply table_okb_ok]. }
  repeat constructor; apply Hb; vm_compute; reflexivity.
Qed.

Example base_table_keys :
  od_keys (items (built Base_parser))
  = ["invalid_data"; "legacy_mode"; "seconds"; "_1_30_2"; "ref_epoch";
     "frame_nr"; "vdif_version"; "lg2_nchan"; "frame_length";
     "complex_data"; "bits_per_sample"; "thread_id"; "station_id";
     "edv"]%string
  /\ defaults (built Base_parser) "legacy_mode" = Ok (Some (VBool false))
  /\ defaults (built Legacy_parser) "legacy_mode" = Ok (Some (VBool true)).
Proof.
  repeat split; vm_compute; reflexivity.
Qed.

(** ** The 8 channel, 2 bit, fan-out 4 codec *)

Lemma blocks_concat {A : Type} (k : nat) (rows : list (list A)) :
  (0 < k)%nat -> Forall (fun r => length r = k) rows ->
  blocks k (concat rows) = Ok rows.
Proof.
  intros Hk Hrows. unfold blocks.
  assert (Hlen : length (concat rows) = (k * length rows)%nat).
  { induction Hrows as [|r rows Hr _ IH]; simpl; [lia|].
    rewrite length_app, IH, Hr. lia. }
  rewrite Hlen.
  replace (k * length rows mod k)%nat with 0%nat
    by (symmetry; rewrite Nat.mul_comm; apply Nat.Div0.mod_mul).
  replace (k * length rows / k)%nat with (length rows)
    by (symmetry; rewrite Nat.mul_comm; apply Nat.div_mul; lia).
  cbn [Nat.eqb]. f_equal. clear Hlen.
  induction Hrows as [|r rows Hr Hrows IH]; [reflexivity|].
  cbn [length concat seq map]. rewrite <- seq_shift, map_map.
  f_equal.
  - rewrite Nat.mul_0_r. cbn [skipn]. rewrite <- Hr.
    now rewrite firstn_app, Nat.sub_diag, firstn_all, firstn_O, app_nil_r.
  - rewrite <- IH at 2. apply map_ext. intros i.
    replace (k * S i)%nat with (length r + k * i)%nat by lia.
    now rewrite skipn_app, skipn_all2, Nat.add_comm, Nat.add_sub by lia.
Qed.

Lemma split_blocks {A : Type} (n : nat) (x : list A) :
  length x = (4 * n)%nat ->
  exists B, x = concat B /\ length B = n /\
            Forall (fun b => length b = 4%nat) B.
Proof.
  revert x. induction n as [|n IH]; intros x Hx.
  - exists []. destruct x; [now repeat split | discriminate].
  - destruct x as [|a [|b [|c [|d x]]]]; simpl in Hx; try lia.
    destruct (IH x ltac:(lia)) as (B & -> & HB & HF).
    exists ([a; b; c; d] :: B). repeat split; simpl; auto.
Qed.

Lemma mapM_ok {A B : Type} (f : A -> result B) (g : A -> B) (l : list A) :
  Forall (fun a => f a = Ok (g a)) l -> mapM f l = Ok (map g l).
Proof.
  induction 1 as [|a l Ha _ IH]; simpl; [reflexivity|].
  now rewrite Ha, IH.
Qed.

Lemma seq_plus (n s m : nat) :
  seq (m + s) n = map (fun i => (m + i)%nat) (seq s n).
Proof.
  revert s. induction n as [|n IH]; intros s; simpl; [reflexivity|].
  f_equal. now rewrite <- IH, Nat.add_succ_r.
Qed.

(** Transposing rows that are each two pieces put end to end. *)
Lemma transpose_map_app {X A : Type} (d : A) (m n : nat) (cs : list X)
  (front back : X -> list A) :
  Forall (fun c => length (front c) = m) cs ->
  transpose d (m + n) (map (fun c => front c ++ back c) cs)
  = transpose d m (map front cs) ++ transpose d n (map back cs).
Proof.
  intros Hfront. rewrite Forall_forall in Hfront. unfold transpose.
  rewrite seq_app, map_app. f_equal.
  - apply map_ext_in. intros t Ht. apply in_seq in Ht.
    rewrite !map_map. apply map_ext_in. intros c Hc.
    apply app_nth1. rewrite (Hfront c Hc). lia.
  - cbn [Nat.add].
    rewrite <- (Nat.add_0_r m) at 1. rewrite seq_plus, !map_map.
    apply map_ext. intros t.
    rewrite !map_map. apply map_ext_in. intros c Hc.
    rewrite <- (Hfront c Hc). apply app_nth2_plus.
Qed.

Lemma byte_of_word_range (w : Z) (i : nat) :
  0 <= nth i (bytes_of_word w) 0 < 256.
Proof.
  unfold bytes_of_word.
  assert (Hland : forall x, 0 <= Z.land x 255 < 256).
  { intros x. change 255 with (Z.ones 8). rewrite Z.land_ones by lia.
    apply Z.mod_pos_bound. lia. }
  do 8 (destruct i as [|i]; [apply Hland|]). destruct i; simpl; lia.
Qed.

Lemma nth_map_in_range {A B : Type} (f : A -> B) (l : list A) (i : nat)
  (d : A) (d' : B) :
  (i < length l)%nat -> nth i (map f l) d' = f (nth i l d).
Proof.
  intros Hi. rewrite (nth_indep _ d' (f d)) by now rewrite length_map.
  apply map_nth.
Qed.

Lemma lut_row_length (b : Z) :
  0 <= b < 256 -> length (lut_take lut2bit1 b) = 4%nat.
Proof.
  intros Hb. unfold lut_take, lut2bit1, lut2bit.
  rewrite (nth_map_in_range _ _ _ 0).
  - reflexivity.
  - unfold byte_values. rewrite length_map, length_seq. lia.
Qed.

(** Decoding goes word by word. *)
Lemma decode_blockwise (ws : list Z) :
  decode_8chan_2bit_fanout4 ws = concat (map decode_block ws).
Proof.
  induction ws as [|w ws IH]; [reflexivity|].
  cbn [map concat]. rewrite <- IH. clear IH.
  unfold decode_8chan_2bit_fanout4, decode_block, take_axis1.
  cbn [map].
  set (r := map (fun i => nth i (bytes_of_word (reorder64 w)) 0)
                reorder_channels).
  set (rest := map (fun r0 => map (fun i => nth i r0 0) reorder_channels)
                   (map bytes_of_word (map reorder64 ws))).
  assert (Hfront : Forall (fun c => length (lut_take lut2bit1 (nth c r 0))
                                    = 4%nat) (seq 0 8)).
  { apply Forall_forall. intros c Hc. apply lut_row_length.
    apply in_seq in Hc. subst r. unfold reorder_channels.
    do 8 (destruct c as [|c]; [apply byte_of_word_range|]). lia. }
  assert (Hflat :
            map (@concat Q)
                (map (map (lut_take lut2bit1)) (transpose 0 8 (r :: rest)))
            = map (fun c => lut_take lut2bit1 (nth c r 0)
                            ++ concat (map (lut_take lut2bit1)
                                           (map (fun r0 => nth c r0 0) rest)))
                  (seq 0 8)).
  { unfold transpose. rewrite !map_map. reflexivity. }
  assert (Hflat' :
            map (@concat Q)
                (map (map (lut_take lut2bit1)) (transpose 0 8 rest))
            = map (fun c => concat (map (lut_take lut2bit1)
                                        (map (fun r0 => nth c r0 0) rest)))
                  (seq 0 8)).
  { unfold transpose. rewrite !map_map. reflexivity. }
  rewrite Hflat, Hflat'.
  replace (map (lut_take lut2bit1) r)
    with (map (fun c => lut_take lut2bit1 (nth c r 0)) (seq 0 8))
    by reflexivity.
  rewrite <- transpose_map_app by assumption.
  f_equal. cbn [seq map hd]. rewrite length_app. f_equal.
  inversion Hfront; assumption.
Qed.

(** *** Bytes and words *)

Lemma lor_below (k a b : Z) :
  0 <= k -> 0 <= a < 2 ^ k -> 0 <= b < 2 ^ k -> 0 <= Z.lor a b < 2 ^ k.
Proof.
  intros Hk Ha Hb.
  assert (Heq : Z.lor a b = Z.lor a b mod 2 ^ k).
  { rewrite <- Z.land_ones, Z.land_lor_distr_l, !Z.land_ones by lia.
    now rewrite !Z.mod_small by lia. }
  rewrite Heq. apply Z.mod_pos_bound. lia.
Qed.

Lemma word_of_bytes_range (bs : list Z) :
  Forall (fun b => 0 <= b < 256) bs ->
  0 <= word_of_bytes bs < 2 ^ (8 * Z.of_nat (length bs)).
Proof.
  induction 1 as [|b bs Hb _ IH]; [simpl; lia|].
  cbn [word_of_bytes fold_right length].
  change (fold_right (fun b0 acc => Z.lor b0 (Z.shiftl acc 8)) 0 bs)
    with (word_of_bytes bs).
  replace (8 * Z.of_nat (S (length bs)))
    with (8 * Z.of_nat (length bs) + 8) by lia.
  apply lor_below; [lia | |].
  - split; [lia|]. apply Z.lt_le_trans with (2 ^ 8); [lia|].
    apply Z.pow_le_mono_r; lia.
  - rewrite Z.shiftl_mul_pow2, Z.pow_add_r by lia. nia.
Qed.

Lemma byte_at (bs : list Z) (i : nat) :
  Forall (fun b => 0 <= b < 256) bs ->
  Z.land (Z.shiftr (word_of_bytes bs) (8 * Z.of_nat i)) 255 = nth i bs 0.
Proof.
  intros Hbs. revert i.
  induction Hbs as [|b bs Hb _ IH]; intros i.
  - cbn [word_of_bytes fold_right]. rewrite Z.shiftr_0_l.
    now destruct i.
  - cbn [word_of_bytes fold_right].
    change (fold_right (fun b0 acc => Z.lor b0 (Z.shiftl acc 8)) 0 bs)
      with (word_of_bytes bs).
    destruct i as [|i].
    + cbn [nth]. change (8 * Z.of_nat 0) with 0. rewrite Z.shiftr_0_r.
      change 255 with (Z.ones 8).
      rewrite Z.land_lor_distr_l, !Z.land_ones by lia.
      rewrite Z.shiftl_mul_pow2, Z.mod_mul, Z.lor_0_r by lia.
      apply Z.mod_small. lia.
    + cbn [nth]. rewrite <- IH.
      replace (8 * Z.of_nat (S i)) with (8 * Z.of_nat i + 8) by lia.
      rewrite Z.shiftr_lor, Z.shiftr_shiftl_r by lia.
      replace (8 * Z.of_nat i + 8 - 8) with (8 * Z.of_nat i) by lia.
      rewrite (Z.shiftr_div_pow2 b) by lia.
      rewrite Z.div_small; [reflexivity|].
      split; [lia|]. apply Z.lt_le_trans with (2 ^ 8); [lia|].
      apply Z.pow_le_mono_r; lia.
Qed.

Lemma bytes_of_word_of_bytes (bs : list Z) :
  length bs = 8%nat -> Forall (fun b => 0 <= b < 256) bs ->
  bytes_of_word (word_of_bytes bs) = bs.
Proof.
  intros Hlen Hbs. unfold bytes_of_word.
  rewrite (map_ext _ (fun i => nth i bs 0)) by (intros i; now apply byte_at).
  do 8 (destruct bs as [|? bs]; [discriminate|]).
  destruct bs; [reflexivity | discriminate].
Qed.

Lemma shift_quad_range (quad : list Z) :
  Forall (fun b => 0 <= b < 256) (shift_quad quad).
Proof.
  unfold shift_quad. generalize [0; 2; 4; 6].
  induction quad as [|b quad IH]; intros [|s ss]; simpl; constructor.
  - unfold uint8. apply Z.mod_pos_bound. lia.
  - apply IH.
Qed.

Lemma fold_lor_range (l : list Z) (acc : Z) :
  0 <= acc < 256 -> Forall (fun b => 0 <= b < 256) l ->
  0 <= fold_left Z.lor l acc < 256.
Proof.
  intros Hacc Hl. revert acc Hacc.
  induction Hl as [|b l Hb _ IH]; intros acc Hacc; simpl; [assumption|].
  apply IH. change 256 with (2 ^ 8). apply lor_below; lia.
Qed.

Lemma or_reduce_range (l : list Z) :
  Forall (fun b => 0 <= b < 256) l -> 0 <= or_reduce l < 256.
Proof.
  intros Hl. apply fold_lor_range; [lia | assumption].
Qed.

(** *** Levels and their two bits *)

Lemma level_cases (v : Q) :
  is_level v ->
  v = (- OPTIMAL_2BIT_HIGH)%Q \/ v = 1%Q \/ v = (-1)%Q \/ v = OPTIMAL_2BIT_HIGH.
Proof.
  unfold is_level, lut4level. simpl. intuition.
Qed.

(** One byte of the payload decodes to the four samples packed in it. *)
Lemma quad_roundtrip (v0 v1 v2 v3 : Q) :
  is_level v0 -> is_level v1 -> is_level v2 -> is_level v3 ->
  lut_take lut2bit1
    (or_reduce (shift_quad [level_code v0; level_code v1;
                            level_code v2; level_code v3]))
  = [v0; v1; v2; v3].
Proof.
  intros H0 H1 H2 H3.
  apply level_cases in H0, H1, H2, H3.
  destruct H0 as [-> | [-> | [-> | ->]]];
    destruct H1 as [-> | [-> | [-> | ->]]];
    destruct H2 as [-> | [-> | [-> | ->]]];
    destruct H3 as [-> | [-> | [-> | ->]]];
    vm_compute; reflexivity.
Qed.

(** *** Blocks of four samples *)

Lemma mapM_map_ok {A B C : Type} (f : B -> result C) (h : A -> B)
  (g : A -> C) (l : list A) :
  Forall (fun a => f (h a) = Ok (g a)) l -> mapM f (map h l) = Ok (map g l).
Proof.
  induction 1 as [|a l Ha _ IH]; simpl; [reflexivity|].
  now rewrite Ha, IH.
Qed.

Lemma columns_are_levels (blk : list (list Q)) :
  Forall (fun row => length row = 8%nat /\ Forall is_level row) blk ->
  Forall (Forall is_level)
         (transpose 0%Q 8 (take_axis1 0%Q reorder_channels blk)).
Proof.
  intros Hblk. rewrite Forall_forall in Hblk.
  unfold transpose, take_axis1.
  apply Forall_forall. intros col Hcol.
  apply in_map_iff in Hcol as (c & <- & Hc). apply in_seq in Hc.
  apply Forall_forall. intros v Hv.
  apply in_map_iff in Hv as (r & <- & Hr).
  apply in_map_iff in Hr as (row & <- & Hrow).
  destruct (Hblk row Hrow) as [Hlen Hlev]. rewrite Forall_forall in Hlev.
  apply Hlev.
  rewrite (nth_map_in_range _ _ _ 0%nat) by (simpl; lia).
  apply nth_In. rewrite Hlen. unfold reorder_channels.
  do 8 (destruct c as [|c]; [simpl; lia|]). lia.
Qed.

Section Roundtrip.

Variable encode_2bit_real_base : Q -> Z.

(** What is asked of the absent [encode_2bit_real_base]: a sample that is
    one of the four levels is given the rank of that level, from 0 for the
    lowest to 3 for the highest. *)
Hypothesis rank_low : encode_2bit_real_base (- OPTIMAL_2BIT_HIGH) = 0.
Hypothesis rank_minus : encode_2bit_real_base (-1) = 1.
Hypothesis rank_plus : encode_2bit_real_base 1 = 2.
Hypothesis rank_high : encode_2bit_real_base OPTIMAL_2BIT_HIGH = 3.

Lemma level_take (v : Q) :
  is_level v ->
  take reorder_bits (encode_2bit_real_base v) = Ok (level_code v).
Proof.
  intros Hv. apply level_cases in Hv.
  destruct Hv as [-> | [-> | [-> | ->]]].
  - now rewrite rank_low.
  - now rewrite rank_plus.
  - now rewrite rank_minus.
  - now rewrite rank_high.
Qed.

Lemma encode_blockwise (B : list (list (list Q))) :
  Forall (fun blk => length blk = 4%nat) B ->
  Forall (Forall (fun row => length row = 8%nat /\ Forall is_level row)) B ->
  encode_8chan_2bit_fanout4 encode_2bit_real_base (concat B)
  = Ok (map encode_block B).
Proof.
  intros Hfour Hlev. unfold encode_8chan_2bit_fanout4.
  assert (Hcut : take_axis1 0%Q reorder_channels (concat B)
                 = concat (map (take_axis1 0%Q reorder_channels) B)).
  { unfold take_axis1. apply concat_map. }
  rewrite Hcut, blocks_concat; [|lia|].
  2:{ apply Forall_map. eapply Forall_impl; [|exact Hfour].
      intros blk Hblk. unfold take_axis1. now rewrite length_map. }
  cbn [bind]. rewrite !map_map.
  rewrite (mapM_map_ok _ _
             (fun blk => map (map level_code)
                             (transpose 0%Q 8
                                (take_axis1 0%Q reorder_channels blk)))).
  2:{ eapply Forall_impl; [|exact Hlev]. intros blk Hblk. cbn beta.
      apply mapM_map_ok.
      eapply Forall_impl; [|exact (columns_are_levels blk Hblk)].
      intros col Hcol. cbn beta. apply mapM_map_ok.
      eapply Forall_impl; [|exact Hcol]. intros v Hv. now apply level_take. }
  cbn [bind]. rewrite !map_map.
  rewrite blocks_concat; [|lia|].
  2:{ apply Forall_map, Forall_forall. intros blk _.
      unfold transpose. now rewrite !length_map, length_seq. }
  cbn [bind]. rewrite !map_map. reflexivity.
Qed.

End Roundtrip.

Lemma block_roundtrip (blk : list (list Q)) :
  length blk = 4%nat ->
  Forall (fun row => length row = 8%nat /\ Forall is_level row) blk ->
  decode_block (encode_block blk) = blk.
Proof.
  intros Hfour Hlev. unfold decode_block, encode_block.
  set (bs := map (fun col => or_reduce (shift_quad (map level_code col)))
                 (transpose 0%Q 8 (take_axis1 0%Q reorder_channels blk))).
  assert (Hrange : Forall (fun b => 0 <= b < 256) bs).
  { subst bs. apply Forall_map, Forall_forall. intros col _.
    apply or_reduce_range, shift_quad_range. }
  assert (Hlen : length bs = 8%nat).
  { subst bs. unfold transpose. now rewrite !length_map, length_seq. }
  rewrite reorder64_twice.
  2:{ pose proof (word_of_bytes_range bs Hrange) as Hw.
      rewrite Hlen in Hw. exact Hw. }
  rewrite bytes_of_word_of_bytes by assumption.
  subst bs. clear Hrange Hlen.
  do 4 (destruct blk as [|? blk]; [discriminate|]).
  destruct blk; [|discriminate]. clear Hfour.
  repeat match goal with
         | H : Forall _ (_ :: _) |- _ => inversion H; clear H; subst
         | H : _ /\ _ |- _ => destruct H
         | H : Forall _ [] |- _ => clear H
         end.
  repeat match goal with
         | H : length ?l = 8%nat |- _ =>
             do 8 (destruct l as [|? l]; [discriminate|]);
             destruct l; [clear H | discriminate]
         end.
  repeat match goal with
         | H : Forall _ (_ :: _) |- _ => inversion H; clear H; subst
         | H : Forall _ [] |- _ => clear H
         end.
  cbn [transpose take_axis1 map nth seq reorder_channels].
  rewrite !quad_roundtrip by assumption.
  reflexivity.
Qed.

Lemma levels_of_blocks (B : list (list (list Q))) :
  Forall (fun row => length row = 8%nat /\ Forall is_level row) (concat B) ->
  Forall (Forall (fun row => length row = 8%nat /\ Forall is_level row)) B.
Proof.
  induction B as [|blk B IH]; simpl; intros H; constructor.
  - apply Forall_app in H. tauto.
  - apply IH. apply Forall_app in H. tauto.
Qed.

(** C1.  For an array of shape (4 n, 8) whose entries are among the four
    levels, and a base encoder that gives each level its rank, encoding
    succeeds, gives [n] words, and decoding them gives the array back. *)
Theorem decode_encode_roundtrip
  (encode_2bit_real_base : Q -> Z) (x : list (list Q)) (n : nat) :
  encode_2bit_real_base (- OPTIMAL_2BIT_HIGH)%Q = 0 ->
  encode_2bit_real_base (-1)%Q = 1 ->
  encode_2bit_real_base 1%Q = 2 ->
  encode_2bit_real_base OPTIMAL_2BIT_HIGH = 3 ->
  length x = (4 * n)%nat ->
  Forall (fun row => length row = 8%nat /\ Forall is_level row) x ->
  exists words,
    encode_8chan_2bit_fanout4 encode_2bit_real_base x = Ok words /\
    length words = n /\
    decode_8chan_2bit_fanout4 words = x.
Proof.
  intros H0 H1 H2 H3 Hlen Hx.
  destruct (split_blocks n x Hlen) as (B & -> & HB & Hfour).
  pose proof (levels_of_blocks B Hx) as Hlev.
  exists (map encode_block B). split; [|split].
  - now apply encode_blockwise.
  - now rewrite length_map.
  - rewrite decode_blockwise, map_map. f_equal.
    rewrite <- (map_id B) at 2. apply map_ext_in. intros blk Hblk.
    rewrite Forall_forall in Hfour, Hlev.
    apply block_roundtrip; [apply Hfour | apply Hlev]; assumption.
Qed.

Ltac is_a_level :=
  unfold is_level, lut4level; cbn [In];
  first [ left; reflexivity
        | right; left; reflexivity
        | right; right; left; reflexivity
        | right; right; right; left; reflexivity ].

(** The four samples of the check recorded in the source, with the
    nearest-level quantiser. *)
Lemma decode_encode_roundtrip_witness :
  exists words,
    encode_8chan_2bit_fanout4 nearest_level_rank
      [[-1; 1; 1; - OPTIMAL_2BIT_HIGH; - OPTIMAL_2BIT_HIGH;
        - OPTIMAL_2BIT_HIGH; 1; -1];
       [1; 1; - OPTIMAL_2BIT_HIGH; 1; 1; - OPTIMAL_2BIT_HIGH; -1; -1];
       [OPTIMAL_2BIT_HIGH; OPTIMAL_2BIT_HIGH; 1; OPTIMAL_2BIT_HIGH; 1;
        - OPTIMAL_2BIT_HIGH; 1; - OPTIMAL_2BIT_HIGH];
       [1; - OPTIMAL_2BIT_HIGH; OPTIMAL_2BIT_HIGH; OPTIMAL_2BIT_HIGH; -1; 1;
        OPTIMAL_2BIT_HIGH; - OPTIMAL_2BIT_HIGH]]%Q = Ok words /\
    length words = 1%nat /\
    decode_8chan_2bit_fanout4 words
    = [[-1; 1; 1; - OPTIMAL_2BIT_HIGH; - OPTIMAL_2BIT_HIGH;
        - OPTIMAL_2BIT_HIGH; 1; -1];
       [1; 1; - OPTIMAL_2BIT_HIGH; 1; 1; - OPTIMAL_2BIT_HIGH; -1; -1];
       [OPTIMAL_2BIT_HIGH; OPTIMAL_2BIT_HIGH; 1; OPTIMAL_2BIT_HIGH; 1;
        - OPTIMAL_2BIT_HIGH; 1; - OPTIMAL_2BIT_HIGH];
       [1; - OPTIMAL_2BIT_HIGH; OPTIMAL_2BIT_HIGH; OPTIMAL_2BIT_HIGH; -1; 1;
        OPTIMAL_2BIT_HIGH; - OPTIMAL_2BIT_HIGH]]%Q.
Proof.
  apply (decode_encode_roundtrip nearest_level_rank _ 1);
    try reflexivity.
  repeat (apply Forall_cons;
          [split; [reflexivity
                  | repeat (apply Forall_cons; [is_a_level|]);
                    apply Forall_nil]|]).
  apply Forall_nil.
Defined.

Example encode_spot_check :
  encode_8chan_2bit_fanout4 nearest_level_rank
    (decode_8chan_2bit_fanout4 [738811025863578102])
  = Ok [738811025863578102].
Proof.
  vm_compute. reflexivity.
Qed.

Import VdifHeader.

(** ** Reading a VDIF header from a file *)

Lemma fh_seek_current (offset : Z) (fh : file) :
  0 <= pos fh + offset ->
  fh_seek offset 1 fh = (MkFile (content fh) (pos fh + offset), Ok tt).
Proof.
  intros Hpos. unfold fh_seek. cbn [Z.eqb Pos.eqb].
  now replace (pos fh + offset <? 0) with false
    by (symmetry; apply Z.ltb_ge; lia).
Qed.

Section ReadHeader.

Variable m5 : HeaderParser.
Variable time_agrees : list Z -> result unit.

(** The bytes a reader has ahead of it. *)
Lemma fh_read_ahead (fh : file) (s rest : list byte) (n : nat) :
  skipn (Z.to_nat (pos fh)) (content fh) = s ++ rest ->
  length s = n ->
  fh_read (Z.of_nat n) fh
  = (MkFile (content fh) (pos fh + Z.of_nat n), Ok s).
Proof.
  intros Hahead Hlen. unfold fh_read. rewrite Hahead.
  replace (Z.of_nat n <? 0) with false by (symmetry; apply Z.ltb_ge; lia).
  rewrite Nat2Z.id, <- Hlen, firstn_app, Nat.sub_diag, firstn_all, firstn_O,
    app_nil_r.
  reflexivity.
Qed.

(** With fewer than 32 bytes ahead, [fromfile] raises [EOFError]. *)
Lemma fromfile_short (e : edv_t) (v : bool) (fh : file) :
  (length (skipn (Z.to_nat (pos fh)) (content fh)) < 32)%nat ->
  snd (fromfile m5 time_agrees e v fh) = Raise EOFError.
Proof.
  intros Hshort. unfold fromfile, se_bind, fh_read.
  change (32 <? 0) with false. cbn iota.
  set (s := firstn (Z.to_nat 32) _).
  assert (Hs : (length s =? 32)%nat = false).
  { apply Nat.eqb_neq. subst s. rewrite length_firstn. lia. }
  rewrite Hs. reflexivity.
Qed.

Lemma legacy_bit (w : Z) :
  negb (Z.land (Z.shiftr w 30) 1 =? 0) = Z.testbit w 30.
Proof.
  rewrite Z.testbit_odd. change 1 with (Z.ones 1).
  rewrite Z.land_ones by lia. change (2 ^ 1) with 2.
  rewrite Zmod_odd. now destruct (Z.odd (Z.shiftr w 30)).
Qed.

Lemma is_legacy_header_bit (w : Z) (ws : list Z) :
  is_legacy_header (w :: ws) = Ok (VBool (Z.testbit w 30)).
Proof.
  change (is_legacy_header (w :: ws))
    with (Ok (VBool (negb (Z.land (Z.shiftr w 30) 1 =? 0)))).
  now rewrite legacy_bit.
Qed.

(** What [VDIFHeader(words, None, verify=False)] makes of words with the
    legacy bit: a legacy header whose [edv] has been reset to [None] by
    [VDIFLegacyHeader.__init__]. *)
Lemma call_legacy_default (w : Z) (ws : list Z) :
  Z.testbit w 30 = true ->
  VDIFHeader_call m5 time_agrees (w :: ws) EdvNone false
  = Ok (MkHeader VDIFLegacyHeader EdvNone (w :: ws)).
Proof.
  intros Hbit. unfold VDIFHeader_call, VDIFHeader_new.
  rewrite is_legacy_header_bit, Hbit. reflexivity.
Qed.

(** The header is not legacy for [fromfile] then: nothing is cut, nothing
    rewound. *)
Lemma fromfile_legacy_default (fh : file) (s rest : list byte) :
  skipn (Z.to_nat (pos fh)) (content fh) = s ++ rest ->
  length s = 32%nat ->
  Z.testbit (le_word (firstn 4 s)) 30 = true ->
  fromfile m5 time_agrees EdvNone false fh
  = (MkFile (content fh) (pos fh + 32),
     Ok (MkHeader VDIFLegacyHeader EdvNone (le_words 8 s)))
  /\ fromfile m5 time_agrees EdvNone true fh
     = (MkFile (content fh) (pos fh + 32), Raise AssertionError).
Proof.
  intros Hahead Hlen Hbit.
  pose proof (fh_read_ahead fh s rest 32 Hahead Hlen) as Hread.
  change (Z.of_nat 32) with 32 in Hread.
  unfold fromfile, se_bind. rewrite Hread, Hlen. cbn [Nat.eqb negb].
  unfold se_lift, struct_unpack. rewrite Hlen. cbn [Nat.eqb Nat.mul Nat.add].
  cbn [le_words]. rewrite (call_legacy_default _ _ Hbit).
  split; reflexivity.
Qed.

(** Asked for a legacy header with [edv=False], [fromfile] does cut the
    words to four and moves back by 16 bytes. *)
Lemma fromfile_legacy_explicit (fh : file) (s rest : list byte) :
  skipn (Z.to_nat (pos fh)) (content fh) = s ++ rest ->
  length s = 32%nat ->
  0 <= pos fh ->
  fromfile m5 time_agrees EdvFalse false fh
  = (MkFile (content fh) (pos fh + 16),
     Ok (MkHeader VDIFLegacyHeader EdvFalse (le_words 4 s))).
Proof.
  intros Hahead Hlen Hpos.
  pose proof (fh_read_ahead fh s rest 32 Hahead Hlen) as Hread.
  change (Z.of_nat 32) with 32 in Hread.
  unfold fromfile, se_bind. rewrite Hread, Hlen. cbn [Nat.eqb negb].
  unfold se_lift, struct_unpack. rewrite Hlen. cbn [Nat.eqb Nat.mul Nat.add].
  change (VDIFHeader_call m5 time_agrees (le_words 8 s) EdvFalse false)
    with (Ok (MkHeader VDIFLegacyHeader EdvFalse (le_words 8 s))).
  cbn [edv edv_is_false].
  rewrite fh_seek_current by (cbn [pos]; lia).
  unfold se_ret, set_words. cbn [cls edv words pos content].
  change (firstn 4 (le_words 8 s)) with (le_words 4 s).
  f_equal. f_equal. lia.
Qed.

(** Without the legacy bit the header keeps its eight words and the reader
    is 32 bytes further. *)
Lemma fromfile_not_legacy (fh : file) (s rest : list byte) :
  skipn (Z.to_nat (pos fh)) (content fh) = s ++ rest ->
  length s = 32%nat ->
  Z.testbit (le_word (firstn 4 s)) 30 = false ->
  exists h,
    fromfile m5 time_agrees EdvNone false fh
    = (MkFile (content fh) (pos fh + 32), Ok h)
    /\ words h = le_words 8 s.
Proof.
  intros Hahead Hlen Hbit.
  pose proof (fh_read_ahead fh s rest 32 Hahead Hlen) as Hread.
  change (Z.of_nat 32) with 32 in Hread.
  unfold fromfile, se_bind. rewrite Hread, Hlen. cbn [Nat.eqb negb].
  unfold se_lift, struct_unpack. rewrite Hlen. cbn [Nat.eqb Nat.mul Nat.add].
  set (ws := le_words 8 s).
  assert (Hcall : exists c e, VDIFHeader_call m5 time_agrees ws EdvNone false
                              = Ok (MkHeader c e ws)
                              /\ edv_is_false e = false).
  { subst ws. cbn [le_words].
    unfold VDIFHeader_call, VDIFHeader_new.
    rewrite is_legacy_header_bit, Hbit. cbn [truthy bind].
    match goal with
    | |- context [get_header_edv ?l] =>
        change (get_header_edv l)
          with (Ok (VInt (Z.land (Z.shiftr (le_word (firstn 4 (skipn 4
                   (skipn 4 (skipn 4 (skipn 4 s)))))) 24) (2 ^ 8 - 1))))
    end.
    cbn [bind as_int fst snd]. unfold VDIFHeader_init. cbn [bind].
    match goal with
    | |- context [class_of_edv ?x] => destruct (class_of_edv x)
    end; do 2 eexists; (split; [reflexivity|]); reflexivity. }
  destruct Hcall as (c & e & -> & He). cbn [edv]. rewrite He.
  eexists. split; reflexivity.
Qed.

End ReadHeader.

(** C4, at a header with the legacy bit read with the default [edv=None]:
    the header returned (without verification) keeps all eight words and
    the reader is not moved back; with verification [fromfile] fails.
    Only [edv=False] gives the four words and the reader at 16. *)
Theorem fromfile_legacy_not_cut (m5 : HeaderParser)
  (time_agrees : list Z -> result unit) :
  fromfile m5 time_agrees EdvNone false legacy_file
  = (MkFile (content legacy_file) 32,
     Ok (MkHeader VDIFLegacyHeader EdvNone
                  [0x40000000; 0; 3; 0; 0; 0; 0; 0]))
  /\ fromfile m5 time_agrees EdvNone true legacy_file
     = (MkFile (content legacy_file) 32, Raise AssertionError)
  /\ fromfile m5 time_agrees EdvFalse true legacy_file
     = (MkFile (content legacy_file) 16,
        Ok (MkHeader VDIFLegacyHeader EdvFalse [0x40000000; 0; 3; 0])).
Proof.
  repeat split; vm_compute; reflexivity.
Qed.

(** ** Reading a frame set *)

Import VdifFrame.

Section ReadFrameSet.

Variable m5 : HeaderParser.
Variable time_agrees : list Z -> result unit.
Variable py : python.
Variable payload : Type.
Variable payload_fromfile : header -> SE file payload.
Variable frame_verify : header -> payload -> result unit.

Lemma keep_or_skip_frames (ids : option (list Z)) (v : bool) (h : header)
  (fs fs1 : list (frame payload)) (fh fh1 : file) :
  keep_or_skip m5 payload payload_fromfile frame_verify ids v h fs fh
  = (fh1, Ok fs1) ->
  fs1 = fs \/
  exists f, fs1 = fs ++ [f] /\ frame_header f = h /\ wanted m5 _ ids f.
Proof.
  unfold keep_or_skip, se_bind, se_lift, se_ret, wanted.
  destruct (selected m5 ids h) as [[|]|x] eqn:Hsel; [| |discriminate].
  - destruct (payload_fromfile h fh) as [fh' [p|x]]; [|discriminate].
    unfold VDIFFrame_init.
    destruct (if v then frame_verify h p else Ok tt) as [[]|x];
      cbn [bind]; [|discriminate].
    intros [= <- <-]. right. eexists. repeat split. exact Hsel.
  - destruct (payloadsize m5 h) as [n|x]; [|discriminate].
    destruct (fh_seek n 1 fh) as [fh' [[]|x]]; [|discriminate].
    intros [= <- <-]. now left.
Qed.

Lemma fh_seek_end (fh fh' : file) :
  fh_seek 0 2 fh = (fh', Ok tt) -> at_end fh'.
Proof.
  unfold fh_seek, at_end. cbn [Z.eqb].
  destruct (_ <? 0); intros [= <-]. cbn [pos content]. lia.
Qed.

(** The loop adds frames that have the frame number of [h0] and a thread
    that was asked for; it ends on a header with another frame number
    ([exc] is still [None]) or on [EOFError] of the next header, the reader
    then at the end of the file and [exc] what the interpreter makes of the
    handler's name. *)
Lemma collect_frames (fuel : nat) (ids : option (list Z)) (e : edv_t)
  (v : bool) (h0 h : header) (fs fs' : list (frame payload))
  (fh fh' : file) (exc : local_exc) :
  collect m5 time_agrees py payload payload_fromfile frame_verify
          fuel ids e v h0 h fs fh = Some (fh', Ok (fs', exc)) ->
  (exists kept, fs' = fs ++ kept /\
                Forall (same_frame_nr m5 _ h0) kept /\
                Forall (wanted m5 _ ids) kept) /\
  (exc = ExcNone \/
   (exc = match py with
          | Python2 => ExcCaught EOFError
          | Python3 => ExcUnbound
          end /\ at_end fh')).
Proof.
  revert h fs fh. induction fuel as [|fuel IH]; intros h fs fh;
    [discriminate|].
  cbn [collect].
  destruct (h_getitem m5 h "frame_nr") as [a|x] eqn:Ha; cbn [bind];
    [|discriminate].
  destruct (h_getitem m5 h0 "frame_nr") as [b|x] eqn:Hb; cbn [bind];
    [|discriminate].
  destruct (pyval_eqb a b) eqn:Hab.
  - destruct (keep_or_skip _ _ _ _ _ _ _ _ _) as [fh1 [fs1|x]] eqn:Hkeep;
      [|discriminate].
    assert (Hfs1 : exists kept, fs1 = fs ++ kept /\
                                Forall (same_frame_nr m5 _ h0) kept /\
                                Forall (wanted m5 _ ids) kept).
    { apply keep_or_skip_frames in Hkeep as [-> | (f & -> & Hf & Hw)].
      - exists []. now rewrite app_nil_r.
      - exists [f]. repeat split; [|now constructor].
        constructor; [|constructor]. exists a, b. now rewrite Hf. }
    destruct Hfs1 as (kept1 & -> & Hnr1 & Hw1).
    destruct (VdifHeader.fromfile _ _ _ _ fh1) as [fh2 [h'|x]] eqn:Hnext.
    + intros Hrec. apply IH in Hrec as [(kept & -> & Hnr & Hw) Hexc].
      split; [|assumption].
      exists (kept1 ++ kept). rewrite app_assoc.
      repeat split; apply Forall_app; now split.
    + destruct x; try discriminate.
      destruct (fh_seek 0 2 fh2) as [fh3 [[]|x]] eqn:Hseek; [|discriminate].
      intros [= <- <- <-]. split.
      * now exists kept1.
      * right. split; [reflexivity|]. eapply fh_seek_end, Hseek.
  - destruct (fh_seek (- size h) 1 fh) as [fh1 [[]|x]]; [|discriminate].
    intros [= <- <- <-]. split; [|now left].
    exists []. now rewrite app_nil_r.
Qed.

(** C8.  The frames collected have the frame number of the first header
    read.  When fewer were collected than thread ids were asked for:
    [IOError] is raised if the loop ended on a header of another frame
    number; if it ended on the [EOFError] of a header, the reader is at
    the end of the file, and Python 2 raises that [EOFError] again while
    Python 3, which has deleted the name [exc], raises
    [UnboundLocalError]. *)
Theorem frameset_fromfile_incomplete (fuel : nat) (ids : list Z)
  (sort : bool) (e : edv_t) (v : bool) (fh fh1 fh2 : file) (h0 : header)
  (fs : list (frame payload)) (exc : local_exc) :
  VdifHeader.fromfile m5 time_agrees e v fh = (fh1, Ok h0) ->
  collect m5 time_agrees py payload payload_fromfile frame_verify
          fuel (Some ids) (edv h0) v h0 h0 [] fh1
  = Some (fh2, Ok (fs, exc)) ->
  Forall (same_frame_nr m5 _ h0) fs /\
  (exc = ExcNone \/
   (at_end fh2 /\ exc = match py with
                        | Python2 => ExcCaught EOFError
                        | Python3 => ExcUnbound
                        end)) /\
  ((length fs < length ids)%nat ->
   VdifFrame.fromfile m5 time_agrees py payload payload_fromfile
                      frame_verify fuel (Some ids) sort e v fh
   = Some (fh2, Raise (match exc with
                       | ExcNone => IOError
                       | ExcCaught x => x
                       | ExcUnbound => UnboundLocalError
                       end))).
Proof.
  intros Hfirst Hloop.
  pose proof (collect_frames _ _ _ _ _ _ _ _ _ _ _ Hloop)
    as [(kept & Hkept & Hnr & _) Hexc].
  cbn [app] in Hkept. subst kept.
  split; [assumption|]. split.
  { destruct Hexc as [-> | [-> Hend]]; [now left | now right]. }
  intros Hfew. unfold VdifFrame.fromfile. rewrite Hfirst, Hloop.
  unfold finish. apply Nat.ltb_lt in Hfew. rewrite Hfew.
  destruct exc; reflexivity.
Qed.

End ReadFrameSet.

Lemma collect_more_fuel (m5 : HeaderParser)
  (time_agrees : list Z -> result unit) (py : python) (payload : Type)
  (payload_fromfile : header -> SE file payload)
  (frame_verify : header -> payload -> result unit)
  (fuel : nat) (ids : option (list Z)) (e : edv_t) (v : bool)
  (h0 h : header) (fs : list (frame payload)) (fh : file)
  (r : file * result (list (frame payload) * local_exc)) :
  collect m5 time_agrees py payload payload_fromfile frame_verify
          fuel ids e v h0 h fs fh = Some r ->
  collect m5 time_agrees py payload payload_fromfile frame_verify
          (S fuel) ids e v h0 h fs fh = Some r.
Proof.
  revert h fs fh. induction fuel as [|fuel IH]; intros h fs fh;
    [discriminate|].
  intros Hrun. cbn [collect] in Hrun |- *.
  destruct (_ <- h_getitem m5 h "frame_nr" ;; _) as [[|]|x];
    try assumption.
  destruct (keep_or_skip _ _ _ _ _ _ _ _ _) as [fh1 [fs1|x]];
    try assumption.
  destruct (VdifHeader.fromfile _ _ _ _ fh1) as [fh2 [h'|x]];
    try assumption.
  now apply IH.
Qed.

(** Threads 0, 1 and 2 asked of a file that ends after threads 0 and 1,
    under Python 3: the error is that of the deleted name. *)
Lemma frameset_fromfile_incomplete_witness :
  VdifFrame.fromfile (MkHeaderParser [] []) (fun _ => Ok tt) Python3
    (list byte) (read_payload (MkHeaderParser [] [])) (fun _ _ => Ok tt)
    5 (Some [0; 1; 2]) true EdvNone true two_threads
  = Some (MkFile (content two_threads) 80, Raise UnboundLocalError).
Proof.
  refine (proj2 (proj2 (frameset_fromfile_incomplete
                          (MkHeaderParser [] []) (fun _ => Ok tt) Python3
                          (list byte)
                          (read_payload (MkHeaderParser [] []))
                          (fun _ _ => Ok tt)
                          5 [0; 1; 2] true EdvNone true two_threads
                          _ _ _ _ ExcUnbound _ _)) _).
  - reflexivity.
  - reflexivity.
  - simpl. lia.
Defined.

(** The same under Python 2: the end of the file is what is reported. *)
Example frameset_fromfile_eof_python2 :
  VdifFrame.fromfile (MkHeaderParser [] []) (fun _ => Ok tt) Python2
    (list byte) (read_payload (MkHeaderParser [] [])) (fun _ _ => Ok tt)
    5 (Some [0; 1; 2]) true EdvNone true two_threads
  = Some (MkFile (content two_threads) 80, Raise EOFError).
Proof.
  vm_compute. reflexivity.
Qed.

(** The same two threads followed by the next frame, threads 0 and 5 asked
    for: the loop ends on the frame number, and [IOError] is raised; asked
    for threads 1 and 0, the set holds both, sorted. *)
Example frameset_fromfile_missing_thread (py : python) :
  VdifFrame.fromfile (MkHeaderParser [] []) (fun _ => Ok tt) py (list byte)
    (read_payload (MkHeaderParser [] [])) (fun _ _ => Ok tt)
    5 (Some [0; 5]) true EdvNone true two_threads_and_next
  = Some (MkFile (content two_threads_and_next) 80, Raise IOError).
Proof.
  destruct py; vm_compute; reflexivity.
Qed.

Example frameset_fromfile_complete (py : python) :
  option_map
    (fun r => match snd r with
              | Ok s => Ok (map (fun f => words (frame_header f)) (frames s))
              | Raise x => Raise x
              end)
    (VdifFrame.fromfile (MkHeaderParser [] []) (fun _ => Ok tt) py
       (list byte) (read_payload (MkHeaderParser [] [])) (fun _ _ => Ok tt)
       5 (Some [1; 0]) true EdvNone true two_threads_and_next)
  = Some (Ok [edv1_words 7 0; edv1_words 7 1]).
Proof.
  destruct py; vm_compute; reflexivity.
Qed.


(** ** The frame-rate scan *)

Import FrameRate.

Lemma last_after {A : Type} (l : list A) (u d : A) :
  last (u :: l) d = last l u.
Proof.
  revert u d. induction l as [|a l IH]; intros u d; [reflexivity|].
  change (last (u :: a :: l) d) with (last (a :: l) d).
  now rewrite (IH a d), (IH a u).
Qed.

Section Scan.

Context {H : Type} `{HeaderClass H}.

Lemma frame_nr_zero_test (h : H) :
  frame_nr_is h 0 ->
  exists v, hc_getitem h "frame_nr"%string = Ok v /\
            pyval_eqb v (VInt 0) = true /\ (0 <? as_int v) = false.
Proof.
  intros (v & Hv & Hz). exists v. unfold pyval_eqb. rewrite Hz.
  now repeat split.
Qed.

Lemma frame_nr_positive_test (h : H) :
  frame_nr_positive h ->
  exists v, hc_getitem h "frame_nr"%string = Ok v /\
            pyval_eqb v (VInt 0) = false /\ (0 <? as_int v) = true.
Proof.
  intros (n & (v & Hv & Hn) & Hpos). exists v. unfold pyval_eqb.
  rewrite Hn. cbn [as_int]. repeat split; [assumption| |].
  - apply Z.eqb_neq. lia.
  - apply Z.ltb_lt. lia.
Qed.

(** The first loop passes the headers with frame number 0 and stops at the
    first one with a positive number. *)
Lemma skip_zero_run (zeros : list H) (h h1 : H) (fh fh' : file)
  (rest : list H) (fuel : nat) :
  frame_nr_is h 0 -> Forall (fun z => frame_nr_is z 0) zeros ->
  frame_nr_positive h1 ->
  reads_on h fh (zeros ++ h1 :: rest) fh' ->
  exists fh1,
    skip_zero (length zeros + 2 + fuel) h fh = Some (fh1, Ok h1) /\
    reads_on h1 fh1 rest fh'.
Proof.
  intros Hh Hzeros Hh1. revert h fh Hh.
  induction Hzeros as [|z zeros Hz _ IH]; intros h fh Hh Hreads;
    cbn [app length Nat.add] in *.
  - inversion Hreads as [|? ? ? fh1 ? ? Hnext Hrest]; subst.
    exists fh1. split; [|assumption].
    cbn [skip_zero].
    destruct (frame_nr_zero_test h Hh) as (v & -> & -> & _).
    rewrite Hnext.
    destruct (frame_nr_positive_test h1 Hh1) as (v1 & -> & -> & _).
    reflexivity.
  - inversion Hreads as [|? ? ? fh1 ? ? Hnext Hrest]; subst.
    destruct (IH z fh1 Hz Hrest) as (fh2 & Hrun & Hreads').
    exists fh2. split; [|assumption].
    cbn [skip_zero].
    destruct (frame_nr_zero_test h Hh) as (v & -> & -> & _).
    now rewrite Hnext.
Qed.

(** The second loop passes the headers with a positive frame number,
    keeping the last of these numbers, and stops at the first header
    without one. *)
Lemma count_up_run (ups : list H) (h hz : H) (fh fh' : file)
  (m0 : option Z) (last_nr : Z) (fuel : nat) :
  frame_nr_positive h -> Forall frame_nr_positive ups ->
  frame_nr_is hz 0 ->
  frame_nr_is (last ups h) last_nr ->
  reads_on h fh (ups ++ [hz]) fh' ->
  count_up (length ups + 2 + fuel) h m0 fh
  = Some (fh', Ok (hz, Some last_nr)).
Proof.
  intros Hh Hups Hhz. revert h fh m0 Hh.
  induction Hups as [|u ups Hu _ IH]; intros h fh m0 Hh Hlast Hreads;
    cbn [app length Nat.add] in *.
  - inversion Hreads as [|? ? ? fh1 ? ? Hnext Hrest]; subst.
    inversion Hrest; subst.
    cbn [count_up].
    destruct (frame_nr_positive_test h Hh) as (v & Hv & _ & Hpos).
    rewrite Hv, Hpos, Hnext.
    destruct (frame_nr_zero_test hz Hhz) as (vz & -> & _ & ->).
    destruct Hlast as (v' & Hv' & <-).
    cbn [last] in Hv'. rewrite Hv in Hv'. now injection Hv' as <-.
  - inversion Hreads as [|? ? ? fh1 ? ? Hnext Hrest]; subst.
    cbn [count_up].
    destruct (frame_nr_positive_test h Hh) as (v & Hv & _ & Hpos).
    rewrite Hv, Hpos, Hnext.
    apply IH; try assumption.
    now rewrite <- (last_after ups u h).
Qed.

(** C9, amended.  When the first header has frame number 0 and the scan
    meets further headers with frame number 0, then headers with positive
    frame numbers, then one with frame number 0 again, [get_frame_rate]
    returns one more than the frame number of the last header before that
    one -- the largest number met when the numbers do not decrease -- and
    warns, without failing, when the seconds of the two headers with frame
    number 0 do not differ by exactly 1. *)
Theorem get_frame_rate_scan (fh fh1 fh3 : file) (h0 u hz : H)
  (zeros ups : list H) (sec0 secz last_nr : Z) (fuel : nat) :
  (fh_seek 0 0 ;;> hc_fromfile) fh = (fh1, Ok h0) ->
  frame_nr_is h0 0 ->
  hc_seconds h0 = Ok sec0 ->
  (hc_contains h0 "thread_id"%string = true ->
   exists t, hc_getitem h0 "thread_id"%string = Ok t) ->
  reads_on h0 fh1 (zeros ++ u :: ups ++ [hz]) fh3 ->
  Forall (fun z => frame_nr_is z 0) zeros ->
  Forall frame_nr_positive (u :: ups) ->
  frame_nr_is (last ups u) last_nr ->
  frame_nr_is hz 0 ->
  hc_seconds hz = Ok secz ->
  (length zeros + length ups + 3 <= fuel)%nat ->
  get_frame_rate fuel None fh
  = Some (fh3, Ok (last_nr + 1,
                   if secz =? sec0 + 1 then [] else [time_changed])).
Proof.
  intros Hfirst Hh0 Hsec0 Hthread Hreads Hzeros Hups Hlast Hhz Hsecz Hfuel.
  inversion Hups as [|? ? Hu Hups']; subst.
  destruct (skip_zero_run zeros h0 u fh1 fh3 (ups ++ [hz])
              (fuel - length zeros - 2) Hh0 Hzeros Hu Hreads)
    as (fh2 & Hskip & Hreads').
  replace (length zeros + 2 + (fuel - length zeros - 2))%nat with fuel
    in Hskip by lia.
  pose proof (count_up_run ups u hz fh2 fh3 None last_nr
                (fuel - length ups - 2) Hu Hups' Hhz Hlast Hreads')
    as Hcount.
  replace (length ups + 2 + (fuel - length ups - 2))%nat with fuel
    in Hcount by lia.
  unfold get_frame_rate.
  assert (Hstart :
            (fh_seek 0 0 ;;>
             header <~ hc_fromfile ;;
             nr <~ se_lift (hc_getitem header "frame_nr"%string) ;;
             se_lift (py_assert (pyval_eqb nr (VInt 0))) ;;>
             sec0 <~ se_lift (hc_seconds header) ;;
             thread_id <~ se_lift
               (if hc_contains header "thread_id"%string
                then t <- hc_getitem header "thread_id"%string ;; Ok (Some t)
                else Ok None) ;;
             se_ret (header, sec0)) fh
            = (fh1, Ok (h0, sec0))).
  { unfold se_bind in Hfirst |- *.
    destruct (fh_seek 0 0 fh) as [fh0 [[]|x]]; [|discriminate].
    rewrite Hfirst. unfold se_lift, se_ret.
    destruct (frame_nr_zero_test h0 Hh0) as (v & -> & -> & _).
    cbn [py_assert]. rewrite Hsec0.
    destruct (hc_contains h0 "thread_id"%string); [|reflexivity].
    destruct (Hthread eq_refl) as (t & ->). reflexivity. }
  rewrite Hstart, Hskip, Hcount, Hsecz. cbn [bind].
  destruct (secz =? sec0 + 1); reflexivity.
Qed.

End Scan.

Import ExampleClass.

(** A second of four frames: the rate is 4, no warning. *)
Lemma get_frame_rate_scan_witness :
  get_frame_rate 5 None four_frames_a_second
  = Some (MkFile (content four_frames_a_second) 80, Ok (3 + 1, [])).
Proof.
  refine (get_frame_rate_scan
            four_frames_a_second (MkFile (content four_frames_a_second) 16)
            (MkFile (content four_frames_a_second) 80)
            [100; 0; 2; 0] [100; 1; 2; 0] [101; 0; 2; 0]
            [] [[100; 2; 2; 0]; [100; 3; 2; 0]] 100 101 3 5
            eq_refl _ eq_refl _ _ _ _ _ _ eq_refl _).
  - exists (VInt 0). split; reflexivity.
  - intros _. exists (VInt 0). reflexivity.
  - repeat (eapply reads_cons; [reflexivity|]). apply reads_nil.
  - constructor.
  - repeat (apply Forall_cons;
            [eexists; split; [eexists; split; reflexivity | reflexivity]|]).
    apply Forall_nil.
  - exists (VInt 3). split; reflexivity.
  - exists (VInt 0). split; reflexivity.
  - simpl. lia.
Defined.

(** C9 as stated fails when frame numbers decrease: frames 0, 5, 3, 0 give
    3 + 1, although frame number 5 was met. *)
Lemma get_frame_rate_not_the_largest :
  get_frame_rate 10 None frames_out_of_order
  = Some (MkFile (content frames_out_of_order) 64, Ok (4, []))
  /\ exists fh', next_header [100; 0; 2; 0]
                             (MkFile (content frames_out_of_order) 16)
                 = (fh', Ok [100; 5; 2; 0])
                 /\ frame_nr_is [100; 5; 2; 0] 5.
Proof.
  split; [vm_compute; reflexivity|].
  eexists. split; [vm_compute; reflexivity|].
  exists (VInt 5). split; reflexivity.
Qed.

(** Seconds that advance by 2 give a warning, not an error. *)
Example get_frame_rate_warns :
  option_map snd
    (get_frame_rate 10 None
       (MkFile (bare_frame 100 0 ++ bare_frame 100 1 ++ bare_frame 102 0) 0))
  = Some (Ok (2, [time_changed])).
Proof.
  vm_compute. reflexivity.
Qed.

(** A file that ends before the frame number is 0 again gives no rate. *)
Example get_frame_rate_short_file :
  option_map snd
    (get_frame_rate 10 None
       (MkFile (bare_frame 100 0 ++ bare_frame 100 1) 0))
  = Some (Raise EOFError).
Proof.
  vm_compute. reflexivity.
Qed.

(** ** Time to header fields: [set_time] *)

Lemma fits_range (v bl : Z) :
  0 <= bl -> 0 <= v < 2 ^ bl -> Z.land v (Z.ones bl) = v.
Proof.
  intros Hbl Hv. rewrite Z.land_ones by lia. apply Z.mod_small. lia.
Qed.

Lemma get_put_same (bi bl v w : Z) :
  0 <= bi -> 0 <= bl -> 0 <= v < 2 ^ bl ->
  get_field bi bl (put_field bi bl v w) = v.
Proof.
  intros Hbi Hbl Hv. apply stored_field; try assumption.
  now apply fits_range.
Qed.

(** Writing one field leaves a field that does not overlap it as it is. *)
Lemma get_put_other (bi bl bi' bl' v w : Z) :
  0 <= bi -> 0 <= bl -> 0 <= bi' -> 0 <= bl' -> 0 <= v < 2 ^ bl' ->
  bi + bl <= bi' \/ bi' + bl' <= bi ->
  get_field bi bl (put_field bi' bl' v w) = get_field bi bl w.
Proof.
  intros Hbi Hbl Hbi' Hbl' Hv Hapart. unfold get_field.
  apply Z.bits_inj'. intros n Hn.
  rewrite !Z.land_spec, !Z.shiftr_spec by lia.
  rewrite Z.testbit_ones_nonneg by lia.
  destruct (Z.ltb_spec n bl) as [Hlt | Hge]; [|now rewrite !andb_false_r].
  f_equal. apply stored_outside; try assumption.
  - now apply fits_range.
  - lia.
Qed.

Lemma make_setter_puts (wi : nat) (bi bl : Z) (d : option pyval)
  (ws : list Z) (v : Z) :
  (wi < length ws)%nat -> 0 <= bi -> 0 <= bl -> 0 <= v < 2 ^ bl ->
  make_setter wi bi bl d ws (Some (VInt v))
  = Ok (firstn wi ws ++ [put_field bi bl v (nth wi ws 0)]
        ++ skipn (wi + 1) ws).
Proof.
  intros Hwi Hbi Hbl Hv. apply make_setter_fits; try assumption.
  rewrite mask_is_ones by assumption. now apply fits_range.
Qed.

Lemma make_setter_overflow (wi : nat) (bi bl : Z) (d : option pyval)
  (ws : list Z) (v : Z) :
  (wi < length ws)%nat -> 0 <= bl -> ~ 0 <= v < 2 ^ bl ->
  make_setter wi bi bl d ws (Some (VInt v)) = Raise ValueError.
Proof.
  intros Hwi Hbl Hv. unfold make_setter.
  replace (match d with Some _ | _ => Some (VInt v) end)
    with (Some (VInt v)) by now destruct d.
  simpl py_int. cbn [bind].
  rewrite (getitem_in_range ws wi 0 Hwi). cbn [bind].
  unfold py_lshift.
  replace (bl <? 0) with false by (symmetry; apply Z.ltb_ge; lia).
  cbn [bind]. rewrite mask_is_ones by assumption.
  replace (Z.land v (Z.ones bl) =? v) with false; [reflexivity|].
  symmetry. apply Z.eqb_neq. intros Hfit. apply Hv.
  rewrite <- Hfit, Z.land_ones by lia. apply Z.mod_pos_bound. lia.
Qed.

(** *** Rationals *)

Lemma Qlt_bool_iff (a b : Q) : Qlt_bool a b = true <-> (a < b)%Q.
Proof.
  unfold Qlt_bool. rewrite negb_true_iff. split.
  - intros Hle. apply Qnot_le_lt. intros Hba.
    apply Qle_bool_iff in Hba. congruence.
  - intros Hlt. destruct (Qle_bool b a) eqn:Hle; [|reflexivity].
    apply Qle_bool_iff in Hle. exfalso. eapply Qlt_not_le; eassumption.
Qed.

Lemma Qlt_bool_false (a b : Q) : Qlt_bool a b = false <-> ~ (a < b)%Q.
Proof.
  rewrite <- Qlt_bool_iff. now destruct (Qlt_bool a b).
Qed.

Lemma before_iff (e t : Q) : (e - t < 0)%Q <-> (e < t)%Q.
Proof.
  split; intros Hlt.
  - apply Qlt_minus_iff. apply Qlt_minus_iff in Hlt.
    setoid_replace (t + - e)%Q with (0 + - (e - t))%Q by ring. exact Hlt.
  - apply Qlt_minus_iff. apply Qlt_minus_iff in Hlt.
    setoid_replace (0 + - (e - t))%Q with (t + - e)%Q by ring. exact Hlt.
Qed.

Lemma Qtrunc_floor (q : Q) : (0 <= q)%Q -> Qtrunc q = Qfloor q.
Proof.
  destruct q as [n d]. unfold Qle, Qtrunc, Qfloor. cbn [Qnum Qden].
  intros Hn. apply Z.quot_div_nonneg; lia.
Qed.

(** *** The reference epoch *)

(** On an increasing array, [searchsorted(a, 0)] is the number of negative
    entries, which come first. *)
Lemma searchsorted_sorted (d : list Q) :
  StronglySorted Qlt d ->
  let n := searchsorted d 0 in
  0 <= n <= Z.of_nat (length d) /\
  (forall j x, nth_error d j = Some x -> (x < 0)%Q <-> Z.of_nat j < n).
Proof.
  induction 1 as [|x0 d Hsorted IH Hall]; cbn [searchsorted length].
  - split; [lia|]. intros [|j] x; discriminate.
  - destruct (Qlt_bool x0 0) eqn:Hlt.
    + apply Qlt_bool_iff in Hlt.
      destruct IH as [Hn IH]. split; [lia|].
      intros [|j] x; cbn [nth_error].
      * intros Heq. injection Heq as Heq. subst x.
        split; [intros _; lia | intros _; exact Hlt].
      * intros Hj. rewrite (IH j x Hj). lia.
    + apply Qlt_bool_false in Hlt.
      split; [lia|].
      intros j x Hj. split; [|lia]. intros Hx. exfalso. apply Hlt.
      destruct j as [|j]; cbn [nth_error] in Hj.
      * now injection Hj as <-.
      * rewrite Forall_forall in Hall.
        apply Qlt_trans with x; [|assumption].
        apply Hall. eapply nth_error_In, Hj.
Qed.

Section SetTime.

Variable m5 : HeaderParser.

(** The three time fields are where the legacy table puts them in every
    class but the Mark 5B one, whose fields come from the absent table. *)
Lemma time_field_tables (c : vdif_class) :
  c <> VDIFMark5BHeader ->
  od_getitem (parsers (header_parser m5 c)) "ref_epoch"%string
  = make_parser 1 24 6 /\
  od_getitem (parsers (header_parser m5 c)) "seconds"%string
  = make_parser 0 0 30 /\
  od_getitem (parsers (header_parser m5 c)) "frame_nr"%string
  = make_parser 1 0 24 /\
  setters (header_parser m5 c) "ref_epoch"%string
  = Ok (make_setter 1 24 6 None) /\
  setters (header_parser m5 c) "seconds"%string
  = Ok (make_setter 0 0 30 None) /\
  setters (header_parser m5 c) "frame_nr"%string
  = Ok (make_setter 1 0 24 (Some (VInt 0))).
Proof.
  intros Hc. destruct c; try congruence; repeat split; reflexivity.
Qed.

Lemma read_time_fields (c : vdif_class) (e : edv_t) (w0 w1 : Z)
  (rest : list Z) :
  c <> VDIFMark5BHeader ->
  time_fields m5 (MkHeader c e (w0 :: w1 :: rest))
              (get_field 24 6 w1) (get_field 0 30 w0) (get_field 0 24 w1).
Proof.
  intros Hc. destruct (time_field_tables c Hc) as (Hr & Hs & Hf & _).
  unfold time_fields, h_getitem. cbn [cls words].
  rewrite Hr, Hs, Hf. repeat split; reflexivity.
Qed.

Lemma write_ref_epoch (c : vdif_class) (e : edv_t) (w0 w1 : Z)
  (rest : list Z) (v : Z) :
  c <> VDIFMark5BHeader -> 0 <= v < 2 ^ 6 ->
  h_setitem m5 "ref_epoch" (Some (VInt v)) (MkHeader c e (w0 :: w1 :: rest))
  = (MkHeader c e (w0 :: put_field 24 6 v w1 :: rest), Ok tt).
Proof.
  intros Hc Hv. destruct (time_field_tables c Hc) as (_ & _ & _ & Hr & _).
  unfold h_setitem. cbn [cls words]. rewrite Hr. cbn [bind].
  rewrite make_setter_puts by (cbn [length]; lia). reflexivity.
Qed.

Lemma write_seconds (c : vdif_class) (e : edv_t) (w0 w1 : Z)
  (rest : list Z) (v : Z) :
  c <> VDIFMark5BHeader -> 0 <= v < 2 ^ 30 ->
  h_setitem m5 "seconds" (Some (VInt v)) (MkHeader c e (w0 :: w1 :: rest))
  = (MkHeader c e (put_field 0 30 v w0 :: w1 :: rest), Ok tt).
Proof.
  intros Hc Hv.
  destruct (time_field_tables c Hc) as (_ & _ & _ & _ & Hs & _).
  unfold h_setitem. cbn [cls words]. rewrite Hs. cbn [bind].
  rewrite make_setter_puts by (cbn [length]; lia). reflexivity.
Qed.

Lemma write_frame_nr (c : vdif_class) (e : edv_t) (w0 w1 : Z)
  (rest : list Z) (v : Z) :
  c <> VDIFMark5BHeader -> 0 <= v < 2 ^ 24 ->
  h_setitem m5 "frame_nr" (Some (VInt v)) (MkHeader c e (w0 :: w1 :: rest))
  = (MkHeader c e (w0 :: put_field 0 24 v w1 :: rest), Ok tt).
Proof.
  intros Hc Hv.
  destruct (time_field_tables c Hc) as (_ & _ & _ & _ & _ & Hf).
  unfold h_setitem. cbn [cls words]. rewrite Hf. cbn [bind].
  rewrite make_setter_puts by (cbn [length]; lia). reflexivity.
Qed.

(** The fields read back after the three writes. *)
Lemma written_time_fields (c : vdif_class) (e : edv_t) (w0 w1 : Z)
  (rest : list Z) (k s n : Z) :
  c <> VDIFMark5BHeader ->
  0 <= k < 2 ^ 6 -> 0 <= s < 2 ^ 30 -> 0 <= n < 2 ^ 24 ->
  time_fields m5
    (MkHeader c e (put_field 0 30 s w0
                   :: put_field 0 24 n (put_field 24 6 k w1) :: rest))
    k s n.
Proof.
  intros Hc Hk Hs Hn.
  pose proof (read_time_fields c e (put_field 0 30 s w0)
                (put_field 0 24 n (put_field 24 6 k w1)) rest Hc) as Hread.
  rewrite get_put_other, !get_put_same in Hread by lia.
  exact Hread.
Qed.

(** The frame rate is computed from words 2, 3 and 4. *)
Lemma framerate_after_time (astro : astropy) (c : vdif_class) (e : edv_t)
  (w0 w1 w0' w1' : Z) (rest : list Z) :
  framerate m5 astro (MkHeader c e (w0' :: w1' :: rest))
  = framerate m5 astro (MkHeader c e (w0 :: w1 :: rest)).
Proof.
  destruct c; reflexivity.
Qed.

End SetTime.

Section SetTimeRun.

Variable m5 : HeaderParser.
Variable py : python.
Variable astro : astropy.
Variable ref_epochs : list (Time astro).

(** The index that [set_time] computes is the one of the last epoch before
    the time. *)
Lemma epoch_found (t : Time astro) (k : nat) (ek : Time astro) :
  StronglySorted Qlt (seconds_to_epochs astro ref_epochs t) ->
  epoch_before astro ref_epochs t k ek ->
  searchsorted (seconds_to_epochs astro ref_epochs t) 0 - 1 = Z.of_nat k.
Proof.
  intros Hsorted (Hk & Hlt & Hlast).
  destruct (searchsorted_sorted _ Hsorted) as [Hn Hiff].
  set (n := searchsorted _ 0) in *.
  assert (Hnth : forall j e, nth_error ref_epochs j = Some e ->
            nth_error (seconds_to_epochs astro ref_epochs t) j
            = Some (TimeDelta_sec astro (Time_sub astro e t))).
  { intros j e Hj. unfold seconds_to_epochs.
    now rewrite nth_error_map, Hj. }
  assert (Hkn : Z.of_nat k < n) by (apply (Hiff k _ (Hnth k ek Hk)), Hlt).
  unfold seconds_to_epochs in Hn. rewrite length_map in Hn.
  destruct (nth_error ref_epochs (Z.to_nat (n - 1))) as [e|] eqn:He.
  2:{ apply nth_error_None in He. lia. }
  assert (He' : (TimeDelta_sec astro (Time_sub astro e t) < 0)%Q)
    by (apply (Hiff _ _ (Hnth _ e He)); lia).
  specialize (Hlast _ e He He'). lia.
Qed.

(** [set_time] up to the choice of the frame number: the two fields are
    written, the rest runs on the header that holds them. *)
Lemma set_time_prefix (c : vdif_class) (e : edv_t) (w0 w1 : Z)
  (rest : list Z) (t : Time astro) (fr : option (Quantity astro))
  (k : nat) (e0 ek : Time astro) :
  c <> VDIFMark5BHeader ->
  nth_error ref_epochs 0 = Some e0 -> Time_gt astro t e0 = true ->
  StronglySorted Qlt (seconds_to_epochs astro ref_epochs t) ->
  epoch_before astro ref_epochs t k ek ->
  Z.of_nat k < 2 ^ 6 ->
  let secs := Qtrunc (TimeDelta_sec astro (Time_sub astro t ek)) in
  0 <= secs < 2 ^ 30 ->
  let frac := TimeDelta_minus_sec astro (Time_sub astro t ek) secs in
  let h2 := MkHeader c e (put_field 0 30 secs w0
                          :: put_field 24 6 (Z.of_nat k) w1 :: rest) in
  set_time m5 py astro ref_epochs t fr (MkHeader c e (w0 :: w1 :: rest))
  = if TimeDelta_below_2ns astro frac then
      h_setitem m5 "frame_nr" (Some (VInt 0)) h2
    else
      match match fr with
            | Some f => (h2, Ok f)
            | None => match framerate m5 astro h2 with
                      | Raise AttributeError => (h2, Raise ValueError)
                      | r => (h2, r)
                      end
            end with
      | (h3, Ok f) =>
          h_setitem m5 "frame_nr"
                    (Some (VInt (py_round py (cycles astro frac f)))) h3
      | (h3, Raise x) => (h3, Raise x)
      end.
Proof.
  intros Hc He0 Hgt Hsorted Hbefore Hk secs Hsecs frac h2.
  pose proof (epoch_found t k ek Hsorted Hbefore) as Hindex.
  unfold seconds_to_epochs in Hindex.
  destruct Hbefore as (Hnth & _ & _).
  unfold set_time, se_bind, se_lift, getitem. rewrite He0, Hgt.
  cbn [py_assert]. rewrite Hindex.
  rewrite write_ref_epoch by (assumption || lia).
  unfold py_index.
  replace (Z.of_nat k <? 0) with false by (symmetry; apply Z.ltb_ge; lia).
  rewrite Nat2Z.id. unfold getitem. rewrite Hnth.
  fold secs. rewrite write_seconds by assumption.
  fold frac. fold h2.
  destruct (TimeDelta_below_2ns astro frac); [reflexivity|].
  destruct fr as [f|]; [reflexivity|].
  destruct (framerate m5 astro h2) as [f|[]]; reflexivity.
Qed.

End SetTimeRun.

(** C5, amended.  On a header of any class but the Mark 5B one, with two
    words or more, [time] after the first epoch for [astropy]'s [>] and the
    seconds from [time] to the epochs, [(ref_epochs - time).sec],
    increasing: let [k] be the largest index whose epoch is strictly
    before [time] (negative seconds), [secs] the [int] of the seconds
    since that epoch, and [frac] what [astropy] leaves of them without
    [secs].  When [k] and [secs] fit their fields of 6 and 30 bits,
    [set_time] stores [k] as ['ref_epoch'] and [secs] as ['seconds']; it
    stores 0 as ['frame_nr'] when [abs(frac) < 2 ns], and otherwise
    [round] of the float [(frac * f).value], when that fits 24 bits, for
    the frame rate [f] passed in or else computed from the header, [round]
    being the one of the interpreter.  When a frame rate is needed and none
    is passed, it raises [ValueError] for a class without a frame rate, and
    otherwise what computing the frame rate raises, with [ValueError] in
    the place of [AttributeError]. *)
Theorem set_time_writes_fields (m5 : HeaderParser) (py : python)
  (astro : astropy) (ref_epochs : list (Time astro))
  (c : vdif_class) (e : edv_t) (w0 w1 : Z) (rest : list Z)
  (t : Time astro) (fr : option (Quantity astro)) (k : nat)
  (e0 ek : Time astro) :
  c <> VDIFMark5BHeader ->
  nth_error ref_epochs 0 = Some e0 -> Time_gt astro t e0 = true ->
  StronglySorted Qlt (seconds_to_epochs astro ref_epochs t) ->
  epoch_before astro ref_epochs t k ek ->
  Z.of_nat k < 2 ^ 6 ->
  let h := MkHeader c e (w0 :: w1 :: rest) in
  let secs := Qtrunc (TimeDelta_sec astro (Time_sub astro t ek)) in
  0 <= secs < 2 ^ 30 ->
  let frac := TimeDelta_minus_sec astro (Time_sub astro t ek) secs in
  (TimeDelta_below_2ns astro frac = true ->
   exists h', set_time m5 py astro ref_epochs t fr h = (h', Ok tt) /\
              time_fields m5 h' (Z.of_nat k) secs 0) /\
  (TimeDelta_below_2ns astro frac = false ->
   forall f, fr = Some f \/ (fr = None /\ framerate m5 astro h = Ok f) ->
   let n := py_round py (cycles astro frac f) in
   0 <= n < 2 ^ 24 ->
   exists h', set_time m5 py astro ref_epochs t fr h = (h', Ok tt) /\
              time_fields m5 h' (Z.of_nat k) secs n) /\
  (TimeDelta_below_2ns astro frac = false -> fr = None ->
   (has_framerate c = false ->
    snd (set_time m5 py astro ref_epochs t fr h) = Raise ValueError) /\
   (forall x, framerate m5 astro h = Raise x ->
              snd (set_time m5 py astro ref_epochs t fr h)
              = Raise (match x with
                       | AttributeError => ValueError
                       | _ => x
                       end))).
Proof.
  intros Hc He0 Hgt Hsorted Hbefore Hk h secs Hsecs frac.
  pose proof (set_time_prefix m5 py astro ref_epochs c e w0 w1 rest t fr k
                e0 ek Hc He0 Hgt Hsorted Hbefore Hk Hsecs) as Hrun.
  cbv zeta in Hrun. fold secs frac in Hrun. fold h in Hrun.
  rewrite (framerate_after_time m5 astro c e w0 w1) in Hrun.
  fold h in Hrun.
  split; [|split].
  - intros Hsmall. rewrite Hsmall in Hrun. rewrite Hrun.
    rewrite write_frame_nr by (assumption || lia).
    eexists. split; [reflexivity|].
    apply written_time_fields; (assumption || lia).
  - intros Hlarge f Hrate n Hfits. rewrite Hlarge in Hrun. rewrite Hrun.
    assert (Hf : match fr with
                 | Some f => (MkHeader c e (put_field 0 30 secs w0
                     :: put_field 24 6 (Z.of_nat k) w1 :: rest), Ok f)
                 | None =>
                     match framerate m5 astro h with
                     | Raise AttributeError =>
                         (MkHeader c e (put_field 0 30 secs w0
                            :: put_field 24 6 (Z.of_nat k) w1 :: rest),
                          Raise ValueError)
                     | r => (MkHeader c e (put_field 0 30 secs w0
                               :: put_field 24 6 (Z.of_nat k) w1 :: rest), r)
                     end
                 end
                 = (MkHeader c e (put_field 0 30 secs w0
                      :: put_field 24 6 (Z.of_nat k) w1 :: rest), Ok f)).
    { destruct Hrate as [-> | [-> Hrate]]; [reflexivity|].
      now rewrite Hrate. }
    rewrite Hf. fold n. rewrite write_frame_nr by (assumption || lia).
    eexists. split; [reflexivity|].
    apply written_time_fields; (assumption || lia).
  - intros Hlarge ->. rewrite Hlarge in Hrun. rewrite Hrun. split.
    + intros Hnone. unfold framerate. cbn [cls h]. rewrite Hnone.
      reflexivity.
    + intros x Hraise. rewrite Hraise. destruct x; reflexivity.
Qed.

(** Half-year starts in seconds, and the seconds from two times to them,
    are increasing. *)
Lemma example_seconds_sorted (t : Q) :
  StronglySorted Qlt example_ref_epochs ->
  StronglySorted Qlt (seconds_to_epochs exact_astropy example_ref_epochs t).
Proof.
  unfold seconds_to_epochs. cbn [exact_astropy Time_sub TimeDelta_sec].
  induction 1 as [|x l Hsorted IH Hall]; cbn [map]; constructor.
  - exact IH.
  - apply Forall_map. eapply Forall_impl; [|exact Hall].
    intros y Hxy. cbv beta. unfold Qminus.
    apply Qplus_lt_l. exact Hxy.
Qed.

Lemma example_ref_epochs_sorted : StronglySorted Qlt example_ref_epochs.
Proof.
  unfold example_ref_epochs.
  repeat (apply SSorted_cons;
          [|repeat (apply Forall_cons; [reflexivity|]); apply Forall_nil]).
  apply SSorted_nil.
Qed.

Lemma set_time_writes_fields_witness :
  exists h',
    set_time (MkHeaderParser [] []) Python3 exact_astropy example_ref_epochs
             (31449603 # 2) (Some 4%Q)
             (MkHeader VDIFHeader1 (EdvInt 1) (edv1_words 0 0))
    = (h', Ok tt) /\
    time_fields (MkHeaderParser [] []) h' 1 1 2.
Proof.
  refine (proj1 (proj2 (set_time_writes_fields
                          (MkHeaderParser [] []) Python3 exact_astropy
                          example_ref_epochs
                          VDIFHeader1 (EdvInt 1) 100 0
                          [5; 0; 0x01000000; 0xACABFEED; 0; 0]
                          (31449603 # 2) (Some 4%Q) 1%nat 0%Q 15724800%Q
                          _ _ _ _ _ _ _)) _ 4%Q _ _).
  - discriminate.
  - reflexivity.
  - reflexivity.
  - exact (example_seconds_sorted _ example_ref_epochs_sorted).
  - split; [reflexivity|]. split; [reflexivity|].
    intros j e' Hj Hlt.
    destruct j as [|[|[|[|[|j]]]]]; try lia;
      cbn in Hj; try (destruct j; discriminate);
      injection Hj as <-; discriminate Hlt.
  - reflexivity.
  - split; [discriminate | reflexivity].
  - reflexivity.
  - left. reflexivity.
  - split; [discriminate | reflexivity].
Defined.

(** A quarter of a second and an eighth past the second epoch, at four
    frames a second: the half frame is rounded to frame 1 by Python 2 and
    to frame 0 by Python 3. *)
Example set_time_half_frame :
  (exists h',
      set_time (MkHeaderParser [] []) Python2 exact_astropy
               example_ref_epochs (125798409 # 8) (Some 4%Q)
               (MkHeader VDIFHeader1 (EdvInt 1) (edv1_words 0 0))
      = (h', Ok tt) /\
      time_fields (MkHeaderParser [] []) h' 1 1 1) /\
  (exists h',
      set_time (MkHeaderParser [] []) Python3 exact_astropy
               example_ref_epochs (125798409 # 8) (Some 4%Q)
               (MkHeader VDIFHeader1 (EdvInt 1) (edv1_words 0 0))
      = (h', Ok tt) /\
      time_fields (MkHeaderParser [] []) h' 1 1 0).
Proof.
  split; eexists; (split; [vm_compute; reflexivity|]);
    repeat split; vm_compute; reflexivity.
Qed.

(** At a time that is a reference epoch, here the second one, the index
    stored is the one of the epoch before and the seconds are the whole
    half year, under either interpreter. *)
Lemma set_time_at_an_epoch_run (py : python) :
  exists h',
    set_time (MkHeaderParser [] []) py exact_astropy example_ref_epochs
             15724800%Q None
             (MkHeader VDIFHeader1 (EdvInt 1) (edv1_words 0 0))
    = (h', Ok tt) /\
    time_fields (MkHeaderParser [] []) h' 0 15724800 0 /\
    ~ time_fields (MkHeaderParser [] []) h' 1 0 0.
Proof.
  assert (Hbefore : epoch_before exact_astropy example_ref_epochs
                                 15724800%Q 0 0%Q).
  { split; [reflexivity|]. split; [reflexivity|].
    intros j e' Hj Hlt.
    destruct j as [|[|[|[|[|j]]]]]; try lia;
      cbn in Hj; try (destruct j; discriminate);
      injection Hj as <-; discriminate Hlt. }
  assert (Hc : VDIFHeader1 <> VDIFMark5BHeader) by discriminate.
  pose proof (set_time_prefix (MkHeaderParser [] []) py exact_astropy
                example_ref_epochs
                VDIFHeader1 (EdvInt 1) 100 0
                [5; 0; 0x01000000; 0xACABFEED; 0; 0]
                15724800%Q None 0%nat 0%Q 0%Q Hc eq_refl eq_refl
                (example_seconds_sorted _ example_ref_epochs_sorted)
                Hbefore eq_refl
                ltac:(split; [discriminate | reflexivity])) as Hrun.
  cbv zeta in Hrun.
  change (TimeDelta_below_2ns exact_astropy _) with true in Hrun.
  rewrite write_frame_nr in Hrun
    by (assumption || (split; discriminate || reflexivity)).
  eexists. split; [exact Hrun|].
  match goal with
  | |- time_fields ?m ?hh _ _ _ /\ _ =>
      assert (Hfields : time_fields m hh 0 15724800 0)
  end.
  { refine (written_time_fields (MkHeaderParser [] []) VDIFHeader1
              (EdvInt 1) 100 0 _ 0 15724800 0 Hc _ _ _);
      split; discriminate || reflexivity. }
  split; [exact Hfields|].
  intros [Hindex _]. destruct Hfields as [Hzero _].
  rewrite Hzero in Hindex. discriminate Hindex.
Qed.

Lemma set_time_at_an_epoch :
  nth_error example_ref_epochs 1 = Some 15724800%Q /\
  (15724800 <= 15724800)%Q /\
  seconds_to_epochs exact_astropy example_ref_epochs 15724800%Q
  = [0 - 15724800; 15724800 - 15724800; 31622400 - 15724800;
     47260800 - 15724800; 63158400 - 15724800]%Q /\
  exists h',
    set_time (MkHeaderParser [] []) Python3 exact_astropy example_ref_epochs
             15724800%Q None
             (MkHeader VDIFHeader1 (EdvInt 1) (edv1_words 0 0))
    = (h', Ok tt) /\
    time_fields (MkHeaderParser [] []) h' 0 15724800 0 /\
    ~ time_fields (MkHeaderParser [] []) h' 1 0 0.
Proof.
  split; [reflexivity|]. split; [discriminate|]. split; [reflexivity|].
  exact (set_time_at_an_epoch_run Python3).
Qed.

(** ** Binary-coded decimals *)

Import Bcd.

Lemma low_digit (d x : Z) :
  0 <= d < 16 -> 0 <= x ->
  Z.land (d + 16 * x) 15 = d /\ Z.shiftr (d + 16 * x) 4 = x.
Proof.
  intros Hd Hx. change 15 with (Z.ones 4).
  rewrite Z.land_ones, Z.shiftr_div_pow2 by lia.
  change (2 ^ 4) with 16. split.
  - symmetry. apply (Z.mod_unique_pos _ 16 x); lia.
  - symmetry. apply (Z.div_unique_pos _ 16 x d); lia.
Qed.

Lemma hex_split (x : Z) :
  0 <= x ->
  x = Z.land x 15 + 16 * Z.shiftr x 4 /\ 0 <= Z.land x 15 < 16 /\
  0 <= Z.shiftr x 4.
Proof.
  intros Hx. change 15 with (Z.ones 4).
  rewrite Z.land_ones, Z.shiftr_div_pow2 by lia.
  change (2 ^ 4) with 16.
  pose proof (Z.div_mod x 16 ltac:(lia)).
  pose proof (Z.mod_pos_bound x 16 ltac:(lia)).
  pose proof (Z.div_pos x 16 Hx ltac:(lia)). lia.
Qed.

Lemma bcd_encode_loop_step (fuel : nat) (v r f : Z) :
  0 < v ->
  bcd_encode_loop (S fuel) v r f =
  bcd_encode_loop fuel (v / 10) (r + v mod 10 * f) (f * 16).
Proof.
  intros Hv. cbn [bcd_encode_loop].
  now replace (0 <? v) with true by (symmetry; apply Z.ltb_lt; lia).
Qed.

Lemma bcd_decode_loop_step (fuel : nat) (x r f : Z) :
  0 < x -> 0 <= Z.land x 15 <= 9 ->
  bcd_decode_loop (S fuel) x r f =
  bcd_decode_loop fuel (Z.shiftr x 4) (r + Z.land x 15 * f) (f * 10).
Proof.
  intros Hx Hd. cbn [bcd_decode_loop]. change 0xf with 15.
  replace (0 <? x) with true by (symmetry; apply Z.ltb_lt; lia).
  replace ((0 <=? Z.land x 15) && (Z.land x 15 <=? 9)) with true
    by (symmetry; apply andb_true_iff; split; apply Z.leb_le; lia).
  reflexivity.
Qed.

Lemma bcd_decode_loop_bad (fuel : nat) (x r f : Z) :
  0 < x -> 9 < Z.land x 15 ->
  bcd_decode_loop (S fuel) x r f = Some (Raise ValueError).
Proof.
  intros Hx Hd. cbn [bcd_decode_loop]. change 0xf with 15.
  replace (0 <? x) with true by (symmetry; apply Z.ltb_lt; lia).
  replace (Z.land x 15 <=? 9) with false by (symmetry; apply Z.leb_gt; lia).
  now rewrite andb_false_r.
Qed.

Lemma bcd_loops_end (fuel : nat) (r f : Z) :
  bcd_encode_loop (S fuel) 0 r f = Some r /\
  bcd_decode_loop (S fuel) 0 r f = Some (Ok r).
Proof.
  split; reflexivity.
Qed.

(** Encoding [n] and decoding what was encoded, run side by side. *)
Lemma bcd_loops_forth (fuel : nat) :
  forall n r f r' f',
    0 <= n < 2 ^ Z.of_nat fuel ->
    exists x,
      0 <= x /\ (0 < n -> 0 < x) /\
      bcd_encode_loop (S fuel) n r f = Some (r + f * x) /\
      bcd_decode_loop (S fuel) x r' f' = Some (Ok (r' + f' * n)).
Proof.
  induction fuel as [|fuel IH]; intros n r f r' f' Hn.
  - assert (n = 0) by (change (2 ^ Z.of_nat 0) with 1 in Hn; lia). subst n.
    exists 0.
    destruct (bcd_loops_end 0 r f) as [-> _].
    destruct (bcd_loops_end 0 r' f') as [_ ->].
    repeat split; try lia; do 2 f_equal; lia.
  - destruct (Z.ltb_spec 0 n) as [Hpos | Hzero].
    + pose proof (Z.div_mod n 10 ltac:(lia)) as Hdm.
      pose proof (Z.mod_pos_bound n 10 ltac:(lia)) as Hd.
      assert (Hq : 0 <= n / 10 < 2 ^ Z.of_nat fuel).
      { split; [apply Z.div_pos; lia|].
        apply Z.div_lt_upper_bound; [lia|].
        rewrite Nat2Z.inj_succ, Z.pow_succ_r in Hn by lia. lia. }
      destruct (IH (n / 10) (r + n mod 10 * f) (f * 16)
                   (r' + n mod 10 * f') (f' * 10) Hq)
        as (x & Hx & Hxpos & Henc & Hdec).
      exists (n mod 10 + 16 * x).
      destruct (low_digit (n mod 10) x ltac:(lia) Hx) as [Hland Hshift].
      assert (Hxx : 0 < n mod 10 + 16 * x).
      { destruct (Z.eq_dec (n mod 10) 0); [|lia].
        assert (0 < n / 10) by lia. specialize (Hxpos ltac:(lia)). lia. }
      split; [lia|]. split; [intros _; exact Hxx|]. split.
      * rewrite bcd_encode_loop_step, Henc by lia. f_equal. ring.
      * rewrite bcd_decode_loop_step by lia.
        rewrite Hland, Hshift, Hdec. do 2 f_equal.
        rewrite Hdm at 3. ring.
    + assert (n = 0) by lia. subst n. exists 0.
      destruct (bcd_loops_end (S fuel) r f) as [-> _].
      destruct (bcd_loops_end (S fuel) r' f') as [_ ->].
      repeat split; try lia; do 2 f_equal; lia.
Qed.

(** X1.  For every [n >= 0], [bcd_encode n] ends and
    [bcd_decode] gives [n] back from its result; [fuel] bounds the number
    of binary digits of [n]. *)
Theorem bcd_decode_encode (fuel : nat) (n : Z) :
  0 <= n < 2 ^ Z.of_nat fuel ->
  exists x, bcd_encode (S fuel) n = Some x /\
            bcd_decode (S fuel) x = Some (Ok n).
Proof.
  intros Hn.
  destruct (bcd_loops_forth fuel n 0 1 0 1 Hn) as (x & _ & _ & Henc & Hdec).
  exists x. unfold bcd_encode, bcd_decode. rewrite Henc, Hdec.
  split; repeat f_equal; lia.
Qed.

Lemma bcd_decode_encode_witness :
  exists x, bcd_encode 16 19801 = Some x /\ bcd_decode 16 x = Some (Ok 19801).
Proof.
  apply (bcd_decode_encode 15 19801). split; [lia | reflexivity].
Defined.

(** Decoding [x] and encoding what was decoded, side by side. *)
Lemma bcd_loops_back (fuel : nat) :
  forall x r' f' y,
    0 <= x ->
    bcd_decode_loop fuel x r' f' = Some (Ok y) ->
    exists n,
      0 <= n /\ (0 < x -> 0 < n) /\ y = r' + f' * n /\
      forall r f, bcd_encode_loop fuel n r f = Some (r + f * x).
Proof.
  induction fuel as [|fuel IH]; intros x r' f' y Hx Hdec; [discriminate|].
  cbn [bcd_decode_loop] in Hdec.
  destruct (Z.ltb_spec 0 x) as [Hpos | Hzero].
  - change 0xf with 15 in Hdec.
    destruct (hex_split x Hx) as (Hsplit & Hd & Hs).
    destruct ((0 <=? Z.land x 15) && (Z.land x 15 <=? 9)) eqn:Hdigit;
      [|discriminate].
    cbn [negb] in Hdec.
    apply andb_true_iff in Hdigit as [_ Hnine]. apply Z.leb_le in Hnine.
    destruct (IH _ _ _ _ Hs Hdec) as (n & Hn & Hnpos & Hy & Henc).
    set (d := Z.land x 15) in *. set (x' := Z.shiftr x 4) in *.
    exists (d + 10 * n).
    assert (Hnn : 0 < d + 10 * n).
    { destruct (Z.eq_dec d 0); [|lia].
      assert (0 < x') by lia. specialize (Hnpos ltac:(lia)). lia. }
    split; [lia|]. split; [intros _; exact Hnn|]. split; [subst y; ring|].
    intros r f. cbn [bcd_encode_loop].
    replace (0 <? d + 10 * n) with true by (symmetry; apply Z.ltb_lt; lia).
    replace ((d + 10 * n) mod 10) with d
      by (apply (Z.mod_unique_pos _ 10 n); lia).
    replace ((d + 10 * n) / 10) with n
      by (apply (Z.div_unique_pos _ 10 n d); lia).
    rewrite Henc. f_equal.
    transitivity (r + f * (d + 16 * x')); [ring | now rewrite <- Hsplit].
  - assert (x = 0) by lia. subst x. injection Hdec as <-.
    exists 0. repeat split; try lia.
    intros r f. cbn. f_equal. lia.
Qed.

(** X2.  When [bcd_decode] accepts [x >= 0] and gives
    [n], [bcd_encode n] ends within as many iterations and gives [x]:
    no two values decode to the same number. *)
Theorem bcd_encode_decode (fuel : nat) (x n : Z) :
  0 <= x ->
  bcd_decode fuel x = Some (Ok n) ->
  bcd_encode fuel n = Some x.
Proof.
  intros Hx Hdec.
  destruct (bcd_loops_back fuel x 0 1 n Hx Hdec) as (m & _ & _ & Hn & Henc).
  assert (m = n) by lia. subst m.
  unfold bcd_encode. rewrite Henc. f_equal. lia.
Qed.

Lemma bcd_encode_decode_witness : bcd_encode 4 821 = Some 0x821.
Proof.
  apply (bcd_encode_decode 4 0x821 821); [lia | reflexivity].
Defined.

(** Decoding ends within [fuel] iterations on a value below [16 ^ fuel], and
    fails exactly when a hexadecimal digit is above 9. *)
Lemma bcd_decode_loop_total (fuel : nat) :
  forall x r f,
    0 <= x < 16 ^ Z.of_nat fuel ->
    (exists y, bcd_decode_loop (S fuel) x r f = Some (Ok y)) /\
    (forall k, 0 <= k -> Z.land (Z.shiftr x (4 * k)) 15 <= 9)
    \/
    bcd_decode_loop (S fuel) x r f = Some (Raise ValueError) /\
    (exists k, 0 <= k /\ 9 < Z.land (Z.shiftr x (4 * k)) 15).
Proof.
  induction fuel as [|fuel IH]; intros x r f Hx.
  - assert (x = 0) by (change (16 ^ Z.of_nat 0) with 1 in Hx; lia). subst x.
    left. split; [now exists r|].
    intros k Hk. rewrite Z.shiftr_0_l. cbn. lia.
  - cbn [bcd_decode_loop].
    destruct (Z.ltb_spec 0 x) as [Hpos | Hzero].
    + change 0xf with 15.
      destruct (hex_split x ltac:(lia)) as (Hsplit & Hd & Hs).
      destruct (Z.leb_spec (Z.land x 15) 9) as [Hnine | Hhigh].
      * replace (0 <=? Z.land x 15) with true
          by (symmetry; apply Z.leb_le; lia).
        cbn [andb negb].
        assert (Hx' : 0 <= Z.shiftr x 4 < 16 ^ Z.of_nat fuel).
        { split; [lia|].
          rewrite Nat2Z.inj_succ, Z.pow_succ_r in Hx by lia. lia. }
        destruct (IH (Z.shiftr x 4) (r + Z.land x 15 * f) (f * 10) Hx')
          as [[Hok Hall] | [Hraise (k & Hk & Hbad)]].
        -- left. split; [exact Hok|].
           intros k Hk. destruct (Z.eq_dec k 0) as [-> | Hk0].
           ++ now rewrite Z.shiftr_0_r.
           ++ specialize (Hall (k - 1) ltac:(lia)).
              rewrite Z.shiftr_shiftr in Hall by lia.
              now replace (4 + 4 * (k - 1)) with (4 * k) in Hall by lia.
        -- right. split; [exact Hraise|].
           exists (k + 1). split; [lia|].
           rewrite Z.shiftr_shiftr in Hbad by lia.
           now replace (4 + 4 * k) with (4 * (k + 1)) in Hbad by lia.
      * replace (Z.land x 15 <=? 9) with false
          by (symmetry; apply Z.leb_gt; lia).
        rewrite andb_false_r. cbn [negb].
        right. split; [reflexivity|].
        exists 0. split; [lia|]. now rewrite Z.shiftr_0_r.
    + assert (x = 0) by lia. subst x.
      left. split; [now exists r|].
      intros k Hk. rewrite Z.shiftr_0_l. cbn. lia.
Qed.

(** X3.  On a value from 0 to below [16 ^ fuel], [bcd_decode]
    ends, with a number or with [ValueError]; it raises [ValueError] exactly
    when one of the hexadecimal digits of the value is above 9. *)
Theorem bcd_decode_invalid_digit (fuel : nat) (x : Z) :
  0 <= x < 16 ^ Z.of_nat fuel ->
  (exists r, bcd_decode (S fuel) x = Some r) /\
  (bcd_decode (S fuel) x = Some (Raise ValueError) <->
   exists k, 0 <= k /\ 9 < Z.land (Z.shiftr x (4 * k)) 15).
Proof.
  intros Hx. unfold bcd_decode.
  destruct (bcd_decode_loop_total fuel x 0 1 Hx)
    as [[[y Hok] Hall] | [Hraise Hbad]].
  - split; [now exists (Ok y)|]. split.
    + rewrite Hok. discriminate.
    + intros (k & Hk & Hbad). specialize (Hall k Hk). lia.
  - split; [now exists (Raise ValueError)|]. split; [now intros _|].
    now intros _.
Qed.

Lemma bcd_decode_invalid_digit_witness :
  (exists r, bcd_decode 4 0x1A1 = Some r) /\
  (bcd_decode 4 0x1A1 = Some (Raise ValueError) <->
   exists k, 0 <= k /\ 9 < Z.land (Z.shiftr 0x1A1 (4 * k)) 15).
Proof.
  apply (bcd_decode_invalid_digit 3 0x1A1). split; [lia | reflexivity].
Defined.

(** ** Reading a header: the three ways [VDIFHeader.fromfile] ends *)

Import VlbiHelpers VdifHeader.

(** X4.  With fewer than 32 bytes ahead,
    [VDIFHeader.fromfile] raises [EOFError], whatever [edv] and [verify]
    are, and leaves the reader at the end of what it could read. *)
Theorem fromfile_eof (m5 : HeaderParser)
  (time_agrees : list Z -> result unit) (e : edv_t) (v : bool) (fh : file) :
  (length (skipn (Z.to_nat (pos fh)) (content fh)) < 32)%nat ->
  fromfile m5 time_agrees e v fh
  = (MkFile (content fh)
            (pos fh
             + Z.of_nat (length (skipn (Z.to_nat (pos fh)) (content fh)))),
     Raise EOFError).
Proof.
  intros Hshort. unfold fromfile, se_bind, fh_read.
  change (32 <? 0) with false. cbn iota.
  rewrite firstn_all2 by (change (Z.to_nat 32) with 32%nat; lia).
  replace (length (skipn (Z.to_nat (pos fh)) (content fh)) =? 32)%nat
    with false by (symmetry; apply Nat.eqb_neq; lia).
  reflexivity.
Qed.

Lemma fromfile_eof_witness :
  fromfile (MkHeaderParser [] []) (fun _ => Ok tt) EdvNone true
           (MkFile (struct_pack legacy_words) 0)
  = (MkFile (struct_pack legacy_words) 16, Raise EOFError).
Proof.
  apply (fromfile_eof (MkHeaderParser [] []) (fun _ => Ok tt) EdvNone true
                      (MkFile (struct_pack legacy_words) 0)).
  cbn. lia.
Defined.

(** Words without the legacy bit, passed to [VDIFHeader] with
    [edv=None]: the class is looked up under the EDV byte of word 4; under
    [0] the dictionary finds the entry of [False], the legacy class, whose
    [__init__] puts [None] in [edv]. *)
Lemma call_not_legacy (m5 : HeaderParser)
  (time_agrees : list Z -> result unit) (w0 w1 w2 w3 w4 : Z)
  (rest : list Z) :
  Z.testbit w0 30 = false ->
  VDIFHeader_call m5 time_agrees (w0 :: w1 :: w2 :: w3 :: w4 :: rest)
                  EdvNone false
  = Ok (MkHeader (class_of_edv (EdvInt (get_field 24 8 w4)))
                 (if get_field 24 8 w4 =? 0 then EdvNone
                  else EdvInt (get_field 24 8 w4))
                 (w0 :: w1 :: w2 :: w3 :: w4 :: rest)).
Proof.
  intros Hbit. unfold VDIFHeader_call, VDIFHeader_new.
  rewrite is_legacy_header_bit, Hbit. cbn [truthy bind].
  change (get_header_edv (w0 :: w1 :: w2 :: w3 :: w4 :: rest))
    with (Ok (VInt (get_field 24 8 w4))).
  cbn [bind as_int fst snd]. unfold VDIFHeader_init. cbn [bind].
  destruct (get_field 24 8 w4) as [|p|p] eqn:HE; [reflexivity | |reflexivity].
  cbn [Z.eqb].
  destruct (class_of_edv (EdvInt (Z.pos p))) eqn:Hc; try reflexivity.
  exfalso. revert Hc. unfold class_of_edv.
  repeat (destruct p as [p|p|]; try discriminate).
Qed.

Lemma edv_not_false (w4 : Z) :
  edv_is_false (if get_field 24 8 w4 =? 0 then EdvNone
                else EdvInt (get_field 24 8 w4)) = false.
Proof.
  now destruct (get_field 24 8 w4 =? 0).
Qed.

(** X5.  With 32 bytes ahead whose word 0 has bit 30
    clear, [VDIFHeader.fromfile(fh)] returns a header with the eight words
    read, of the class that [vdif_header_classes] has under the EDV byte
    (bits 24 to 31 of word 4; the legacy class under 0, with [edv] reset to
    [None]), and leaves the reader 32 bytes further; with [verify=True] the
    outcome is that of [verify] on this header. *)
Theorem fromfile_reads_eight_words (m5 : HeaderParser)
  (time_agrees : list Z -> result unit) (v : bool) (fh : file)
  (s rest : list byte) :
  skipn (Z.to_nat (pos fh)) (content fh) = s ++ rest ->
  length s = 32%nat ->
  Z.testbit (le_word (firstn 4 s)) 30 = false ->
  let E := get_field 24 8 (nth 4 (le_words 8 s) 0) in
  let h := MkHeader (class_of_edv (EdvInt E))
                    (if E =? 0 then EdvNone else EdvInt E)
                    (le_words 8 s) in
  fromfile m5 time_agrees EdvNone v fh
  = (MkFile (content fh) (pos fh + 32),
     if v then verify m5 time_agrees h ;;; Ok h else Ok h).
Proof.
  intros Hahead Hlen Hbit E h.
  pose proof (fh_read_ahead fh s rest 32 Hahead Hlen) as Hread.
  change (Z.of_nat 32) with 32 in Hread.
  unfold fromfile, se_bind. rewrite Hread, Hlen. cbn [Nat.eqb negb].
  unfold se_lift, struct_unpack. rewrite Hlen. cbn [Nat.eqb Nat.mul Nat.add].
  subst h E. cbn [le_words nth] in *.
  rewrite (call_not_legacy m5 time_agrees _ _ _ _ _ _ Hbit).
  cbn [edv]. rewrite edv_not_false. unfold se_ret.
  destruct v; [|reflexivity].
  match goal with
  | |- context [verify m5 time_agrees ?h] =>
      destruct (verify m5 time_agrees h) as [[]|x]
  end; reflexivity.
Qed.

Lemma fromfile_reads_eight_words_witness :
  fromfile (MkHeaderParser [] []) (fun _ => Ok tt) EdvNone true
           (MkFile (edv1_frame 0 0) 0)
  = (MkFile (edv1_frame 0 0) 32,
     Ok (MkHeader VDIFHeader1 (EdvInt 1) (edv1_words 0 0))).
Proof.
  refine (fromfile_reads_eight_words
            (MkHeaderParser [] []) (fun _ => Ok tt) true
            (MkFile (edv1_frame 0 0) 0)
            (struct_pack (edv1_words 0 0)) (repeat x00 8) _ _ _).
  - reflexivity.
  - reflexivity.
  - reflexivity.
Defined.

(** X6.  With 32 bytes ahead and [edv=False],
    [VDIFHeader.fromfile] returns a legacy header with the first four words
    and leaves the reader 16 bytes further, just behind them; with
    [verify=True] it raises [AssertionError] there instead when bit 30 of
    word 0 is clear. *)
Theorem fromfile_legacy_four_words (m5 : HeaderParser)
  (time_agrees : list Z -> result unit) (v : bool) (fh : file)
  (s rest : list byte) :
  skipn (Z.to_nat (pos fh)) (content fh) = s ++ rest ->
  length s = 32%nat ->
  0 <= pos fh ->
  fromfile m5 time_agrees EdvFalse v fh
  = (MkFile (content fh) (pos fh + 16),
     if v && negb (Z.testbit (le_word (firstn 4 s)) 30)
     then Raise AssertionError
     else Ok (MkHeader VDIFLegacyHeader EdvFalse (le_words 4 s))).
Proof.
  intros Hahead Hlen Hpos.
  pose proof (fh_read_ahead fh s rest 32 Hahead Hlen) as Hread.
  change (Z.of_nat 32) with 32 in Hread.
  unfold fromfile, se_bind. rewrite Hread, Hlen. cbn [Nat.eqb negb].
  unfold se_lift, struct_unpack. rewrite Hlen. cbn [Nat.eqb Nat.mul Nat.add].
  change (VDIFHeader_call m5 time_agrees (le_words 8 s) EdvFalse false)
    with (Ok (MkHeader VDIFLegacyHeader EdvFalse (le_words 8 s))).
  cbn [edv edv_is_false].
  rewrite fh_seek_current by (cbn [pos]; lia).
  unfold se_ret, set_words. cbn [cls edv words pos content].
  change (firstn 4 (le_words 8 s)) with (le_words 4 s).
  replace (pos fh + 32 + -16) with (pos fh + 16) by lia.
  destruct v; [|reflexivity]. cbn [andb].
  unfold verify, verify_legacy. cbn [cls edv edv_is_false py_assert bind].
  cbn [le_words].
  change (h_getitem m5 (MkHeader VDIFLegacyHeader EdvFalse ?ws) "legacy_mode")
    with (is_legacy_header ws).
  rewrite is_legacy_header_bit. cbn [bind truthy words].
  destruct (Z.testbit (le_word (firstn 4 s)) 30); reflexivity.
Qed.

Lemma fromfile_legacy_four_words_witness :
  fromfile (MkHeaderParser [] []) (fun _ => Ok tt) EdvFalse true legacy_file
  = (MkFile (content legacy_file) 16,
     Ok (MkHeader VDIFLegacyHeader EdvFalse legacy_words)).
Proof.
  refine (fromfile_legacy_four_words
            (MkHeaderParser [] []) (fun _ => Ok tt) true legacy_file
            (struct_pack legacy_words ++ repeat x00 16) (repeat x00 8)
            _ _ _).
  - reflexivity.
  - reflexivity.
  - discriminate.
Defined.

(** ** Track reordering on a big-endian host *)

Import Np Mark4Payload.

Lemma reorder64_big_bit (x n : Z) :
  Z.testbit (reorder64_big x) n
  = moved_bits 0x55AA55AA55AA55AA 0xAA00AA00AA00AA00 0x0055005500550055
               9 64 (Z.testbit x) n.
Proof.
  unfold moved_bits. destruct (Z.leb_spec 0 n) as [Hn | Hn].
  - unfold reorder64_big, uint64.
    rewrite !Z.lor_spec, uint_bit, Z.shiftr_spec, Z.shiftl_spec by lia.
    now rewrite !Z.land_spec.
  - now rewrite Z.testbit_neg_r.
Qed.

Lemma reorder32_big_bit (x n : Z) :
  Z.testbit (reorder32_big x) n
  = moved_bits 0x55AA55AA 0xAA00AA00 0x00550055 9 32 (Z.testbit x) n.
Proof.
  unfold moved_bits. destruct (Z.leb_spec 0 n) as [Hn | Hn].
  - unfold reorder32_big, uint32.
    rewrite !Z.lor_spec, uint_bit, Z.shiftr_spec, Z.shiftl_spec by lia.
    now rewrite !Z.land_spec.
  - now rewrite Z.testbit_neg_r.
Qed.

Lemma moved_twice_64_big (f : Z -> bool) (n : Z) :
  0 <= n < 64 ->
  moved_bits 0x55AA55AA55AA55AA 0xAA00AA00AA00AA00 0x0055005500550055 9 64
    (moved_bits 0x55AA55AA55AA55AA 0xAA00AA00AA00AA00 0x0055005500550055
                9 64 f) n
  = f n.
Proof.
  revert n. apply (each_position 64). intros i Hi.
  do 64 (destruct i as [|i]; [settle_bits f|]). lia.
Qed.

Lemma moved_twice_32_big (f : Z -> bool) (n : Z) :
  0 <= n < 32 ->
  moved_bits 0x55AA55AA 0xAA00AA00 0x00550055 9 32
    (moved_bits 0x55AA55AA 0xAA00AA00 0x00550055 9 32 f) n
  = f n.
Proof.
  revert n. apply (each_position 32). intros i Hi.
  do 32 (destruct i as [|i]; [settle_bits f|]). lia.
Qed.

(** X7.  The branch of [reorder64] and [reorder32]
    taken on a big-endian host, which swaps the bit groups nine places
    apart, is an involution on the words of its width too. *)
Theorem reorder_big_involutive :
  (forall x, 0 <= x < 2 ^ 64 -> reorder64_big (reorder64_big x) = x) /\
  (forall x, 0 <= x < 2 ^ 32 -> reorder32_big (reorder32_big x) = x).
Proof.
  split; intros x Hx; apply Z.bits_inj'; intros n Hn.
  - rewrite reorder64_big_bit.
    rewrite (moved_bits_ext _ _ _ _ _ _ _ _ (reorder64_big_bit x)).
    destruct (Z.lt_ge_cases n 64) as [Hlt | Hge].
    + apply moved_twice_64_big. lia.
    + rewrite moved_bits_high by lia.
      symmetry. apply (mask_high_bit x 64); lia.
  - rewrite reorder32_big_bit.
    rewrite (moved_bits_ext _ _ _ _ _ _ _ _ (reorder32_big_bit x)).
    destruct (Z.lt_ge_cases n 32) as [Hlt | Hge].
    + apply moved_twice_32_big. lia.
    + rewrite moved_bits_high by lia.
      symmetry. apply (mask_high_bit x 32); lia.
Qed.

Lemma reorder_big_involutive_witness :
  reorder64_big (reorder64_big 738811025863578102) = 738811025863578102 /\
  reorder32_big (reorder32_big 0xF435D176) = 0xF435D176.
Proof.
  split.
  - apply (proj1 reorder_big_involutive). lia.
  - apply (proj2 reorder_big_involutive). lia.
Defined.

(** ** The codec, from words to samples and back *)

Import Np Mark4Payload.

Lemma word_of_bytes_from (k : nat) :
  forall u,
    word_of_bytes (map (fun i => Z.land (Z.shiftr u (8 * Z.of_nat i)) 255)
                       (seq 0 k))
    = Z.land u (Z.ones (8 * Z.of_nat k)).
Proof.
  induction k as [|k IH]; intros u.
  - cbn. now rewrite Z.land_0_r.
  - cbn [seq map]. rewrite <- seq_shift, map_map.
    rewrite (map_ext _ (fun i => Z.land (Z.shiftr (Z.shiftr u 8)
                                                  (8 * Z.of_nat i)) 255)).
    2:{ intros i. rewrite Z.shiftr_shiftr by lia. do 2 f_equal. lia. }
    unfold word_of_bytes in *. cbn [fold_right]. rewrite IH.
    change (8 * Z.of_nat 0) with 0. rewrite Z.shiftr_0_r.
    apply Z.bits_inj'. intros n Hn.
    rewrite Z.lor_spec, !Z.land_spec.
    change 255 with (Z.ones 8).
    rewrite !Z.testbit_ones_nonneg by lia.
    destruct (Z.ltb_spec n 8) as [Hlow | Hhigh].
    + rewrite Z.shiftl_spec_low by lia.
      replace (n <? 8 * Z.of_nat (S k)) with true
        by (symmetry; apply Z.ltb_lt; lia).
      now rewrite orb_false_r.
    + rewrite Z.shiftl_spec, Z.land_spec, Z.shiftr_spec by lia.
      rewrite Z.testbit_ones_nonneg by lia.
      replace (n - 8 + 8) with n by lia.
      rewrite andb_false_r. cbn [orb]. f_equal.
      destruct (Z.ltb_spec (n - 8) (8 * Z.of_nat k)),
               (Z.ltb_spec n (8 * Z.of_nat (S k))); try reflexivity; lia.
Qed.

Lemma word_of_bytes_of_word (v : Z) :
  0 <= v < 2 ^ 64 -> word_of_bytes (bytes_of_word v) = v.
Proof.
  intros Hv. unfold bytes_of_word. rewrite word_of_bytes_from.
  rewrite Z.land_ones by lia. apply Z.mod_small.
  change (8 * Z.of_nat 8) with 64. lia.
Qed.

Lemma bytes_of_word_length (v : Z) : length (bytes_of_word v) = 8%nat.
Proof.
  reflexivity.
Qed.

Lemma bytes_of_word_range (v : Z) :
  Forall (fun b => 0 <= b < 256) (bytes_of_word v).
Proof.
  unfold bytes_of_word. apply Forall_map, Forall_forall. intros i _.
  change 255 with (Z.ones 8). rewrite Z.land_ones by lia.
  apply Z.mod_pos_bound. lia.
Qed.

Lemma reorder64_range (w : Z) : 0 <= reorder64 w < 2 ^ 64.
Proof.
  assert (Hmod : reorder64 w = reorder64 w mod 2 ^ 64).
  { apply Z.bits_inj'. intros n Hn. rewrite uint_bit by lia.
    destruct (Z.ltb_spec n 64) as [Hlt | Hge]; [reflexivity|].
    rewrite reorder64_bit, moved_bits_high by lia. reflexivity. }
  rewrite Hmod. apply Z.mod_pos_bound. lia.
Qed.

(** A byte of the payload: the row of the table has four levels, whose two
    bits each, put together again, are the byte. *)
Lemma lut_row (b : Z) :
  0 <= b < 256 ->
  exists v0 v1 v2 v3,
    lut_take lut2bit1 b = [v0; v1; v2; v3] /\
    (is_level v0 /\ is_level v1 /\ is_level v2 /\ is_level v3) /\
    or_reduce (shift_quad [level_code v0; level_code v1;
                           level_code v2; level_code v3]) = b.
Proof.
  revert b. apply (each_position 256). intros i Hi.
  do 256 (destruct i as [|i];
          [do 4 eexists; split; [vm_compute; reflexivity|];
           split; [repeat split; is_a_level | vm_compute; reflexivity]|]).
  lia.
Qed.

Lemma decode_block_inverse (w : Z) :
  length (decode_block w) = 4%nat /\
  Forall (fun row => length row = 8%nat /\ Forall is_level row)
         (decode_block w) /\
  (0 <= w < 2 ^ 64 -> encode_block (decode_block w) = w).
Proof.
  unfold decode_block, encode_block.
  pose proof (bytes_of_word_length (reorder64 w)) as Hlen.
  pose proof (bytes_of_word_range (reorder64 w)) as Hrange.
  assert (Hback : 0 <= w < 2 ^ 64 ->
                  reorder64 (word_of_bytes (bytes_of_word (reorder64 w))) = w).
  { intros Hw.
    rewrite word_of_bytes_of_word by apply reorder64_range.
    now apply reorder64_twice. }
  revert Hback.
  destruct (bytes_of_word (reorder64 w)) as [|b0 bs]; [discriminate|].
  do 7 (destruct bs as [|? bs]; [discriminate|]).
  destruct bs; [clear Hlen | discriminate].
  repeat match goal with
         | H : Forall _ (_ :: _) |- _ => inversion H; clear H; subst
         | H : Forall _ [] |- _ => clear H
         end.
  repeat match goal with
         | H : 0 <= ?b < 256 |- _ =>
             let v0 := fresh "v" in
             let v1 := fresh "v" in
             let v2 := fresh "v" in
             let v3 := fresh "v" in
             let Hrow := fresh "Hrow" in
             let Hcode := fresh "Hcode" in
             destruct (lut_row b H)
               as (v0 & v1 & v2 & v3 & Hrow & (? & ? & ? & ?) & Hcode);
             clear H
         end.
  cbn [map nth reorder_channels].
  repeat match goal with
         | H : lut_take lut2bit1 _ = _ |- _ => rewrite H; clear H
         end.
  cbn [transpose take_axis1 map nth seq reorder_channels length].
  intros Hback. split; [reflexivity|]. split.
  - repeat (apply Forall_cons;
            [split; [reflexivity|];
             repeat (apply Forall_cons; [assumption|]); apply Forall_nil|]).
    apply Forall_nil.
  - intros Hw.
    repeat match goal with
           | H : or_reduce _ = _ |- _ => rewrite H; clear H
           end.
    now apply Hback.
Qed.

(** X8.  [decode_8chan_2bit_fanout4] gives four
    rows of samples for every word, each row with eight entries, and every
    entry is one of the four levels. *)
Theorem decode_gives_levels (words : list Z) :
  length (decode_8chan_2bit_fanout4 words) = (4 * length words)%nat /\
  Forall (fun row => length row = 8%nat /\ Forall is_level row)
         (decode_8chan_2bit_fanout4 words).
Proof.
  rewrite decode_blockwise.
  induction words as [|w words [IHlen IHrows]]; [split; [reflexivity | constructor]|].
  destruct (decode_block_inverse w) as (Hfour & Hrows & _).
  cbn [map concat]. split.
  - rewrite length_app, IHlen, Hfour. cbn [length]. lia.
  - apply Forall_app. now split.
Qed.

(** X9.  With a base encoder that gives each level
    its rank, encoding the samples decoded from 64-bit words gives these
    words back: no two payloads decode to the same samples. *)
Theorem encode_decode_words
  (encode_2bit_real_base : Q -> Z) (words : list Z) :
  encode_2bit_real_base (- OPTIMAL_2BIT_HIGH)%Q = 0 ->
  encode_2bit_real_base (-1)%Q = 1 ->
  encode_2bit_real_base 1%Q = 2 ->
  encode_2bit_real_base OPTIMAL_2BIT_HIGH = 3 ->
  Forall (fun w => 0 <= w < 2 ^ 64) words ->
  encode_8chan_2bit_fanout4 encode_2bit_real_base
                            (decode_8chan_2bit_fanout4 words)
  = Ok words.
Proof.
  intros H0 H1 H2 H3 Hwords.
  rewrite decode_blockwise.
  rewrite (encode_blockwise encode_2bit_real_base H0 H1 H2 H3).
  - f_equal. rewrite map_map. rewrite <- (map_id words) at 2.
    apply map_ext_in. intros w Hw. rewrite Forall_forall in Hwords.
    now apply decode_block_inverse, Hwords.
  - apply Forall_map, Forall_forall. intros w _. apply decode_block_inverse.
  - apply Forall_map, Forall_forall. intros w _. apply decode_block_inverse.
Qed.

Lemma encode_decode_words_witness :
  encode_8chan_2bit_fanout4 nearest_level_rank
    (decode_8chan_2bit_fanout4 [738811025863578102; 0; 2 ^ 64 - 1])
  = Ok [738811025863578102; 0; 2 ^ 64 - 1].
Proof.
  apply (encode_decode_words nearest_level_rank
           [738811025863578102; 0; 2 ^ 64 - 1]);
    try reflexivity.
  repeat (apply Forall_cons; [lia|]). apply Forall_nil.
Defined.

(** ** Tables and their parsers *)

Import VlbiHelpers ParserTables.

Lemma build_parsers_get (its : odict field_def) :
  NoDup (od_keys its) ->
  forall acc ps,
    build_parsers acc its = Ok ps ->
    (forall k, od_get ps k
               = match od_get its k with
                 | Some d => match parser_of d with
                             | Ok p => Some p
                             | Raise _ => None
                             end
                 | None => od_get acc k
                 end) /\
    Forall (fun kd => exists p, parser_of (snd kd) = Ok p) its /\
    (NoDup (od_keys acc) -> NoDup (od_keys ps)).
Proof.
  induction its as [|[k0 d0] its IH]; intros Hnd acc ps Hbuild.
  - injection Hbuild as <-. repeat split; [constructor | tauto].
  - cbn [build_parsers] in Hbuild.
    inversion Hnd as [|? ? Hnotin Hnd']; subst.
    fold (parser_of d0) in Hbuild.
    destruct (parser_of d0) as [p|x] eqn:Hp; [|discriminate].
    cbn [bind] in Hbuild.
    destruct (IH Hnd' _ _ Hbuild) as (Hget & Hall & Hkeys).
    split; [|split].
    + intros k. rewrite Hget. cbn [od_get].
      destruct (String.eqb_spec k k0) as [-> | Hne].
      * rewrite (od_get_none _ its k0 Hnotin), od_get_setitem.
        now rewrite String.eqb_refl, Hp.
      * destruct (od_get its k); [reflexivity|].
        rewrite od_get_setitem.
        now replace (String.eqb k k0) with false
          by (symmetry; now apply String.eqb_neq).
    + constructor; [now exists p | assumption].
    + intros Hacc. apply Hkeys. now apply od_setitem_nodup.
Qed.

Lemma init_in_step (args : list (string * field_def)) (hp : HeaderParser) :
  HeaderParser_init args = Ok hp ->
  items hp = od_update [] args /\
  NoDup (od_keys (items hp)) /\ NoDup (od_keys (parsers hp)) /\
  parsers_in_step hp.
Proof.
  unfold HeaderParser_init. intros Hinit.
  destruct (build_parsers [] (od_update [] args)) as [ps|x] eqn:Hps;
    [|discriminate].
  injection Hinit as <-. cbn [items parsers].
  assert (Hnd : NoDup (od_keys (od_update (V:=field_def) [] args)))
    by (apply od_update_nodup; constructor).
  destruct (build_parsers_get _ Hnd _ _ Hps) as (Hget & Hall & Hkeys).
  repeat split; try assumption.
  - apply Hkeys. constructor.
  - intros k. cbn [items parsers]. rewrite Hget.
    destruct (od_get (od_update [] args) k) as [d|] eqn:Hd; [|reflexivity].
    rewrite Forall_forall in Hall.
    assert (Hin : exists kd, In kd (od_update [] args) /\ snd kd = d).
    { clear - Hd. induction (od_update [] args) as [|[k1 d1] l IHl];
        [discriminate|].
      cbn [od_get] in Hd. destruct (String.eqb k k1).
      - injection Hd as <-. exists (k1, d1). split; [now left | reflexivity].
      - destruct (IHl Hd) as (kd & Hkd & <-). exists kd. split;
          [now right | reflexivity]. }
    destruct Hin as (kd & Hkd & <-).
    destruct (Hall kd Hkd) as [p Hp]. rewrite Hp. now exists p.
Qed.

Lemma add_in_step (A B R : HeaderParser) :
  NoDup (od_keys (items A)) ->
  NoDup (od_keys (items B)) -> NoDup (od_keys (parsers B)) ->
  parsers_in_step B ->
  HeaderParser_add A B = Ok R ->
  items R = od_update (items A) (items B) /\
  NoDup (od_keys (items R)) /\ NoDup (od_keys (parsers R)) /\
  parsers_in_step R.
Proof.
  intros HA HB HBp Hstep Hadd. unfold HeaderParser_add in Hadd.
  destruct (HeaderParser_copy A) as [r|x] eqn:Hcopy; [|discriminate].
  injection Hadd as <-.
  destruct (init_in_step _ _ Hcopy) as (Hitems & Hnd & Hndp & Hr).
  rewrite od_update_empty in Hitems by assumption.
  unfold HeaderParser_update. cbn [items parsers]. rewrite Hitems.
  repeat split.
  - now apply od_update_nodup.
  - now apply od_update_nodup.
  - intros k. cbn [items parsers].
    rewrite !od_get_update by assumption.
    specialize (Hstep k). specialize (Hr k). rewrite Hitems in Hr.
    destruct (od_get (items B) k) as [d|].
    + destruct Hstep as (p & Hp & ->). now exists p.
    + rewrite Hstep. exact Hr.
Qed.

Lemma built_table_invariant (hp : HeaderParser) :
  built_table hp ->
  NoDup (od_keys (items hp)) /\ NoDup (od_keys (parsers hp)) /\
  parsers_in_step hp.
Proof.
  induction 1 as [args hp Hinit | A B R _ IHA _ IHB Hadd].
  - now apply init_in_step in Hinit.
  - destruct IHA as (HA & _ & _). destruct IHB as (HB & HBp & HBs).
    now apply (add_in_step A B R) in Hadd.
Qed.

(** X10.  In every table made by the constructor and by [+], which extends
    the [parsers] of a copy of the left table with those of the right one
    without computing them again, no key is held twice, and [parsers] has
    under every key the parser that [make_parser] builds from the
    definition the table now has under that key, and no other key. *)
Theorem built_table_parsers_in_step (hp : HeaderParser) :
  built_table hp ->
  NoDup (od_keys (items hp)) /\ parsers_in_step hp.
Proof.
  intros Hbuilt. destruct (built_table_invariant hp Hbuilt) as (H1 & _ & H2).
  now split.
Qed.

Import VdifHeader.

Lemma plus_built (a : result HeaderParser) (args : list (string * field_def))
  (R : HeaderParser) :
  (forall A, a = Ok A -> built_table A) ->
  plus a args = Ok R -> built_table R.
Proof.
  intros Ha Hplus. unfold plus in Hplus.
  destruct a as [A|x]; [|discriminate]. cbn [bind] in Hplus.
  destruct (HeaderParser_init args) as [B|x] eqn:HB; [|discriminate].
  cbn [bind] in Hplus.
  eapply built_add; [now apply Ha | eapply built_init, HB | exact Hplus].
Qed.

Lemma Legacy_built (t : HeaderParser) :
  Legacy_parser = Ok t -> built_table t.
Proof.
  apply built_init.
Qed.

Lemma Base_built (t : HeaderParser) : Base_parser = Ok t -> built_table t.
Proof.
  apply plus_built, Legacy_built.
Qed.

Lemma SampleRate_built (t : HeaderParser) :
  SampleRate_parser = Ok t -> built_table t.
Proof.
  apply plus_built, Base_built.
Qed.

(** The table of every class is one of the built tables (an empty one if
    building it had failed). *)
Lemma class_table_built (m5 : HeaderParser) (c : vdif_class) :
  built_table (header_parser m5 c).
Proof.
  assert (Hempty : built_table (MkHeaderParser [] []))
    by (now apply (built_init [])).
  assert (Hbuilt : forall r, (forall t, r = Ok t -> built_table t) ->
                             built_table (built r)).
  { intros [t|x] Hr; [now apply Hr | exact Hempty]. }
  unfold header_parser. apply Hbuilt. destruct c; intros t.
  - apply Legacy_built.
  - apply Base_built.
  - apply plus_built, SampleRate_built.
  - apply plus_built, Base_built.
  - apply plus_built, SampleRate_built.
  - apply SampleRate_built.
  - intros Ht. unfold Mark5B_parser in Ht.
    destruct (plus Base_parser _) as [a|x] eqn:Ha; [|discriminate].
    cbn [bind] in Ht.
    destruct (HeaderParser_init _) as [b|x] eqn:Hb; [|discriminate].
    cbn [bind] in Ht.
    eapply built_add; [|eapply built_init, Hb | exact Ht].
    eapply plus_built; [|exact Ha]. apply Base_built.
Qed.

Lemma built_table_parsers_in_step_witness :
  NoDup (od_keys (items (header_parser (MkHeaderParser [] []) VDIFHeader3)))
  /\ parsers_in_step (header_parser (MkHeaderParser [] []) VDIFHeader3).
Proof.
  apply (built_table_parsers_in_step
           (header_parser (MkHeaderParser [] []) VDIFHeader3)).
  apply class_table_built.
Defined.

(** ** Fields of a header *)

Lemma od_get_in {V : Type} (d : odict V) (k : string) (v : V) :
  od_get d k = Some v -> In (k, v) d.
Proof.
  induction d as [|[k0 v0] d IH]; cbn [od_get]; [discriminate|].
  destruct (String.eqb_spec k k0) as [-> | Hne].
  - intros [= <-]. now left.
  - intros Hg. right. now apply IH.
Qed.

(** A parser reads the word at its index and nothing else. *)
Lemma parser_reads (d : field_def) (p : list Z -> result pyval)
  (ws : list Z) :
  parser_of d = Ok p ->
  0 <= bit_length d /\
  p ws = match nth_error ws (word_index d) with
         | Some w => field_read d w
         | None => Raise IndexError
         end.
Proof.
  unfold parser_of, make_parser, field_read, get_field.
  destruct d as [wi bi bl dflt]. cbn [word_index bit_index bit_length].
  destruct (Z.eqb_spec bl 1) as [-> | H1].
  - intros [= <-]. split; [lia|]. unfold getitem.
    destruct (nth_error ws wi) as [w|]; [|reflexivity]. cbn [bind].
    unfold py_rshift. destruct (bi <? 0); reflexivity.
  - destruct (Z.eqb_spec bl 32) as [-> | H32].
    + destruct (bi =? 0); [|discriminate]. intros [= <-]. split; [lia|].
      unfold getitem. now destruct (nth_error ws wi).
    + unfold py_lshift. destruct (Z.ltb_spec bl 0) as [Hneg | Hbl];
        [discriminate|].
      cbn [bind]. rewrite mask_is_ones by assumption.
      destruct (Z.eqb_spec bi 0) as [-> | H0]; intros [= <-];
        (split; [assumption|]); unfold getitem;
        destruct (nth_error ws wi) as [w|]; try reflexivity; cbn [bind].
      unfold py_rshift. destruct (bi <? 0); reflexivity.
Qed.

(** What a setter has done when it returns. *)
Lemma make_setter_ok (wi : nat) (bi bl : Z) (dflt : option pyval)
  (ws : list Z) (v : option pyval) (ws' : list Z) :
  make_setter wi bi bl dflt ws v = Ok ws' ->
  exists val w,
    py_int match v, dflt with
           | None, Some d => Some d
           | _, _ => v
           end = Ok val /\
    nth_error ws wi = Some w /\ 0 <= bi /\ 0 <= bl /\ 0 <= val < 2 ^ bl /\
    ws' = firstn wi ws ++ [put_field bi bl val w] ++ skipn (wi + 1) ws.
Proof.
  unfold make_setter.
  destruct (py_int _) as [val|x]; [|discriminate]. cbn [bind].
  unfold getitem. destruct (nth_error ws wi) as [w|]; [|discriminate].
  cbn [bind]. unfold py_lshift.
  destruct (Z.ltb_spec bl 0) as [Hneg | Hbl]; [discriminate|]. cbn [bind].
  rewrite mask_is_ones by assumption.
  destruct (Z.eqb_spec (Z.land val (Z.ones bl)) val) as [Hfit | Hne];
    [|discriminate].
  cbn [negb]. destruct (Z.ltb_spec bi 0) as [Hbneg | Hbi]; [discriminate|].
  cbn [bind]. intros [= <-]. exists val, w.
  repeat split; try assumption.
  - rewrite <- Hfit, Z.land_ones by lia. apply Z.mod_pos_bound. lia.
  - rewrite <- Hfit, Z.land_ones by lia. apply Z.mod_pos_bound. lia.
Qed.

Lemma make_setter_no_keyerror (wi : nat) (bi bl : Z) (dflt : option pyval)
  (ws : list Z) (v : option pyval) :
  make_setter wi bi bl dflt ws v <> Raise KeyError.
Proof.
  unfold make_setter, getitem, py_lshift.
  destruct (py_int _) as [val|x] eqn:Hint; cbn [bind].
  - destruct (nth_error ws wi); cbn [bind]; [|discriminate].
    destruct (bl <? 0); cbn [bind]; [discriminate|].
    destruct (negb _); [discriminate|].
    destruct (bi <? 0); cbn [bind]; discriminate.
  - intros [= ->]. revert Hint. unfold py_int.
    destruct v as [[]|], dflt as [[]|]; discriminate.
Qed.

Lemma replaced_same {A : Type} (ws : list A) (wi : nat) (x w : A) :
  nth_error ws wi = Some w ->
  nth_error (firstn wi ws ++ [x] ++ skipn (wi + 1) ws) wi = Some x.
Proof.
  intros Hw.
  assert (Hwi : (wi < length ws)%nat)
    by (apply nth_error_Some; congruence).
  rewrite (nth_error_nth' _ x) by (rewrite replaced_length; lia).
  now rewrite replaced_nth.
Qed.

(** Writing a field apart from the one read. *)
Lemma field_read_apart (d d' : field_def) (val w : Z) :
  word_index d = word_index d' -> fields_apart d d' = true ->
  0 <= bit_index d -> 0 <= bit_length d -> 0 <= val < 2 ^ bit_length d ->
  0 <= bit_length d' ->
  field_read d' (put_field (bit_index d) (bit_length d) val w)
  = field_read d' w.
Proof.
  intros Hwi Hapart Hbi Hbl Hval Hbl'. unfold fields_apart in Hapart.
  rewrite Hwi, Nat.eqb_refl in Hapart. cbn [negb orb] in Hapart.
  apply andb_prop in Hapart as [H32 Hranges].
  apply negb_true_iff, Z.eqb_neq in H32.
  assert (Hor : bit_index d' + bit_length d' <= bit_index d \/
                bit_index d + bit_length d <= bit_index d').
  { apply orb_prop in Hranges as [H | H]; apply Z.leb_le in H; lia. }
  unfold field_read.
  destruct (Z.eqb_spec (bit_length d') 1) as [H1 | H1].
  - destruct (Z.ltb_spec (bit_index d') 0); [reflexivity|].
    rewrite get_put_other by lia. reflexivity.
  - replace (bit_length d' =? 32) with false
      by (symmetry; now apply Z.eqb_neq).
    destruct (Z.ltb_spec (bit_index d') 0); [reflexivity|].
    rewrite get_put_other by lia. reflexivity.
Qed.

Section OneTable.

Variable T : HeaderParser.
Hypothesis T_in_step : parsers_in_step T.

(** [parsers[k](ws)] and [setters[k](ws, v)] on the table [T]. *)
Lemma table_read (k : string) (ws : list Z) :
  (p <- od_getitem (parsers T) k ;; p ws)
  = match od_get (items T) k with
    | Some d => match nth_error ws (word_index d) with
                | Some w => field_read d w
                | None => Raise IndexError
                end
    | None => Raise KeyError
    end.
Proof.
  unfold od_getitem. specialize (T_in_step k).
  destruct (od_get (items T) k) as [d|].
  - destruct T_in_step as (p & Hp & ->). cbn [bind].
    now apply parser_reads.
  - now rewrite T_in_step.
Qed.

Lemma table_write_apart (k k' : string) (v : option pyval)
  (ws ws' : list Z) :
  all_apart (items T) = true ->
  (s <- setters T k ;; s ws v) = Ok ws' ->
  k' <> k ->
  length ws' = length ws /\
  (p <- od_getitem (parsers T) k' ;; p ws')
  = (p <- od_getitem (parsers T) k' ;; p ws).
Proof.
  intros Hapart Hset Hne. unfold setters, od_getitem in Hset.
  destruct (od_get (items T) k) as [d|] eqn:Hd; [|discriminate].
  cbn [bind] in Hset.
  apply make_setter_ok in Hset
    as (val & w & _ & Hw & Hbi & Hbl & Hval & ->).
  assert (Hwi : (word_index d < length ws)%nat)
    by (apply nth_error_Some; congruence).
  split; [now apply replaced_length|].
  rewrite !table_read.
  destruct (od_get (items T) k') as [d'|] eqn:Hd'; [|reflexivity].
  destruct (Nat.eq_dec (word_index d') (word_index d)) as [Heq | Hother].
  - rewrite Heq, (replaced_same ws _ _ w Hw), Hw.
    assert (Hbl' : 0 <= bit_length d').
    { pose proof (T_in_step k') as Hstep. rewrite Hd' in Hstep.
      destruct Hstep as (p & Hp & _). now apply (parser_reads d' p []). }
    apply field_read_apart; try assumption; [congruence|].
    unfold all_apart in Hapart. rewrite forallb_forall in Hapart.
    specialize (Hapart (k, d) (od_get_in _ _ _ Hd)).
    rewrite forallb_forall in Hapart.
    specialize (Hapart (k', d') (od_get_in _ _ _ Hd')).
    cbn [fst snd] in Hapart.
    replace (String.eqb k k') with false in Hapart
      by (symmetry; apply String.eqb_neq; congruence).
    exact Hapart.
  - now rewrite replaced_other.
Qed.

(** Reading the key that was written. *)
Lemma table_write_same (k : string) (v : Z) (ws ws' : list Z)
  (d : field_def) :
  od_get (items T) k = Some d ->
  bit_length d <> 32 ->
  (s <- setters T k ;; s ws (Some (VInt v))) = Ok ws' ->
  (p <- od_getitem (parsers T) k ;; p ws')
  = Ok (as_field_value (bit_length d) v).
Proof.
  intros Hd H32 Hset. unfold setters, od_getitem in Hset.
  rewrite Hd in Hset. cbn [bind] in Hset.
  apply make_setter_ok in Hset
    as (val & w & Hint & Hw & Hbi & Hbl & Hval & ->).
  assert (val = v) by (destruct (default d); now injection Hint). subst val.
  rewrite table_read, Hd, (replaced_same ws _ _ w Hw).
  unfold field_read, as_field_value.
  destruct (Z.eqb_spec (bit_length d) 1) as [H1 | H1].
  - replace (bit_index d <? 0) with false by (symmetry; apply Z.ltb_ge; lia).
    rewrite H1 in *. rewrite get_put_same by lia. reflexivity.
  - replace (bit_length d =? 32) with false
      by (symmetry; now apply Z.eqb_neq).
    replace (bit_index d <? 0) with false by (symmetry; apply Z.ltb_ge; lia).
    rewrite get_put_same by lia. reflexivity.
Qed.

(** Whether writing succeeds, for a field that is there. *)
Lemma table_write (k : string) (v : Z) (ws : list Z) (d : field_def)
  (w : Z) :
  od_get (items T) k = Some d ->
  nth_error ws (word_index d) = Some w ->
  0 <= bit_index d -> 0 <= bit_length d ->
  (0 <= v < 2 ^ bit_length d ->
   exists ws', (s <- setters T k ;; s ws (Some (VInt v))) = Ok ws') /\
  (~ 0 <= v < 2 ^ bit_length d ->
   (s <- setters T k ;; s ws (Some (VInt v))) = Raise ValueError).
Proof.
  intros Hd Hw Hbi Hbl. unfold setters, od_getitem. rewrite Hd. cbn [bind].
  assert (Hwi : (word_index d < length ws)%nat)
    by (apply nth_error_Some; congruence).
  split; intros Hv.
  - rewrite make_setter_puts by assumption. now eexists.
  - now apply make_setter_overflow.
Qed.

End OneTable.

Import VdifHeader.

Lemma class_fields_apart (m5 : HeaderParser) (c : vdif_class) :
  c <> VDIFMark5BHeader -> all_apart (items (header_parser m5 c)) = true.
Proof.
  intros Hc. destruct c; try congruence; vm_compute; reflexivity.
Qed.

Lemma class_table_in_step (m5 : HeaderParser) (c : vdif_class) :
  parsers_in_step (header_parser m5 c).
Proof.
  apply built_table_invariant, class_table_built.
Qed.

(** The header after a write that succeeded; the other keys. *)
Lemma setitem_other (m5 : HeaderParser) (c : vdif_class) (e : edv_t)
  (ws : list Z) (item : string) (value : option pyval) (h' : header)
  (other : string) :
  c <> VDIFMark5BHeader ->
  h_setitem m5 item value (MkHeader c e ws) = (h', Ok tt) ->
  other <> item ->
  h_getitem m5 h' other = h_getitem m5 (MkHeader c e ws) other.
Proof.
  intros Hc Hset Hne. unfold h_setitem in Hset. cbn [cls words] in Hset.
  destruct (s <- setters (header_parser m5 c) item ;; s ws value)
    as [ws'|x] eqn:Hs; [|discriminate].
  injection Hset as <-.
  now apply (table_write_apart (header_parser m5 c)
               (class_table_in_step m5 c) item other value ws ws'
               (class_fields_apart m5 c Hc) Hs Hne).
Qed.

Lemma setitem_shape (m5 : HeaderParser) (h h' : header) (item : string)
  (value : option pyval) (x : result unit) :
  h_setitem m5 item value h = (h', x) ->
  cls h' = cls h /\ edv h' = edv h /\
  length (words h') = length (words h).
Proof.
  unfold h_setitem.
  destruct (s <- setters (header_parser m5 (cls h)) item ;;
            s (words h) value) as [ws'|y] eqn:Hs.
  - intros [= <- _]. unfold set_words. cbn [cls edv words].
    repeat split. unfold setters in Hs.
    destruct (od_getitem _ item) as [d|]; [|discriminate].
    cbn [bind] in Hs.
    apply make_setter_ok in Hs as (val & w & _ & Hw & _ & _ & _ & ->).
    apply replaced_length, nth_error_Some. congruence.
  - intros [= <- _]. now repeat split.
Qed.

Lemma setitem_same (m5 : HeaderParser) (h h' : header) (item : string)
  (v : Z) (d : field_def) :
  od_get (items (header_parser m5 (cls h))) item = Some d ->
  bit_length d <> 32 ->
  h_setitem m5 item (Some (VInt v)) h = (h', Ok tt) ->
  h_getitem m5 h' item = Ok (as_field_value (bit_length d) v).
Proof.
  intros Hd H32 Hset. unfold h_setitem in Hset.
  destruct (s <- setters (header_parser m5 (cls h)) item ;;
            s (words h) (Some (VInt v))) as [ws'|x] eqn:Hs; [|discriminate].
  injection Hset as <-. unfold h_getitem, set_words. cbn [cls words].
  now apply (table_write_same _ (class_table_in_step m5 (cls h)) item v
               (words h)).
Qed.

Lemma setitem_outcome (m5 : HeaderParser) (h : header) (item : string)
  (v : Z) (d : field_def) (w : Z) :
  od_get (items (header_parser m5 (cls h))) item = Some d ->
  nth_error (words h) (word_index d) = Some w ->
  0 <= bit_index d -> 0 <= bit_length d ->
  (0 <= v < 2 ^ bit_length d ->
   exists h', h_setitem m5 item (Some (VInt v)) h = (h', Ok tt)) /\
  (~ 0 <= v < 2 ^ bit_length d ->
   h_setitem m5 item (Some (VInt v)) h = (h, Raise ValueError)).
Proof.
  intros Hd Hw Hbi Hbl. unfold h_setitem.
  destruct (table_write (header_parser m5 (cls h)) item v (words h) d w
              Hd Hw Hbi Hbl) as [Hfit Hover].
  split; intros Hv.
  - destruct (Hfit Hv) as [ws' ->]. now eexists.
  - now rewrite (Hover Hv).
Qed.

(** X11.  [header[item]] raises [KeyError] exactly when [item] is not among
    [header.keys()], and so does [header[item] = value], for a header of
    every class, whatever its words and the value. *)
Theorem keyerror_iff_not_a_key (m5 : HeaderParser) (h : header)
  (item : string) (value : option pyval) :
  (h_getitem m5 h item = Raise KeyError <-> ~ In item (h_keys m5 h)) /\
  (snd (h_setitem m5 item value h) = Raise KeyError
   <-> ~ In item (h_keys m5 h)).
Proof.
  pose proof (class_table_in_step m5 (cls h)) as Hstep.
  unfold h_keys. rewrite <- od_contains_in. unfold od_contains.
  split.
  - unfold h_getitem. rewrite (table_read _ Hstep).
    destruct (od_get (items (header_parser m5 (cls h))) item) as [d|].
    + split; [|intros Hn; now contradiction Hn].
      destruct (nth_error (words h) (word_index d)); [|discriminate].
      unfold field_read.
      repeat match goal with
             | |- context [if ?b then _ else _] => destruct b
             end; discriminate.
    + split; [intros _; discriminate | reflexivity].
  - unfold h_setitem, setters, od_getitem.
    destruct (od_get (items (header_parser m5 (cls h))) item) as [d|].
    + cbn [bind]. split; [|intros Hn; now contradiction Hn].
      destruct (make_setter _ _ _ _ _ _) as [ws'|x] eqn:Hset;
        [discriminate|].
      cbn [snd]. intros [= ->]. now apply make_setter_no_keyerror in Hset.
    + cbn [bind snd]. split; [intros _; discriminate | reflexivity].
Qed.

(** X12.  In a header of every class but the Mark 5B one, when
    [header[item] = value] succeeds, the class, [edv] and the number of
    words are as before, and every other key reads as before -- its value
    or its exception: the fields of one table do not overlap. *)
Theorem setitem_keeps_other_fields (m5 : HeaderParser) (c : vdif_class)
  (e : edv_t) (ws : list Z) (item : string) (value : option pyval)
  (h' : header) (other : string) :
  c <> VDIFMark5BHeader ->
  h_setitem m5 item value (MkHeader c e ws) = (h', Ok tt) ->
  other <> item ->
  cls h' = c /\ edv h' = e /\ length (words h') = length ws /\
  h_getitem m5 h' other = h_getitem m5 (MkHeader c e ws) other.
Proof.
  intros Hc Hset Hne.
  destruct (setitem_shape m5 _ _ _ _ _ Hset) as (Hcls & Hedv & Hlen).
  repeat split; try assumption.
  now apply (setitem_other m5 c e ws item value).
Qed.

Lemma setitem_keeps_other_fields_witness :
  let h := MkHeader VDIFHeader3 (EdvInt 3) (edv1_words 0 0) in
  let h' := MkHeader VDIFHeader3 (EdvInt 3)
                     [100; put_field 0 24 7 0; 5; Z.shiftl 0 16;
                      0x01000000; 0xACABFEED; 0; 0] in
  cls h' = VDIFHeader3 /\ edv h' = EdvInt 3 /\
  length (words h') = length (edv1_words 0 0) /\
  h_getitem (MkHeaderParser [] []) h' "ref_epoch"
  = h_getitem (MkHeaderParser [] []) h "ref_epoch".
Proof.
  apply (setitem_keeps_other_fields
           (MkHeaderParser [] []) VDIFHeader3 (EdvInt 3) (edv1_words 0 0)
           "frame_nr" (Some (VInt 7))).
  - discriminate.
  - apply (write_frame_nr (MkHeaderParser [] []) VDIFHeader3 (EdvInt 3)
             100 0 [5; Z.shiftl 0 16; 0x01000000; 0xACABFEED; 0; 0] 7);
      [discriminate | lia].
  - discriminate.
Defined.

(** ** Properties of a header: what the setters store *)

Import VdifProperties.

(** The thirteen fields of the legacy table are at the same place in the
    table of every class (some with another default). *)
Lemma class_field (m5 : HeaderParser) (c : vdif_class) (k : string)
  (d : field_def) :
  c <> VDIFMark5BHeader ->
  In (k, d) Legacy_fields ->
  exists dflt,
    od_get (items (header_parser m5 c)) k
    = Some (FieldDef (word_index d) (bit_index d) (bit_length d) dflt).
Proof.
  intros Hc Hin. unfold Legacy_fields in Hin. cbn [In] in Hin.
  repeat match type of Hin with
         | _ \/ _ => destruct Hin as [Hin | Hin]
         end;
    try contradiction; injection Hin as <- <-;
    destruct c; try congruence; eexists; reflexivity.
Qed.

Ltac legacy_field m5 c Hc key d :=
  let Hin := fresh "Hin" in
  assert (Hin : In (key, d) Legacy_fields)
    by (unfold Legacy_fields; cbn [In]; tauto);
  destruct (class_field m5 c key d Hc Hin) as [? ?]; clear Hin.

Lemma header_size_eights (h : header) : size h / 8 * 8 = size h.
Proof.
  unfold size. now destruct (cls h).
Qed.

(** X13.  [header.payloadsize = p], on a header with three words or more of
    a class other than the Mark 5B one: it raises [AssertionError] when the
    size of the frame, [p + header.size], is no multiple of 8, and
    [ValueError] when an eighth of it does not fit 24 bits, both leaving
    the header as it was; otherwise it succeeds, [payloadsize] reads [p]
    back, [framesize] is [p + header.size], and every key but
    ['frame_length'] reads as before. *)
Theorem set_payloadsize_outcome (m5 : HeaderParser) (c : vdif_class)
  (e : edv_t) (ws : list Z) (w2 : Z) (p : Z) :
  c <> VDIFMark5BHeader ->
  nth_error ws 2 = Some w2 ->
  let h := MkHeader c e ws in
  let fsize := p + size h in
  (fsize mod 8 <> 0 ->
   set_payloadsize m5 p h = (h, Raise AssertionError)) /\
  (fsize mod 8 = 0 -> ~ 0 <= fsize / 8 < 2 ^ 24 ->
   set_payloadsize m5 p h = (h, Raise ValueError)) /\
  (fsize mod 8 = 0 -> 0 <= fsize / 8 < 2 ^ 24 ->
   exists h',
     set_payloadsize m5 p h = (h', Ok tt) /\
     payloadsize m5 h' = Ok p /\
     framesize m5 h' = Ok fsize /\
     forall other, other <> "frame_length"%string ->
                   h_getitem m5 h' other = h_getitem m5 h other).
Proof.
  intros Hc Hw2 h fsize.
  legacy_field m5 c Hc "frame_length"%string (fd 2 0 24).
  cbn [fd word_index bit_index bit_length] in *.
  destruct (setitem_outcome m5 h "frame_length" (fsize / 8) _ w2
              H Hw2 ltac:(cbn; lia) ltac:(cbn; lia)) as [Hfit Hover].
  cbn [bit_length] in Hfit, Hover.
  unfold set_payloadsize, set_framesize, se_bind, se_lift. fold fsize.
  split; [|split].
  - intros Hmod.
    now replace (fsize mod 8 =? 0) with false
      by (symmetry; now apply Z.eqb_neq).
  - intros Hmod Hbig. rewrite Hmod. cbn [Z.eqb py_assert].
    now apply Hover.
  - intros Hmod Hsmall. rewrite Hmod. cbn [Z.eqb py_assert].
    destruct (Hfit Hsmall) as [h' Hset]. exists h'.
    split; [exact Hset|].
    pose proof (setitem_same m5 h h' _ _ _ H ltac:(cbn; lia) Hset) as Hread.
    cbn [bit_length as_field_value Z.eqb Pos.eqb] in Hread.
    destruct (setitem_shape m5 _ _ _ _ _ Hset) as (Hcls & _ & _).
    assert (Hframe : framesize m5 h' = Ok fsize).
    { unfold framesize. rewrite Hread. cbn [bind as_int]. f_equal.
      pose proof (Z.div_mod fsize 8 ltac:(lia)). lia. }
    repeat split.
    + unfold payloadsize. rewrite Hframe. cbn [bind]. f_equal.
      unfold size in *. rewrite Hcls. subst fsize. unfold size. lia.
    + exact Hframe.
    + intros other Hother.
      now apply (setitem_other m5 c e ws "frame_length"
                   (Some (VInt (fsize / 8)))).
Qed.

Lemma set_payloadsize_outcome_witness :
  let h := MkHeader VDIFHeader1 (EdvInt 1) (edv1_words 0 0) in
  exists h',
    set_payloadsize (MkHeaderParser [] []) 8000 h = (h', Ok tt) /\
    payloadsize (MkHeaderParser [] []) h' = Ok 8000 /\
    framesize (MkHeaderParser [] []) h' = Ok 8032 /\
    forall other, other <> "frame_length"%string ->
                  h_getitem (MkHeaderParser [] []) h' other
                  = h_getitem (MkHeaderParser [] []) h other.
Proof.
  refine (proj2 (proj2 (set_payloadsize_outcome
                          (MkHeaderParser [] []) VDIFHeader1 (EdvInt 1)
                          (edv1_words 0 0) 5 8000 _ _)) _ _).
  - discriminate.
  - reflexivity.
  - reflexivity.
  - split; [discriminate | reflexivity].
Defined.

Lemma Ok_inj {A : Type} (a b : A) : Ok a = Ok b -> a = b.
Proof.
  now intros [= ->].
Qed.

(** A write that succeeded stored a value that fits the field. *)
Lemma setitem_fits (m5 : HeaderParser) (h h' : header) (item : string)
  (v : Z) (d : field_def) :
  od_get (items (header_parser m5 (cls h))) item = Some d ->
  h_setitem m5 item (Some (VInt v)) h = (h', Ok tt) ->
  0 <= v < 2 ^ bit_length d.
Proof.
  intros Hd Hset. unfold h_setitem, setters, od_getitem in Hset.
  rewrite Hd in Hset. cbn [bind] in Hset.
  destruct (make_setter _ _ _ _ _ _) as [ws'|x] eqn:Hs; [|discriminate].
  apply make_setter_ok in Hs as (val & w & Hval & _ & _ & _ & Hfits & _).
  cbn [py_int] in Hval. apply Ok_inj in Hval. now subst val.
Qed.

Lemma make_setter_no_assertion (wi : nat) (bi bl : Z)
  (dflt : option pyval) (ws : list Z) (v : option pyval) :
  make_setter wi bi bl dflt ws v <> Raise AssertionError.
Proof.
  unfold make_setter, getitem, py_lshift.
  destruct (py_int _) as [val|x] eqn:Hint; cbn [bind].
  - destruct (nth_error ws wi); cbn [bind]; [|discriminate].
    destruct (bl <? 0); cbn [bind]; [discriminate|].
    destruct (negb _); [discriminate|].
    destruct (bi <? 0); cbn [bind]; discriminate.
  - intros [= ->]. revert Hint. unfold py_int.
    destruct v as [[]|], dflt as [[]|]; discriminate.
Qed.

(** An assignment to a key raises no [AssertionError]. *)
Lemma setitem_no_assertion (m5 : HeaderParser) (h h' : header)
  (item : string) (value : option pyval) (d : field_def) :
  od_get (items (header_parser m5 (cls h))) item = Some d ->
  h_setitem m5 item value h <> (h', Raise AssertionError).
Proof.
  intros Hd. unfold h_setitem, setters, od_getitem. rewrite Hd.
  cbn [bind].
  destruct (make_setter _ _ _ _ _ _) as [ws'|y] eqn:Hs; [discriminate|].
  intros [= _ ->]. now apply make_setter_no_assertion in Hs.
Qed.

(** A write that failed left the header as it was. *)
Lemma setitem_failed (m5 : HeaderParser) (h h' : header) (item : string)
  (value : option pyval) (x : exn) :
  h_setitem m5 item value h = (h', Raise x) -> h' = h.
Proof.
  unfold h_setitem.
  destruct (_ <- setters _ item ;; _) as [ws'|y]; [discriminate|].
  now intros [= <- _].
Qed.

Lemma Qtrunc_whole (z : Z) : Qtrunc (inject_Z z) = z.
Proof.
  unfold Qtrunc, inject_Z. cbn [Qnum Qden]. apply Z.quot_1_r.
Qed.

Lemma is_whole_whole (z : Z) : is_whole (inject_Z z) = true.
Proof.
  unfold is_whole. apply Qeq_bool_iff.
  unfold Qfloor, inject_Z. now rewrite Z.div_1_r.
Qed.

(** The half of an int below [2 ^ 53]: it is whole when the int is
    even. *)
Lemma float_half_small (b : Z) :
  Z.abs b < 2 ^ 53 -> float_half b = Ok (b # 2).
Proof.
  intros Hb. unfold float_half.
  replace (Z.abs b <? 2 ^ 53) with true by (symmetry; now apply Z.ltb_lt).
  change (inject_Z b / 2)%Q with (b * 1 # 2). now rewrite Z.mul_1_r.
Qed.

Lemma half_is_whole (b : Z) : is_whole (b # 2) = Z.even b.
Proof.
  unfold is_whole, Qfloor.
  destruct (Z.even b) eqn:Heven.
  - apply Qeq_bool_iff. unfold Qeq, inject_Z. cbn [Qnum Qden].
    apply Zeven_bool_iff in Heven. destruct (Zeven_ex b Heven) as [m ->].
    rewrite (Z.mul_comm 2 m), Z.div_mul by lia. lia.
  - apply not_true_is_false. intros Heq. apply Qeq_bool_iff in Heq.
    unfold Qeq, inject_Z in Heq. cbn [Qnum Qden] in Heq.
    assert (Hb : Z.even b = true).
    { apply Zeven_bool_iff. rewrite <- (Z.mul_1_r b), Heq.
      apply Zeven_equiv. exists (b / 2). lia. }
    congruence.
Qed.

Lemma Qtrunc_half (b : Z) : Z.even b = true -> Qtrunc (b # 2) = b / 2.
Proof.
  intros Heven. unfold Qtrunc. cbn [Qnum Qden].
  apply Zeven_bool_iff in Heven. destruct (Zeven_ex b Heven) as [m ->].
  rewrite (Z.mul_comm 2 m), Z.div_mul, Z.quot_mul by lia. reflexivity.
Qed.

(** From [2 ^ 53] on, the half is a whole float of [2 ^ 52] or more. *)
Lemma float_half_big (b : Z) (v : Q) :
  2 ^ 53 <= Z.abs b -> float_half b = Ok v ->
  exists z, v = inject_Z z /\ 2 ^ 52 <= Z.abs z.
Proof.
  intros Hb. unfold float_half.
  replace (Z.abs b <? 2 ^ 53) with false by (symmetry; now apply Z.ltb_ge).
  set (m := Z.abs b) in *.
  set (p := Z.log2 m - 52).
  set (q := m / 2 ^ p).
  set (up := _ || _).
  assert (Hlog : 53 <= Z.log2 m).
  { change 53 with (Z.log2 (2 ^ 53)). now apply Z.log2_le_mono. }
  assert (Hp : 1 <= p) by (unfold p; lia).
  assert (Hq : 2 ^ 52 <= q).
  { unfold q. apply Z.div_le_lower_bound; [apply Z.pow_pos_nonneg; lia|].
    rewrite <- Z.pow_add_r by lia.
    replace (p + 52) with (Z.log2 m) by (unfold p; lia).
    apply Z.log2_spec. lia. }
  assert (Hscale : 1 <= 2 ^ (p - 1))
    by (pose proof (Z.pow_pos_nonneg 2 (p - 1) ltac:(lia) ltac:(lia)); lia).
  destruct (2 ^ 1024 <=? _); [discriminate|].
  intros Heq. apply Ok_inj in Heq. eexists. split; [now rewrite <- Heq|].
  rewrite Z.abs_mul.
  assert (Hsgn : Z.abs (Z.sgn b) = 1).
  { destruct b; [|reflexivity|reflexivity].
    exfalso. unfold m in Hb. cbn in Hb. lia. }
  rewrite Hsgn, Z.mul_1_l.
  destruct up; rewrite Z.abs_eq; nia.
Qed.

(** X14.  [header.bps = b] for an int [b], on a header of a class other
    than the Mark 5B one.  Whenever it returns, [header.bps] reads [b]
    back, for real and for complex data, and every key but
    ['bits_per_sample'] reads as before.  For complex data an odd [b]
    below [2 ^ 53] in size is refused with [AssertionError]; from
    [2 ^ 53] on, where the float of the half is whole for odd [b] too,
    the assertion passes and the assignment fails with another exception.
    The header is left as it was in both cases. *)
Theorem set_bps_reads_back (m5 : HeaderParser) (c : vdif_class)
  (e : edv_t) (ws : list Z) (b : Z) (h' : header) (x : result unit) :
  c <> VDIFMark5BHeader ->
  let h := MkHeader c e ws in
  set_bps m5 b h = (h', x) ->
  (x = Ok tt ->
   bps m5 h' = Ok b /\
   forall other, other <> "bits_per_sample"%string ->
                 h_getitem m5 h' other = h_getitem m5 h other) /\
  (forall cv, h_getitem m5 h "complex_data" = Ok cv -> truthy cv = true ->
     (Z.abs b < 2 ^ 53 -> Z.even b = false ->
      h' = h /\ x = Raise AssertionError) /\
     (2 ^ 53 <= Z.abs b ->
      h' = h /\ exists err, x = Raise err /\ err <> AssertionError)).
Proof.
  intros Hc h. unfold set_bps, se_bind, reading, se_lift.
  legacy_field m5 c Hc "bits_per_sample"%string (fd 3 26 5).
  cbn [fd word_index bit_index bit_length] in *.
  destruct (h_getitem m5 h "complex_data") as [cv|y] eqn:Hcv.
  2:{ intros [= <- <-]. split; [discriminate|]. intros cv [=]. }
  assert (Hother : forall v h1,
             h_setitem m5 "bits_per_sample" (Some (VInt v)) h = (h1, Ok tt) ->
             h_getitem m5 h1 "bits_per_sample" = Ok (VInt v) /\
             h_getitem m5 h1 "complex_data" = Ok cv /\
             forall other, other <> "bits_per_sample"%string ->
                           h_getitem m5 h1 other = h_getitem m5 h other).
  { intros v h1 Hset.
    pose proof (setitem_same m5 h h1 _ _ _ H ltac:(cbn; lia) Hset) as Hread.
    assert (Hrest : forall other, other <> "bits_per_sample"%string ->
                      h_getitem m5 h1 other = h_getitem m5 h other).
    { intros other Hne.
      now apply (setitem_other m5 c e ws "bits_per_sample"
                   (Some (VInt v))). }
    repeat split; [exact Hread | | exact Hrest].
    rewrite Hrest by discriminate. exact Hcv. }
  destruct (truthy cv) eqn:Htruthy.
  - destruct (Z.lt_ge_cases (Z.abs b) (2 ^ 53)) as [Hsmall | Hbig].
    + rewrite (float_half_small b Hsmall), half_is_whole.
      destruct (Z.even b) eqn:Heven; cbn [py_assert].
      * rewrite (Qtrunc_half b Heven). intros Hset. split.
        -- intros ->. destruct (Hother _ _ Hset) as (Hb & Hc' & Hrest).
           split; [|exact Hrest].
           unfold bps. rewrite Hb, Hc'. cbn [bind as_int]. rewrite Htruthy.
           f_equal. apply Zeven_bool_iff in Heven.
           destruct (Zeven_ex b Heven) as [m ->].
           rewrite (Z.mul_comm 2 m), Z.div_mul by lia. lia.
        -- intros cv' _ _. split; [discriminate | lia].
      * intros [= <- <-]. split; [discriminate|].
        intros cv' _ _. split; [now intros | lia].
    + destruct (float_half b) as [v|err] eqn:Hhalf.
      * destruct (float_half_big b v Hbig Hhalf) as (z & -> & Hz).
        rewrite is_whole_whole, Qtrunc_whole. cbn [py_assert].
        intros Hset.
        assert (Hfail : h' = h /\
                        exists err, x = Raise err /\ err <> AssertionError).
        { destruct x as [[]|err].
          - apply (setitem_fits m5 h h' _ _ _ H) in Hset.
            cbn [bit_length] in Hset. lia.
          - split; [eapply setitem_failed, Hset|].
            exists err. split; [reflexivity|].
            intros ->.
            now apply (setitem_no_assertion m5 h h' _ _ _ H) in Hset. }
        split.
        -- intros ->. destruct Hfail as (_ & err & Herr & _). discriminate.
        -- intros cv' _ _. split; [lia | now intros].
      * intros [= <- <-]. split; [discriminate|].
        intros cv' _ _. split; [lia|]. intros _. split; [reflexivity|].
        exists err. split; [reflexivity|].
        intros ->. revert Hhalf. unfold float_half.
        destruct (_ <? _); [discriminate|].
        destruct (_ <=? _); discriminate.
  - intros Hset. split.
    + intros ->. destruct (Hother _ _ Hset) as (Hb & Hc' & Hrest).
      split; [|exact Hrest].
      unfold bps. rewrite Hb, Hc'. cbn [bind as_int]. rewrite Htruthy.
      f_equal. lia.
    + intros cv' [= <-] Ht. congruence.
Qed.

Lemma set_bps_reads_back_witness :
  let h := MkHeader VDIFHeader1 (EdvInt 1) (edv1_words 0 0) in
  let h' := MkHeader VDIFHeader1 (EdvInt 1)
                     [100; 0; 5; Z.shiftl 1 26; 0x01000000; 0xACABFEED;
                      0; 0] in
  bps (MkHeaderParser [] []) h' = Ok 2 /\
  forall other, other <> "bits_per_sample"%string ->
                h_getitem (MkHeaderParser [] []) h' other
                = h_getitem (MkHeaderParser [] []) h other.
Proof.
  refine (proj1 (set_bps_reads_back
                   (MkHeaderParser [] []) VDIFHeader1 (EdvInt 1)
                   (edv1_words 0 0) 2 _ (Ok tt) _ _) eq_refl).
  - discriminate.
  - reflexivity.
Defined.

(** On complex data, [header.bps = 2 ** 53 + 1]: the half is the float
    [2 ** 52], the assertion passes and the value does not fit the
    field. *)
Example set_bps_odd_beyond_floats :
  let h := MkHeader VDIFHeader1 (EdvInt 1)
                    [100; 0; 5; 0x80000000; 0x01000000; 0xACABFEED; 0; 0] in
  set_bps (MkHeaderParser [] []) (2 ^ 53 + 1) h = (h, Raise ValueError).
Proof.
  vm_compute. reflexivity.
Qed.

(** The number of channels is a positive power of two. *)
Lemma nchan_positive (m5 : HeaderParser) (c : vdif_class) (e : edv_t)
  (ws : list Z) (n : Z) :
  c <> VDIFMark5BHeader ->
  nchan m5 (MkHeader c e ws) = Ok n -> 0 < n.
Proof.
  intros Hc. unfold nchan, h_getitem.
  rewrite (table_read _ (class_table_in_step m5 c)). cbn [cls words].
  legacy_field m5 c Hc "lg2_nchan"%string (fd 2 24 5).
  cbn [fd word_index bit_index bit_length] in *. rewrite H.
  cbn [word_index]. destruct (nth_error ws 2) as [w|]; [|discriminate].
  unfold field_read.
  cbn [bit_length bit_index Z.eqb Pos.eqb Z.ltb Z.compare bind as_int].
  intros Heq. apply Ok_inj in Heq. rewrite <- Heq.
  apply Z.pow_pos_nonneg; [lia|].
  unfold get_field. apply Z.land_nonneg. right. now cbn.
Qed.

(** So is the number of bits of a sample. *)
Lemma bps_positive (m5 : HeaderParser) (c : vdif_class) (e : edv_t)
  (ws : list Z) (b : Z) :
  c <> VDIFMark5BHeader ->
  bps m5 (MkHeader c e ws) = Ok b -> 0 < b.
Proof.
  intros Hc. unfold bps, h_getitem.
  rewrite !(table_read _ (class_table_in_step m5 c)). cbn [cls words].
  legacy_field m5 c Hc "bits_per_sample"%string (fd 3 26 5).
  legacy_field m5 c Hc "complex_data"%string (fd 3 31 1).
  cbn [fd word_index bit_index bit_length] in *. rewrite H, H0.
  cbn [word_index]. destruct (nth_error ws 3) as [w|]; [|discriminate].
  unfold field_read.
  cbn [bit_length bit_index Z.eqb Pos.eqb Z.ltb Z.compare bind as_int].
  assert (0 <= get_field 26 5 w)
    by (unfold get_field; apply Z.land_nonneg; right; now cbn).
  intros Heq. apply Ok_inj in Heq. rewrite <- Heq.
  destruct (truthy _); lia.
Qed.

(** X15.  Whenever [header.samples_per_frame = s] returns, on a header of a
    class other than the Mark 5B one with [bps] bits a sample and [nchan]
    channels, [header.samples_per_frame] then reads a number that is at
    least [s] and exceeds it by less than the samples of one 64-bit long,
    [32 // bps * 2 / nchan]; it is [s] itself when the samples fill whole
    longs.  [bps] and [nchan] read as before. *)
Theorem set_samples_per_frame_holds (m5 : HeaderParser) (c : vdif_class)
  (e : edv_t) (ws : list Z) (s b n : Z) (h' : header) :
  c <> VDIFMark5BHeader ->
  let h := MkHeader c e ws in
  bps m5 h = Ok b ->
  nchan m5 h = Ok n ->
  set_samples_per_frame m5 s h = (h', Ok tt) ->
  bps m5 h' = Ok b /\ nchan m5 h' = Ok n /\
  exists s',
    samples_per_frame m5 h' = Ok s' /\
    s <= s' /\ (s' - s) * n < 32 / b * 2 /\
    ((s * n) mod (32 / b * 2) = 0 -> s' = s).
Proof.
  intros Hc h Hb Hn.
  pose proof (nchan_positive m5 c e ws n Hc Hn) as Hpos.
  unfold set_samples_per_frame, se_bind, reading, se_lift.
  rewrite Hb, Hn. unfold py_floordiv.
  destruct (Z.eqb_spec b 0) as [Hb0 | Hb0]; [discriminate|].
  set (vpl := 32 / b * 2).
  destruct (Z.eqb_spec vpl 0) as [Hv0 | Hv0]; [discriminate|].
  set (longs := if (s * n) mod vpl =? 0 then s * n / vpl
                else s * n / vpl + 1).
  intros Hset.
  legacy_field m5 c Hc "frame_length"%string (fd 2 0 24).
  cbn [fd word_index bit_index bit_length] in *.
  pose proof (setitem_same m5 h h' _ _ _ H ltac:(cbn; lia) Hset) as Hread.
  cbn [bit_length as_field_value Z.eqb Pos.eqb] in Hread.
  destruct (setitem_shape m5 _ _ _ _ _ Hset) as (Hcls & _ & _).
  assert (Hrest : forall other, other <> "frame_length"%string ->
                    h_getitem m5 h' other = h_getitem m5 h other).
  { intros other Hne.
    now apply (setitem_other m5 c e ws "frame_length"
                 (Some (VInt (longs + size h / 8)))). }
  assert (Hb' : bps m5 h' = Ok b).
  { unfold bps in *. now rewrite !Hrest by discriminate. }
  assert (Hn' : nchan m5 h' = Ok n).
  { unfold nchan in *. now rewrite !Hrest by discriminate. }
  split; [exact Hb'|]. split; [exact Hn'|].
  assert (Hvpl : 0 < vpl).
  { pose proof (bps_positive m5 c e ws b Hc Hb) as Hbpos.
    pose proof (Z.div_pos 32 b ltac:(lia) Hbpos). subst vpl. lia. }
  assert (Hlongs : s * n <= longs * vpl < s * n + vpl /\
                   ((s * n) mod vpl = 0 -> longs * vpl = s * n)).
  { pose proof (Z.div_mod (s * n) vpl ltac:(lia)) as Hdm.
    pose proof (Z.mod_pos_bound (s * n) vpl Hvpl) as Hmod.
    subst longs. destruct (Z.eqb_spec ((s * n) mod vpl) 0) as [Hz | Hnz].
    - split; [|intros _]; nia.
    - split; [|intros Hz; contradiction]. nia. }
  assert (Hspf : samples_per_frame m5 h' = Ok (longs * vpl / n)).
  { unfold samples_per_frame. rewrite Hb'. cbn [bind]. unfold py_floordiv.
    replace (b =? 0) with false by (symmetry; now apply Z.eqb_neq).
    cbn [bind]. unfold payloadsize, framesize. rewrite Hread.
    cbn [bind as_int]. rewrite Hn'. cbn [bind].
    replace (n =? 0) with false by (symmetry; apply Z.eqb_neq; lia).
    f_equal. f_equal.
    replace (size h') with (size h) by (unfold size; now rewrite Hcls).
    pose proof (header_size_eights h) as Hsize.
    replace ((longs + size h / 8) * 8 - size h) with (longs * 2 * 4) by lia.
    rewrite Z.div_mul by lia. subst vpl. ring. }
  exists (longs * vpl / n). split; [exact Hspf|].
  destruct Hlongs as [[Hlow Hhigh] Hexact].
  pose proof (Z.div_mod (longs * vpl) n ltac:(lia)) as Hdm.
  pose proof (Z.mod_pos_bound (longs * vpl) n Hpos) as Hmod.
  repeat split.
  - apply Z.div_le_lower_bound; lia.
  - nia.
  - intros Hz. rewrite (Hexact Hz). apply Z.div_mul. lia.
Qed.

Lemma set_samples_per_frame_holds_witness :
  let h := MkHeader VDIFHeader1 (EdvInt 1)
                    [100; 0; 5; Z.shiftl 1 26; 0x01000000; 0xACABFEED;
                     0; 0] in
  let h' := MkHeader VDIFHeader1 (EdvInt 1)
                     [100; 0; 8; Z.shiftl 1 26; 0x01000000; 0xACABFEED;
                      0; 0] in
  bps (MkHeaderParser [] []) h' = Ok 2 /\
  nchan (MkHeaderParser [] []) h' = Ok 1 /\
  exists s',
    samples_per_frame (MkHeaderParser [] []) h' = Ok s' /\
    100 <= s' /\ (s' - 100) * 1 < 32 / 2 * 2 /\
    ((100 * 1) mod (32 / 2 * 2) = 0 -> s' = 100).
Proof.
  apply (set_samples_per_frame_holds
           (MkHeaderParser [] []) VDIFHeader1 (EdvInt 1)
           [100; 0; 5; Z.shiftl 1 26; 0x01000000; 0xACABFEED; 0; 0]
           100 2 1).
  - discriminate.
  - reflexivity.
  - reflexivity.
  - reflexivity.
Defined.

(** ** The station and the stream of a header *)

Lemma setitem_words (m5 : HeaderParser) (h h' : header) (item : string)
  (value : option pyval) (d : field_def) (j : nat) :
  od_get (items (header_parser m5 (cls h))) item = Some d ->
  h_setitem m5 item value h = (h', Ok tt) ->
  j <> word_index d ->
  nth_error (words h') j = nth_error (words h) j.
Proof.
  intros Hd Hset Hj. unfold h_setitem, setters, od_getitem in Hset.
  rewrite Hd in Hset. cbn [bind] in Hset.
  destruct (make_setter _ _ _ _ _ _) as [ws'|x] eqn:Hs; [|discriminate].
  injection Hset as <-. unfold set_words. cbn [words].
  apply make_setter_ok in Hs as (val & w & _ & Hw & _ & _ & _ & ->).
  apply replaced_other; [|assumption].
  apply nth_error_Some. congruence.
Qed.

Lemma two_bytes (c0 c1 : Z) :
  0 <= c0 -> 0 <= c1 < 256 ->
  Z.shiftr (Z.shiftl c0 8 + c1) 8 = c0 /\
  Z.land (Z.shiftl c0 8 + c1) 0xff = c1.
Proof.
  intros H0 H1. rewrite Z.shiftl_mul_pow2, Z.shiftr_div_pow2 by lia.
  change 0xff with (Z.ones 8). rewrite Z.land_ones by lia.
  change (2 ^ 8) with 256. split.
  - symmetry. apply (Z.div_unique_pos _ 256 c0 c1); lia.
  - symmetry. apply (Z.mod_unique_pos _ 256 c0); lia.
Qed.

(** X16.  Whenever [header.station = s] returns, on a header of a class
    other than the Mark 5B one: for a string [s] whose first character is
    from ['0'] (48) to code 127 and whose second is below 256,
    [header.station] reads these two characters back; for an integer [s]
    it reads [s] back, unless the high byte of [s] is from 48 to 127: then
    it reads the two characters with the codes of the two bytes. *)
Theorem station_reads_back (m5 : HeaderParser) (c : vdif_class)
  (e : edv_t) (ws : list Z) (s : station_t) (h' : header) :
  c <> VDIFMark5BHeader ->
  set_station m5 s (MkHeader c e ws) = (h', Ok tt) ->
  (forall c0 c1 rest,
      s = StationChars (c0 :: c1 :: rest) ->
      48 <= c0 < 128 -> 0 <= c1 < 256 ->
      station m5 h' = Ok (StationChars [c0; c1])) /\
  (forall z,
      s = StationId z ->
      0 <= z < 2 ^ 16 /\
      station m5 h'
      = Ok (if (48 <=? Z.shiftr z 8) && (Z.shiftr z 8 <? 128)
            then StationChars [Z.shiftr z 8; Z.land z 0xff]
            else StationId z)).
Proof.
  intros Hc Hset.
  legacy_field m5 c Hc "station_id"%string (fd 3 0 16).
  cbn [fd word_index bit_index bit_length] in *.
  assert (Hread : forall v,
             h_setitem m5 "station_id" (Some (VInt v)) (MkHeader c e ws)
             = (h', Ok tt) ->
             0 <= v < 2 ^ 16 /\
             h_getitem m5 h' "station_id" = Ok (VInt v)).
  { intros v Hv. split.
    - pose proof Hv as Hs. unfold h_setitem, setters, od_getitem in Hs.
      cbn [cls words] in Hs. rewrite H in Hs.
      cbn [bind word_index bit_index bit_length default] in Hs.
      destruct (make_setter 3 0 16 x ws (Some (VInt v))) as [ws'|y] eqn:Hm;
        [|discriminate].
      apply make_setter_ok in Hm as (val & w & Hint & _ & _ & _ & Hval & _).
      assert (val = v) by (destruct x; now injection Hint).
      now subst val.
    - now apply (setitem_same m5 (MkHeader c e ws) h' _ _ _ H
                   ltac:(cbn; lia)). }
  split.
  - intros c0 c1 rest -> Hc0 Hc1.
    unfold set_station, se_bind, se_lift, getitem in Hset.
    cbn [nth_error] in Hset.
    destruct (Hread _ Hset) as [_ Hid].
    unfold station. rewrite Hid. cbn [bind as_int].
    destruct (two_bytes c0 c1 ltac:(lia) Hc1) as [-> ->].
    replace ((48 <=? c0) && (c0 <? 128)) with true; [reflexivity|].
    symmetry. apply andb_true_iff. split; [apply Z.leb_le | apply Z.ltb_lt];
      lia.
  - intros z ->. unfold set_station in Hset.
    destruct (Hread _ Hset) as [Hz Hid]. split; [exact Hz|].
    unfold station. rewrite Hid. cbn [bind as_int].
    now destruct ((48 <=? Z.shiftr z 8) && (Z.shiftr z 8 <? 128)).
Qed.

Lemma station_reads_back_witness :
  station (MkHeaderParser [] [])
          (MkHeader VDIFHeader1 (EdvInt 1)
                    [100; 0; 5; 0x4172; 0x01000000; 0xACABFEED; 0; 0])
  = Ok (StationChars [0x41; 0x72]).
Proof.
  refine (proj1 (station_reads_back
                   (MkHeaderParser [] []) VDIFHeader1 (EdvInt 1)
                   (edv1_words 0 0) (StationChars [0x41; 0x72]) _ _ _)
                0x41 0x72 [] eq_refl _ _).
  - discriminate.
  - reflexivity.
  - lia.
  - lia.
Defined.

Lemma edv_eq_refl (e : edv_t) : edv_eq e e = true.
Proof.
  destruct e; cbn; try reflexivity. apply Z.eqb_refl.
Qed.

(** Reading one of the legacy fields of a header with four words or
    more. *)
Lemma legacy_field_read (m5 : HeaderParser) (c : vdif_class) (e : edv_t)
  (ws : list Z) (k : string) (d : field_def) :
  c <> VDIFMark5BHeader -> (4 <= length ws)%nat ->
  In (k, d) Legacy_fields ->
  exists v, h_getitem m5 (MkHeader c e ws) k = Ok v.
Proof.
  intros Hc Hlen Hin.
  destruct (class_field m5 c k d Hc Hin) as [dflt Hd].
  unfold h_getitem. rewrite (table_read _ (class_table_in_step m5 c)).
  cbn [cls words]. rewrite Hd. cbn [word_index].
  assert (Hwi : (word_index d < 4)%nat).
  { unfold Legacy_fields in Hin. cbn [In] in Hin.
    repeat match type of Hin with
           | _ \/ _ => destruct Hin as [Hin | Hin]
           end;
      try contradiction; injection Hin as <- <-; cbn; lia. }
  destruct (nth_error ws (word_index d)) as [w|] eqn:Hw.
  2:{ apply nth_error_None in Hw. lia. }
  assert (Hbi : 0 <= bit_index d).
  { unfold Legacy_fields in Hin. cbn [In] in Hin.
    repeat match type of Hin with
           | _ \/ _ => destruct Hin as [Hin | Hin]
           end;
      try contradiction; injection Hin as <- <-; cbn; lia. }
  unfold field_read. cbn [bit_length bit_index].
  replace (bit_index d <? 0) with false by (symmetry; apply Z.ltb_ge; lia).
  repeat match goal with
         | |- context [if ?b then _ else _] => destruct b
         end; eexists; reflexivity.
Qed.

Lemma all_keys_equal_same (m5 : HeaderParser) (keys : list string)
  (h h' : header) :
  Forall (fun k => exists v, h_getitem m5 h k = Ok v /\
                             h_getitem m5 h' k = Ok v) keys ->
  all_keys_equal m5 keys h h' = Ok true /\
  all_keys_equal m5 keys h' h = Ok true.
Proof.
  induction 1 as [|k keys (v & Hv & Hv') _ [IH IH']]; [now split|].
  cbn [all_keys_equal]. rewrite Hv, Hv'. cbn [bind].
  unfold pyval_eqb. rewrite Z.eqb_refl. now split.
Qed.

(** X17.  A header of a class other than the Mark 5B one, with the words
    of its struct: after ['seconds'], ['frame_nr'], ['thread_id'] or
    ['invalid_data'] has been set, the old and the new header are of the
    same stream for [same_stream], either way round. *)
Theorem same_stream_after_setitem (m5 : HeaderParser) (c : vdif_class)
  (e : edv_t) (ws : list Z) (item : string) (value : option pyval)
  (h' : header) :
  c <> VDIFMark5BHeader ->
  length ws = struct_words c ->
  In item ["seconds"; "frame_nr"; "thread_id"; "invalid_data"]%string ->
  h_setitem m5 item value (MkHeader c e ws) = (h', Ok tt) ->
  same_stream m5 (MkHeader c e ws) h' = Ok true /\
  same_stream m5 h' (MkHeader c e ws) = Ok true.
Proof.
  intros Hc Hlen Hitem Hset.
  set (h := MkHeader c e ws) in *.
  destruct (setitem_shape m5 _ _ _ _ _ Hset) as (Hcls & Hedv & Hwords).
  assert (Hfour : (4 <= length ws)%nat) by (rewrite Hlen; destruct c; cbn; lia).
  assert (Hkeys : Forall (fun k => exists v, h_getitem m5 h k = Ok v /\
                                             h_getitem m5 h' k = Ok v)
                         ["ref_epoch"; "vdif_version"; "frame_length";
                          "complex_data"; "bits_per_sample";
                          "station_id"]%string).
  { repeat (apply Forall_cons; [|]); try apply Forall_nil;
      match goal with
      | |- exists v, h_getitem m5 h ?k = Ok v /\ _ =>
          let d := fresh "d" in
          assert (exists d, In (k, d) Legacy_fields) as [d Hin]
            by (unfold Legacy_fields; eexists; cbn [In]; tauto);
          destruct (legacy_field_read m5 c e ws k d Hc Hfour Hin)
            as [v Hv];
          exists v; split; [exact Hv|];
          rewrite (setitem_other m5 c e ws item value h' k Hc Hset);
          [exact Hv|];
          let Heq := fresh "Heq" in
          cbn [In] in Hitem; intros Heq; rewrite <- Heq in Hitem;
          repeat destruct Hitem as [Hitem | Hitem];
          try discriminate Hitem; exact Hitem
      end. }
  destruct (all_keys_equal_same m5 _ h h' Hkeys) as [Hfore Hback].
  assert (Hbase : same_stream_base m5 h h' = Ok true /\
                  same_stream_base m5 h' h = Ok true).
  { unfold same_stream_base. rewrite Hedv. cbn [edv h].
    rewrite edv_eq_refl. now split. }
  destruct Hbase as [Hbase Hbase'].
  unfold same_stream. rewrite Hcls. cbn [cls h].
  destruct (has_framerate c) eqn:Hrate; [|now split].
  rewrite Hbase, Hbase'. cbn [bind].
  assert (Height : length ws = 8%nat)
    by (rewrite Hlen; destruct c; try discriminate; reflexivity).
  assert (Hd : exists d, od_get (items (header_parser m5 (cls h))) item
                         = Some d /\ (word_index d < 4)%nat).
  { cbn [In] in Hitem. cbn [cls h].
    repeat destruct Hitem as [Hitem | Hitem]; try contradiction;
      subst item.
    - legacy_field m5 c Hc "seconds"%string (fd 0 0 30).
      eexists. split; [eassumption | cbn; lia].
    - legacy_field m5 c Hc "frame_nr"%string (fdd 1 0 24 (VInt 0)).
      eexists. split; [eassumption | cbn; lia].
    - legacy_field m5 c Hc "thread_id"%string (fdd 3 16 10 (VInt 0)).
      eexists. split; [eassumption | cbn; lia].
    - legacy_field m5 c Hc "invalid_data"%string (fdd 0 31 1 (VBool false)).
      eexists. split; [eassumption | cbn; lia]. }
  destruct Hd as (d & Hd & Hwi).
  unfold getitem.
  rewrite (setitem_words m5 h h' item value d 4 Hd Hset) by lia.
  rewrite (setitem_words m5 h h' item value d 5 Hd Hset) by lia.
  cbn [words h].
  do 6 (destruct ws as [|? ws]; [discriminate|]).
  cbn [nth_error bind]. rewrite !Z.eqb_refl. now split.
Qed.

Lemma same_stream_after_setitem_witness :
  let h := MkHeader VDIFHeader1 (EdvInt 1) (edv1_words 0 0) in
  let h' := MkHeader VDIFHeader1 (EdvInt 1)
                     [100; put_field 0 24 7 0; 5; Z.shiftl 0 16;
                      0x01000000; 0xACABFEED; 0; 0] in
  same_stream (MkHeaderParser [] []) h h' = Ok true /\
  same_stream (MkHeaderParser [] []) h' h = Ok true.
Proof.
  apply (same_stream_after_setitem
           (MkHeaderParser [] []) VDIFHeader1 (EdvInt 1) (edv1_words 0 0)
           "frame_nr" (Some (VInt 7))).
  - discriminate.
  - reflexivity.
  - cbn [In]. tauto.
  - apply (write_frame_nr (MkHeaderParser [] []) VDIFHeader1 (EdvInt 1)
             100 0 [5; Z.shiftl 0 16; 0x01000000; 0xACABFEED; 0; 0] 7);
      [discriminate | lia].
Defined.
(** ** A header written and read back *)

Import HeaderOutput.

Lemma byte_of_Z_value (z : Z) : Z.of_N (Byte.to_N (byte_of_Z z)) = z mod 256.
Proof.
  unfold byte_of_Z.
  pose proof (Z.mod_pos_bound z 256 ltac:(lia)) as Hz.
  destruct (Byte.of_N (Z.to_N (z mod 256))) as [b|] eqn:Hb.
  - apply Byte.to_of_N in Hb. rewrite Hb. lia.
  - apply Byte.of_N_None_iff in Hb. lia.
Qed.

Lemma le_word_bytes (w : Z) : 0 <= w < 2 ^ 32 -> le_word (le_bytes w) = w.
Proof.
  intros Hw. unfold le_word, le_bytes. cbn [fold_right].
  rewrite !byte_of_Z_value, !Z.shiftr_div_pow2 by lia.
  change (2 ^ 8) with 256. change (2 ^ 16) with 65536.
  change (2 ^ 24) with 16777216. change (2 ^ 32) with 4294967296 in Hw.
  Z.div_mod_to_equations. lia.
Qed.

Lemma le_words_pack (ws : list Z) (rest : list byte) :
  forallb word_fits ws = true ->
  le_words (length ws) (struct_pack ws ++ rest) = ws.
Proof.
  induction ws as [|w ws IH]; [reflexivity|].
  cbn [forallb]. intros [Hw Hws]%andb_true_iff.
  unfold word_fits in Hw. apply andb_true_iff in Hw as [Hlo Hhi].
  apply Z.leb_le in Hlo. apply Z.ltb_lt in Hhi.
  cbn [length le_words]. unfold struct_pack. cbn [flat_map].
  fold (struct_pack ws).
  change (le_bytes w ++ struct_pack ws)
    with ([byte_of_Z w; byte_of_Z (Z.shiftr w 8);
           byte_of_Z (Z.shiftr w 16); byte_of_Z (Z.shiftr w 24)]
          ++ struct_pack ws).
  cbn [app firstn skipn].
  change [byte_of_Z w; byte_of_Z (Z.shiftr w 8);
          byte_of_Z (Z.shiftr w 16); byte_of_Z (Z.shiftr w 24)]
    with (le_bytes w).
  rewrite le_word_bytes by lia. f_equal. now apply IH.
Qed.

Lemma struct_pack_length (ws : list Z) :
  length (struct_pack ws) = (4 * length ws)%nat.
Proof.
  induction ws as [|w ws IH]; [reflexivity|].
  unfold struct_pack in *. cbn [flat_map length].
  rewrite length_app, IH. cbn [le_bytes length]. lia.
Qed.

(** What is ahead of the old position after a write inside the file or at
    its end. *)
Lemma fh_write_ahead (s : list byte) (fh : file) :
  0 <= pos fh -> (Z.to_nat (pos fh) <= length (content fh))%nat ->
  exists fh',
    fh_write s fh = (fh', Ok tt) /\
    pos fh' = pos fh + Z.of_nat (length s) /\
    skipn (Z.to_nat (pos fh)) (content fh')
    = s ++ skipn (Z.to_nat (pos fh) + length s) (content fh).
Proof.
  intros Hpos Hin. unfold fh_write. eexists. split; [reflexivity|].
  cbn [pos content]. split; [reflexivity|].
  replace (Z.to_nat (pos fh) - length (content fh))%nat with 0%nat by lia.
  cbn [repeat]. rewrite app_nil_r.
  rewrite skipn_app, length_firstn, Nat.min_l by assumption.
  rewrite Nat.sub_diag, skipn_all2 by (rewrite length_firstn; lia).
  reflexivity.
Qed.

Lemma class_of_edv_eight (E : Z) :
  E <> 0 -> struct_words (class_of_edv (EdvInt E)) = 8%nat.
Proof.
  intros HE. destruct (class_of_edv (EdvInt E)) eqn:Hc; try reflexivity.
  exfalso. revert Hc. unfold class_of_edv.
  destruct E as [|p|p]; [congruence| |discriminate].
  repeat (destruct p as [p|p|]; try discriminate).
Qed.

(** X19.  A header with eight words of 32 bits, bit 30 of word 0 clear and
    an EDV byte [E] other than 0, of the class that [vdif_header_classes]
    has under [E] and with [edv = E]: [tofile], inside a file or at its
    end, writes 32 bytes, and [VDIFHeader.fromfile] from where they start
    returns this very header and leaves the reader where the writer was;
    with [verify=True] the outcome is that of [verify] on it. *)
Theorem tofile_fromfile (m5 : HeaderParser)
  (time_agrees : list Z -> result unit) (v : bool) (fh : file)
  (ws : list Z) :
  0 <= pos fh -> (Z.to_nat (pos fh) <= length (content fh))%nat ->
  length ws = 8%nat ->
  forallb word_fits ws = true ->
  Z.testbit (nth 0 ws 0) 30 = false ->
  let E := get_field 24 8 (nth 4 ws 0) in
  E <> 0 ->
  let h := MkHeader (class_of_edv (EdvInt E)) (EdvInt E) ws in
  exists fh',
    tofile h fh = (fh', Ok tt) /\
    pos fh' = pos fh + 32 /\
    fromfile m5 time_agrees EdvNone v (MkFile (content fh') (pos fh))
    = (fh', if v then verify m5 time_agrees h ;;; Ok h else Ok h).
Proof.
  intros Hpos Hin Hlen Hfits Hbit E HE h.
  assert (Hbytes : tobytes h = Ok (struct_pack ws)).
  { unfold tobytes, struct_pack_checked. subst h. cbn [cls words].
    rewrite class_of_edv_eight by assumption.
    now rewrite Hlen, Hfits. }
  destruct (fh_write_ahead (struct_pack ws) fh Hpos Hin)
    as (fh' & Hwrite & Hpos' & Hahead).
  rewrite struct_pack_length, Hlen in Hpos', Hahead.
  change (Z.of_nat (4 * 8)) with 32 in Hpos'.
  exists fh'. split.
  { unfold tofile, se_bind, se_lift. now rewrite Hbytes. }
  split; [exact Hpos'|].
  assert (Hlen32 : length (struct_pack ws) = 32%nat)
    by (now rewrite struct_pack_length, Hlen).
  pose proof (fh_read_ahead (MkFile (content fh') (pos fh))
                (struct_pack ws) _ 32 Hahead Hlen32) as Hread.
  change (Z.of_nat 32) with 32 in Hread. cbn [pos content] in Hread.
  unfold fromfile, se_bind. rewrite Hread, Hlen32. cbn [Nat.eqb negb].
  unfold se_lift, struct_unpack. rewrite Hlen32.
  cbn [Nat.eqb Nat.mul Nat.add].
  pose proof (le_words_pack ws [] Hfits) as Hwords.
  rewrite app_nil_r, Hlen in Hwords. rewrite Hwords.
  subst h E.
  do 8 (destruct ws as [|? ws]; [discriminate|]).
  destruct ws; [|discriminate]. cbn [nth] in *.
  rewrite (call_not_legacy m5 time_agrees _ _ _ _ _ _ Hbit).
  replace (get_field 24 8 z3 =? 0) with false
    by (symmetry; now apply Z.eqb_neq).
  cbn [edv edv_is_false]. unfold se_ret. rewrite <- Hpos'.
  replace (MkFile (content fh') (pos fh')) with fh' by now destruct fh'.
  destruct v; [|reflexivity].
  match goal with
  | |- context [verify m5 time_agrees ?h] =>
      destruct (verify m5 time_agrees h) as [[]|x]
  end; reflexivity.
Qed.

Lemma tofile_fromfile_witness :
  exists fh',
    tofile (MkHeader VDIFHeader1 (EdvInt 1) (edv1_words 0 0)) (MkFile [] 0)
    = (fh', Ok tt) /\
    pos fh' = 0 + 32 /\
    fromfile (MkHeaderParser [] []) (fun _ => Ok tt) EdvNone false
             (MkFile (content fh') 0)
    = (fh', Ok (MkHeader VDIFHeader1 (EdvInt 1) (edv1_words 0 0))).
Proof.
  refine (tofile_fromfile (MkHeaderParser [] []) (fun _ => Ok tt) false
            (MkFile [] 0) (edv1_words 0 0) _ _ _ _ _ _).
  - cbn. lia.
  - cbn. lia.
  - reflexivity.
  - reflexivity.
  - reflexivity.
  - discriminate.
Defined.

(** X20.  A legacy header with four words of 32 bits: [tofile] writes 16
    bytes.  Read from where they start with [edv=False],
    [VDIFHeader.fromfile] returns this header and leaves the reader
    behind it when 16 bytes or more follow it in the file; when fewer
    follow, as for a header written at the end of the file, it raises
    [EOFError]. *)
Theorem tofile_fromfile_legacy (m5 : HeaderParser)
  (time_agrees : list Z -> result unit) (fh : file) (ws : list Z) :
  0 <= pos fh -> (Z.to_nat (pos fh) <= length (content fh))%nat ->
  length ws = 4%nat ->
  forallb word_fits ws = true ->
  let h := MkHeader VDIFLegacyHeader EdvFalse ws in
  exists fh',
    tofile h fh = (fh', Ok tt) /\
    pos fh' = pos fh + 16 /\
    let back := fromfile m5 time_agrees EdvFalse false
                         (MkFile (content fh') (pos fh)) in
    ((Z.to_nat (pos fh) + 32 <= length (content fh))%nat ->
     back = (fh', Ok h)) /\
    ((length (content fh) < Z.to_nat (pos fh) + 32)%nat ->
     snd back = Raise EOFError).
Proof.
  intros Hpos Hin Hlen Hfits h.
  assert (Hbytes : tobytes h = Ok (struct_pack ws)).
  { unfold tobytes, struct_pack_checked. subst h. cbn [cls words struct_words].
    now rewrite Hlen, Hfits. }
  destruct (fh_write_ahead (struct_pack ws) fh Hpos Hin)
    as (fh' & Hwrite & Hpos' & Hahead).
  assert (Hlen16 : length (struct_pack ws) = 16%nat)
    by (now rewrite struct_pack_length, Hlen).
  rewrite Hlen16 in Hpos', Hahead. change (Z.of_nat 16) with 16 in Hpos'.
  exists fh'. split.
  { unfold tofile, se_bind, se_lift. now rewrite Hbytes. }
  split; [exact Hpos'|].
  set (after := skipn (Z.to_nat (pos fh) + 16) (content fh)) in *.
  assert (Hafter : length after = (length (content fh)
                                   - (Z.to_nat (pos fh) + 16))%nat)
    by (subst after; apply length_skipn).
  cbv zeta. split.
  - intros Hroom.
    assert (Hsplit : skipn (Z.to_nat (pos fh)) (content fh')
                     = (struct_pack ws ++ firstn 16 after)
                       ++ skipn 16 after)
      by (now rewrite <- app_assoc, firstn_skipn).
    assert (Hlen32 : length (struct_pack ws ++ firstn 16 after) = 32%nat)
      by (rewrite length_app, Hlen16, length_firstn; lia).
    pose proof (fh_read_ahead (MkFile (content fh') (pos fh)) _ _ 32
                  Hsplit Hlen32) as Hread.
    change (Z.of_nat 32) with 32 in Hread. cbn [pos content] in Hread.
    unfold fromfile, se_bind. rewrite Hread, Hlen32. cbn [Nat.eqb negb].
    unfold se_lift, struct_unpack. rewrite Hlen32.
    cbn [Nat.eqb Nat.mul Nat.add].
    change (VDIFHeader_call m5 time_agrees
              (le_words 8 (struct_pack ws ++ firstn 16 after)) EdvFalse false)
      with (Ok (MkHeader VDIFLegacyHeader EdvFalse
                  (le_words 8 (struct_pack ws ++ firstn 16 after)))).
    cbn [edv edv_is_false].
    rewrite fh_seek_current by (cbn [pos]; lia).
    unfold se_ret, set_words. cbn [cls edv words pos content].
    change (firstn 4 (le_words 8 (struct_pack ws ++ firstn 16 after)))
      with (le_words 4 (struct_pack ws ++ firstn 16 after)).
    pose proof (le_words_pack ws (firstn 16 after) Hfits) as Hwords.
    rewrite Hlen in Hwords. rewrite Hwords.
    replace (pos fh + 32 + -16) with (pos fh') by lia.
    now destruct fh'.
  - intros Hshort.
    unfold fromfile, se_bind, fh_read. cbn [pos content].
    change (32 <? 0) with false. cbn iota. rewrite Hahead.
    rewrite firstn_all2
      by (rewrite length_app; change (Z.to_nat 32) with 32%nat; lia).
    replace (length (struct_pack ws ++ after) =? 32)%nat with false
      by (symmetry; apply Nat.eqb_neq; rewrite length_app; lia).
    reflexivity.
Qed.

Lemma tofile_fromfile_legacy_witness :
  exists fh',
    tofile (MkHeader VDIFLegacyHeader EdvFalse legacy_words) legacy_file
    = (fh', Ok tt) /\
    pos fh' = pos legacy_file + 16 /\
    let back := fromfile (MkHeaderParser [] []) (fun _ => Ok tt) EdvFalse
                         false (MkFile (content fh') (pos legacy_file)) in
    ((Z.to_nat (pos legacy_file) + 32 <= length (content legacy_file))%nat ->
     back = (fh', Ok (MkHeader VDIFLegacyHeader EdvFalse legacy_words))) /\
    ((length (content legacy_file) < Z.to_nat (pos legacy_file) + 32)%nat ->
     snd back = Raise EOFError).
Proof.
  refine (tofile_fromfile_legacy (MkHeaderParser [] []) (fun _ => Ok tt)
            legacy_file legacy_words _ _ _ _).
  - cbn. lia.
  - cbn. lia.
  - reflexivity.
  - reflexivity.
Defined.
(** ** A header rebuilt from its own fields *)

Import FromKeys.

Lemma high_bits_word32 (w n : Z) :
  word32 w -> 32 <= n -> Z.testbit w n = false.
Proof.
  intros Hw Hn.
  apply (fitting_high_bits w 32); [lia | | assumption].
  apply fits_range; [lia | exact Hw].
Qed.

Lemma word32_of_bits (x : Z) :
  0 <= x -> (forall n, 32 <= n -> Z.testbit x n = false) -> word32 x.
Proof.
  intros Hx Hbits. unfold word32. split; [assumption|].
  assert (Hland : Z.land x (Z.ones 32) = x).
  { apply Z.bits_inj'. intros n Hn.
    rewrite Z.land_spec, Z.testbit_ones_nonneg by lia.
    destruct (Z.ltb_spec n 32) as [Hlt | Hge].
    - apply andb_true_r.
    - rewrite Hbits by assumption. reflexivity. }
  rewrite Z.land_ones in Hland by lia.
  rewrite <- Hland. apply Z.mod_pos_bound. lia.
Qed.

Lemma ones_not_negative (bl : Z) : 0 <= bl -> 0 <= Z.ones bl.
Proof.
  intros Hbl. rewrite Z.ones_equiv.
  pose proof (Z.pow_pos_nonneg 2 bl ltac:(lia) Hbl). lia.
Qed.

Lemma put_field_bit (bi bl v w n : Z) :
  0 <= bi -> 0 <= bl -> 0 <= v < 2 ^ bl -> 0 <= n ->
  Z.testbit (put_field bi bl v w) n
  = if (bi <=? n) && (n <? bi + bl) then Z.testbit v (n - bi)
    else Z.testbit w n.
Proof.
  intros Hbi Hbl Hv Hn. unfold put_field.
  rewrite Z.lor_spec, Z.lxor_spec, Z.lor_spec, !Z.shiftl_spec by lia.
  destruct (Z.leb_spec bi n) as [Hle | Hlt]; cbn [andb].
  - rewrite Z.testbit_ones_nonneg by lia.
    destruct (Z.ltb_spec n (bi + bl)) as [Hin | Hout].
    + replace (n - bi <? bl) with true by (symmetry; apply Z.ltb_lt; lia).
      rewrite orb_true_r. reflexivity.
    + replace (n - bi <? bl) with false by (symmetry; apply Z.ltb_ge; lia).
      rewrite (fitting_high_bits v bl Hbl (fits_range v bl Hbl Hv))
        by lia.
      rewrite orb_false_r, xorb_false_r, orb_false_r. reflexivity.
  - rewrite (Z.testbit_neg_r (Z.ones bl) (n - bi)),
      (Z.testbit_neg_r v (n - bi)) by lia.
    rewrite orb_false_r, xorb_false_r, orb_false_r. reflexivity.
Qed.

Section FieldFits.

Variable nwords : nat.
Variable d : field_def.
Hypothesis d_fits : field_fits nwords d = true.

Lemma field_fits_facts :
  (word_index d < nwords)%nat /\ 0 <= bit_index d /\ 0 <= bit_length d /\
  (bit_length d = 32 -> bit_index d = 0).
Proof.
  unfold field_fits in d_fits.
  apply andb_true_iff in d_fits as [[[Hwi Hbi]%andb_true_iff
                                       Hbl]%andb_true_iff H32].
  apply Nat.ltb_lt in Hwi. apply Z.leb_le in Hbi. apply Z.leb_le in Hbl.
  repeat split; try assumption.
  intros Heq. rewrite Heq in H32. cbn in H32. now apply Z.eqb_eq.
Qed.

Lemma stored_range (w : Z) :
  word32 w -> 0 <= stored d w < 2 ^ bit_length d.
Proof.
  destruct field_fits_facts as (_ & Hbi & Hbl & _).
  intros Hw. unfold stored.
  destruct (Z.eqb_spec (bit_length d) 32) as [-> | _]; [exact Hw|].
  unfold get_field. rewrite Z.land_ones by assumption.
  apply Z.mod_pos_bound. lia.
Qed.

Lemma stored_bit (w m : Z) :
  word32 w -> 0 <= m ->
  Z.testbit (stored d w) m
  = Z.testbit w (m + bit_index d) && (m <? bit_length d).
Proof.
  destruct field_fits_facts as (_ & Hbi & Hbl & H32).
  intros Hw Hm. unfold stored.
  destruct (Z.eqb_spec (bit_length d) 32) as [Heq | _].
  - rewrite Heq, (H32 Heq), Z.add_0_r.
    destruct (Z.ltb_spec m 32) as [Hlt | Hge].
    + now rewrite andb_true_r.
    + now rewrite high_bits_word32.
  - unfold get_field.
    now rewrite Z.land_spec, Z.shiftr_spec, Z.testbit_ones_nonneg by lia.
Qed.

(** What a read of the field gives. *)
Lemma field_read_by_stored (w : Z) :
  field_read d w
  = Ok (if bit_length d =? 1 then VBool (negb (stored d w =? 0))
        else VInt (stored d w)).
Proof.
  destruct field_fits_facts as (_ & Hbi & Hbl & _).
  unfold field_read, stored.
  replace (bit_index d <? 0) with false by (symmetry; apply Z.ltb_ge; lia).
  destruct (Z.eqb_spec (bit_length d) 1) as [Heq | _].
  - rewrite Heq. reflexivity.
  - destruct (bit_length d =? 32); reflexivity.
Qed.

Lemma field_read_int (w : Z) (v : pyval) :
  field_read d w = Ok v -> as_int v = stored d w.
Proof.
  destruct field_fits_facts as (_ & Hbi & Hbl & _).
  rewrite field_read_by_stored. intros Heq. apply Ok_inj in Heq.
  rewrite <- Heq.
  destruct (Z.eqb_spec (bit_length d) 1) as [H1 | _]; [|reflexivity].
  cbn [as_int]. unfold stored. rewrite H1. change (1 =? 32) with false.
  cbv iota. unfold get_field. rewrite Z.land_ones by lia.
  change (2 ^ 1) with 2.
  pose proof (Z.mod_pos_bound (Z.shiftr w (bit_index d)) 2 ltac:(lia)).
  destruct (Z.eqb_spec (Z.shiftr w (bit_index d) mod 2) 0); cbn [negb]; lia.
Qed.

(** The word after the field was written with what it holds in [w0]. *)
Lemma merged_bit (w0 w n : Z) :
  word32 w0 -> 0 <= n ->
  Z.testbit (put_field (bit_index d) (bit_length d) (stored d w0) w) n
  = if (bit_index d <=? n) && (n <? bit_index d + bit_length d)
    then Z.testbit w0 n else Z.testbit w n.
Proof.
  destruct field_fits_facts as (_ & Hbi & Hbl & _).
  intros Hw0 Hn.
  rewrite put_field_bit by (try assumption; now apply stored_range).
  destruct (Z.leb_spec (bit_index d) n) as [Hle | Hlt]; [|reflexivity].
  destruct (Z.ltb_spec n (bit_index d + bit_length d)) as [Hin | Hout];
    [|reflexivity].
  cbn [andb]. rewrite stored_bit by (assumption || lia).
  replace (n - bit_index d + bit_index d) with n by lia.
  replace (n - bit_index d <? bit_length d) with true
    by (symmetry; apply Z.ltb_lt; lia).
  apply andb_true_r.
Qed.

Lemma merged_word32 (w0 w : Z) :
  word32 w0 -> word32 w ->
  word32 (put_field (bit_index d) (bit_length d) (stored d w0) w).
Proof.
  destruct field_fits_facts as (_ & Hbi & Hbl & _).
  intros Hw0 Hw. apply word32_of_bits.
  - pose proof (stored_range w0 Hw0) as Hs.
    unfold put_field. apply Z.lor_nonneg. split.
    + apply Z.lxor_nonneg. split; intros _.
      * now apply Z.shiftl_nonneg, ones_not_negative.
      * apply Z.lor_nonneg. split; [apply Hw|].
        now apply Z.shiftl_nonneg, ones_not_negative.
    + apply Z.shiftl_nonneg. lia.
  - intros n Hn. rewrite merged_bit by (assumption || lia).
    destruct (_ && _); now apply high_bits_word32.
Qed.

(** Two words that agree on the bits of the field read the same. *)
Lemma field_read_same (w w' : Z) :
  word32 w -> word32 w' ->
  (forall n, bit_index d <= n < bit_index d + bit_length d ->
             Z.testbit w' n = Z.testbit w n) ->
  field_read d w' = field_read d w.
Proof.
  destruct field_fits_facts as (_ & Hbi & Hbl & _).
  intros Hw Hw' Hbits. rewrite !field_read_by_stored.
  replace (stored d w') with (stored d w); [reflexivity|].
  apply Z.bits_inj'. intros m Hm.
  rewrite !stored_bit by assumption.
  destruct (Z.ltb_spec m (bit_length d)) as [Hlt | Hge].
  - rewrite Hbits by lia. reflexivity.
  - now rewrite !andb_false_r.
Qed.

End FieldFits.

Lemma make_setter_value (wi : nat) (bi bl : Z) (dflt : option pyval)
  (ws : list Z) (v : pyval) :
  make_setter wi bi bl dflt ws (Some v)
  = make_setter wi bi bl dflt ws (Some (VInt (as_int v))).
Proof.
  now destruct v.
Qed.

Lemma replaced_Forall {A : Type} (P : A -> Prop) (ws : list A) (wi : nat)
  (x : A) :
  Forall P ws -> P x ->
  Forall P (firstn wi ws ++ [x] ++ skipn (wi + 1) ws).
Proof.
  intros Hws Hx. apply Forall_app. split.
  - apply Forall_forall. intros y Hy.
    apply (proj1 (Forall_forall P ws) Hws).
    rewrite <- (firstn_skipn wi ws). apply in_or_app. now left.
  - apply Forall_cons; [assumption|].
    apply Forall_forall. intros y Hy.
    apply (proj1 (Forall_forall P ws) Hws).
    rewrite <- (firstn_skipn (wi + 1) ws). apply in_or_app. now right.
Qed.

Lemma nth_by_nth_error {A : Type} (l l' : list A) (j : nat) (x : A) :
  nth_error l j = nth_error l' j -> nth j l x = nth j l' x.
Proof.
  intros Heq.
  rewrite <- !nth_default_eq. unfold nth_default. now rewrite Heq.
Qed.

Lemma nth_word32 (ws : list Z) (j : nat) :
  Forall word32 ws -> word32 (nth j ws 0).
Proof.
  intros Hws. destruct (Nat.lt_ge_cases j (length ws)) as [Hlt | Hge].
  - apply (proj1 (Forall_forall word32 ws) Hws). now apply nth_In.
  - rewrite nth_overflow by assumption. unfold word32. lia.
Qed.

Lemma class_table_fits (m5 : HeaderParser) (c : vdif_class) :
  c <> VDIFMark5BHeader ->
  table_fits (struct_words c) (header_parser m5 c) = true.
Proof.
  intros Hc. destruct c; try congruence; vm_compute; reflexivity.
Qed.

Lemma class_keys_distinct (m5 : HeaderParser) (c : vdif_class) :
  c <> VDIFMark5BHeader ->
  distinct (od_keys (items (header_parser m5 c))) = true.
Proof.
  intros Hc. destruct c; try congruence; vm_compute; reflexivity.
Qed.

Lemma od_get_key {V : Type} (d : odict V) (k : string) :
  In k (od_keys d) -> exists v, od_get d k = Some v.
Proof.
  induction d as [|[k0 v0] d IH]; cbn [od_keys map In od_get fst];
    [contradiction|].
  intros [-> | Hin].
  - rewrite String.eqb_refl. now eexists.
  - destruct (String.eqb k k0); [now eexists | now apply IH].
Qed.

Lemma od_get_is_key {V : Type} (d : odict V) (k : string) (v : V) :
  od_get d k = Some v -> In k (od_keys d).
Proof.
  intros Hg. apply od_get_in in Hg. unfold od_keys.
  now apply (in_map fst) in Hg.
Qed.

Section ClassKeys.

Variable m5 : HeaderParser.
Variable c : vdif_class.
Variable e : edv_t.
Variable ws0 : list Z.
Hypothesis c_known : c <> VDIFMark5BHeader.
Hypothesis ws0_words : Forall word32 ws0.
Hypothesis ws0_length : length ws0 = struct_words c.

Lemma class_field_fits (k : string) (d : field_def) :
  od_get (items (header_parser m5 c)) k = Some d ->
  field_fits (struct_words c) d = true.
Proof.
  intros Hd. apply od_get_in in Hd.
  pose proof (class_table_fits m5 c c_known) as Hfits.
  unfold table_fits in Hfits.
  now apply (proj1 (forallb_forall _ _) Hfits (k, d)).
Qed.

(** Reading a field of a header of the class with words of 32 bits. *)
Lemma class_read (x : edv_t) (ws : list Z) (k : string) :
  length ws = struct_words c ->
  h_getitem m5 (MkHeader c x ws) k
  = match od_get (items (header_parser m5 c)) k with
    | Some d => field_read d (nth (word_index d) ws 0)
    | None => Raise KeyError
    end.
Proof.
  intros Hlen. unfold h_getitem. cbn [cls words].
  rewrite (table_read _ (class_table_in_step m5 c)).
  destruct (od_get (items (header_parser m5 c)) k) as [d|] eqn:Hd;
    [|reflexivity].
  destruct (field_fits_facts _ d (class_field_fits k d Hd)) as (Hwi & _).
  rewrite (nth_error_nth' ws 0) by lia. reflexivity.
Qed.

(** The loop of [fromkeys] on the fields of the header with the words
    [ws0]: every word gets the bits of [ws0] that the fields cover and keeps
    the others; all the keywords are used. *)
Lemma set_keys_merges (keys : list string) :
  forall (ws : list Z) (kwargs : odict pyval),
    distinct keys = true ->
    (forall k, In k keys -> In k (od_keys (items (header_parser m5 c)))) ->
    length ws = struct_words c -> Forall word32 ws ->
    items_of m5 (MkHeader c e ws0) keys = Ok kwargs ->
    exists ws',
      set_keys (header_parser m5 c) keys ws kwargs = Ok (ws', []) /\
      length ws' = struct_words c /\ Forall word32 ws' /\
      forall j n, 0 <= n ->
        Z.testbit (nth j ws' 0) n
        = if covered (header_parser m5 c) keys j n
          then Z.testbit (nth j ws0 0) n
          else Z.testbit (nth j ws 0) n.
Proof.
  induction keys as [|k keys IH]; intros ws kwargs Hdistinct Hkeys Hlen Hws
                                        Hitems.
  - cbn [items_of] in Hitems. apply Ok_inj in Hitems. subst kwargs.
    exists ws. cbn [set_keys covered existsb]. repeat split; assumption.
  - cbn [distinct] in Hdistinct.
    apply andb_true_iff in Hdistinct as [Hfresh Hdistinct].
    destruct (od_get_key _ k (Hkeys k (or_introl eq_refl))) as [d Hd].
    pose proof (class_field_fits k d Hd) as Hfits.
    destruct (field_fits_facts _ d Hfits) as (Hwi & Hbi & Hbl & _).
    cbn [items_of] in Hitems.
    rewrite (class_read e ws0 k ws0_length), Hd in Hitems.
    rewrite (field_read_by_stored _ d Hfits) in Hitems.
    cbn [bind] in Hitems.
    destruct (items_of m5 (MkHeader c e ws0) keys) as [rest|x] eqn:Hrest;
      [|discriminate].
    cbn [bind] in Hitems. apply Ok_inj in Hitems. subst kwargs.
    set (w0 := nth (word_index d) ws0 0) in *.
    set (v := if bit_length d =? 1 then VBool (negb (stored d w0 =? 0))
              else VInt (stored d w0)).
    assert (Hv : as_int v = stored d w0).
    { apply (field_read_int _ d Hfits w0).
      now rewrite (field_read_by_stored _ d Hfits). }
    assert (Hw0 : word32 w0) by (apply nth_word32; assumption).
    set (ws1 := firstn (word_index d) ws
                ++ [put_field (bit_index d) (bit_length d) (stored d w0)
                              (nth (word_index d) ws 0)]
                ++ skipn (word_index d + 1) ws).
    assert (Hset : make_setter (word_index d) (bit_index d) (bit_length d)
                               (default d) ws (Some v) = Ok ws1).
    { rewrite make_setter_value, Hv.
      apply make_setter_puts; try assumption; [lia|].
      now apply (stored_range _ d Hfits). }
    destruct (IH ws1 rest Hdistinct) as (ws' & Hrun & Hlen' & Hws' & Hbits).
    + intros k' Hin. apply Hkeys. now right.
    + subst ws1. rewrite replaced_length; lia.
    + subst ws1. apply replaced_Forall; [assumption|].
      apply (merged_word32 _ d Hfits); [assumption|].
      now apply nth_word32.
    + reflexivity.
    + exists ws'. split; [|split; [assumption | split; [assumption|]]].
      * cbn [set_keys]. unfold setters, od_getitem. rewrite Hd.
        cbn [bind]. unfold od_pop. cbn [od_get od_remove].
        rewrite String.eqb_refl. cbn [bind fst snd].
        fold v. rewrite Hset. cbn [bind]. exact Hrun.
      * intros j n Hn. rewrite (Hbits j n Hn).
        cbn [covered existsb]. rewrite Hd.
        fold (covered (header_parser m5 c) keys j n).
        destruct (covered (header_parser m5 c) keys j n);
          [now rewrite orb_true_r|].
        rewrite orb_false_r. unfold covers.
        destruct (Nat.eqb_spec (word_index d) j) as [<- | Hne].
        -- subst ws1. rewrite replaced_nth by lia.
           rewrite (merged_bit _ d Hfits) by assumption.
           reflexivity.
        -- cbn [andb]. f_equal. apply nth_by_nth_error.
           subst ws1. apply replaced_other; [lia | congruence].
Qed.

(** The keyword arguments made of a header have its fields. *)
Lemma items_of_total (keys : list string) :
  (forall k, In k keys -> In k (od_keys (items (header_parser m5 c)))) ->
  exists kwargs,
    items_of m5 (MkHeader c e ws0) keys = Ok kwargs /\
    forall k, In k keys ->
              od_getitem kwargs k = h_getitem m5 (MkHeader c e ws0) k.
Proof.
  induction keys as [|k keys IH]; intros Hkeys.
  - exists []. split; [reflexivity | contradiction].
  - destruct IH as (rest & Hrest & Hget).
    { intros k' Hin. apply Hkeys. now right. }
    destruct (od_get_key _ k (Hkeys k (or_introl eq_refl))) as [d Hd].
    pose proof (class_field_fits k d Hd) as Hfits.
    cbn [items_of]. rewrite Hrest.
    rewrite (class_read e ws0 k ws0_length), Hd.
    rewrite (field_read_by_stored _ d Hfits). cbn [bind].
    eexists. split; [reflexivity|].
    intros k' Hin. unfold od_getitem. cbn [od_get].
    destruct (String.eqb_spec k' k) as [-> | Hne].
    + rewrite (class_read e ws0 k ws0_length), Hd.
      now rewrite (field_read_by_stored _ d Hfits).
    + destruct Hin as [-> | Hin]; [congruence|].
      apply (Hget k' Hin).
Qed.

(** Words that have the covered bits of [ws0] read as [ws0] does. *)
Lemma covered_words_read (ws : list Z) (x : edv_t) :
  length ws = struct_words c -> Forall word32 ws ->
  (forall j n, 0 <= n ->
     covered (header_parser m5 c) (od_keys (items (header_parser m5 c))) j n
     = true ->
     Z.testbit (nth j ws 0) n = Z.testbit (nth j ws0 0) n) ->
  forall k, h_getitem m5 (MkHeader c x ws) k
            = h_getitem m5 (MkHeader c e ws0) k.
Proof.
  intros Hlen Hws Hbits k.
  rewrite (class_read x ws k Hlen), (class_read e ws0 k ws0_length).
  destruct (od_get (items (header_parser m5 c)) k) as [d|] eqn:Hd;
    [|reflexivity].
  pose proof (class_field_fits k d Hd) as Hfits.
  destruct (field_fits_facts _ d Hfits) as (Hwi & Hbi & Hbl & _).
  apply (field_read_same _ d Hfits); try (apply nth_word32; assumption).
  intros n Hn. apply Hbits; [lia|].
  unfold covered. apply existsb_exists. exists k. split.
  - now apply (od_get_is_key _ k d).
  - rewrite Hd. unfold covers. rewrite Nat.eqb_refl. cbn [andb].
    apply andb_true_iff. split; [apply Z.leb_le | apply Z.ltb_lt]; lia.
Qed.

End ClassKeys.

Lemma all_covered_bits (hp : HeaderParser) (nwords : nat) :
  all_covered hp nwords = true ->
  forall j n, (j < nwords)%nat -> 0 <= n < 32 ->
              covered hp (od_keys (items hp)) j n = true.
Proof.
  intros Hall j n Hj Hn. unfold all_covered in Hall.
  pose proof (proj1 (forallb_forall _ _) Hall j) as Hrow.
  cbv beta in Hrow.
  assert (Hin : In j (seq 0 nwords)) by (apply in_seq; lia).
  specialize (Hrow Hin).
  pose proof (proj1 (forallb_forall _ _) Hrow (Z.to_nat n)) as Hbit.
  cbv beta in Hbit. rewrite Z2Nat.id in Hbit by lia.
  apply Hbit. apply in_seq. lia.
Qed.

Lemma whole_tables (m5 : HeaderParser) (c : vdif_class) :
  c = VDIFLegacyHeader \/ c = VDIFHeader3 ->
  all_covered (header_parser m5 c) (struct_words c) = true.
Proof.
  intros [-> | ->]; vm_compute; reflexivity.
Qed.

(** [verify] looks at the class, at [edv], at the number of words and at
    fields. *)
Lemma verify_same_fields (m5 : HeaderParser)
  (time_agrees : list Z -> result unit) (c : vdif_class) (e : edv_t)
  (ws ws' : list Z) :
  c <> VDIFMark5BHeader ->
  length ws' = length ws ->
  (forall k, h_getitem m5 (MkHeader c e ws') k
             = h_getitem m5 (MkHeader c e ws) k) ->
  verify m5 time_agrees (MkHeader c e ws')
  = verify m5 time_agrees (MkHeader c e ws).
Proof.
  intros Hc Hlen Hget.
  unfold verify, verify_legacy, verify_base, bps, h_keys.
  cbn [cls edv words]. rewrite Hlen, !Hget.
  destruct c; try congruence; reflexivity.
Qed.

Lemma read_is_key (m5 : HeaderParser) (h : header) (k : string)
  (v : pyval) :
  h_getitem m5 h k = Ok v ->
  In k (od_keys (items (header_parser m5 (cls h)))).
Proof.
  unfold h_getitem.
  rewrite (table_read _ (class_table_in_step m5 (cls h))).
  destruct (od_get (items (header_parser m5 (cls h))) k) as [d|] eqn:Hd;
    [|discriminate].
  intros _. now apply (od_get_is_key _ k d).
Qed.

(** What a header that passes [verify] has: the words of its struct, and
    the legacy bit set for the legacy class with [edv = False], clear
    otherwise with [edv] the EDV byte. *)
Lemma verified_header (m5 : HeaderParser)
  (time_agrees : list Z -> result unit) (c : vdif_class) (e : edv_t)
  (ws : list Z) :
  c <> VDIFMark5BHeader -> c = class_of_edv e ->
  verify m5 time_agrees (MkHeader c e ws) = Ok tt ->
  length ws = struct_words c /\
  exists l,
    h_getitem m5 (MkHeader c e ws) "legacy_mode" = Ok l /\
    if truthy l then e = EdvFalse
    else exists ev, h_getitem m5 (MkHeader c e ws) "edv" = Ok ev /\
                    edv_of_value ev = e.
Proof.
  intros Hc Hclass Hverify.
  assert (Hcases : (c = VDIFLegacyHeader /\
                    verify_legacy m5 (MkHeader c e ws) = Ok tt) \/
                   (c <> VDIFLegacyHeader /\
                    verify_base m5 (MkHeader c e ws) = Ok tt)).
  { unfold verify in Hverify. cbn [cls] in Hverify.
    destruct c; try congruence;
      try (left; split; [reflexivity | exact Hverify]);
      right; (split; [discriminate|]);
      try exact Hverify;
      destruct (verify_base m5 _) as [[]|x]; try reflexivity;
      discriminate Hverify. }
  destruct Hcases as [[Hleg Hv] | [Hbase Hv]].
  - unfold verify_legacy in Hv. cbn [edv words] in Hv.
    destruct (edv_is_false e) eqn:He; [|discriminate].
    cbn [py_assert bind] in Hv.
    destruct (h_getitem m5 (MkHeader c e ws) "legacy_mode") as [l|x];
      [|discriminate].
    cbn [bind] in Hv.
    destruct (truthy l) eqn:Hl; [|discriminate].
    cbn [py_assert bind] in Hv.
    destruct (Nat.eqb_spec (length ws) 4) as [Hlen | Hlen]; [|discriminate].
    split; [now rewrite Hleg|].
    exists l. split; [reflexivity|]. rewrite Hl.
    destruct e; try discriminate He. reflexivity.
  - unfold verify_base in Hv. cbn [edv words] in Hv.
    destruct (h_getitem m5 (MkHeader c e ws) "legacy_mode") as [l|x];
      [|discriminate].
    cbn [bind] in Hv.
    destruct (truthy l) eqn:Hl; [discriminate|].
    cbn [negb py_assert bind] in Hv.
    destruct (h_getitem m5 (MkHeader c e ws) "edv") as [ev|x] eqn:Hev;
      [|discriminate].
    cbn [bind] in Hv.
    destruct (edv_eqb e ev) eqn:He; [|discriminate].
    cbn [py_assert bind] in Hv.
    destruct (Nat.eqb_spec (length ws) 8) as [Hlen | Hlen]; [|discriminate].
    split; [rewrite Hlen; destruct c; try reflexivity; congruence|].
    exists l. split; [reflexivity|]. rewrite Hl.
    exists ev. split; [reflexivity|].
    assert (Hint : exists n, ev = VInt n).
    { unfold h_getitem in Hev. cbn [cls words] in Hev.
      rewrite (table_read _ (class_table_in_step m5 c)) in Hev.
      destruct (od_get (items (header_parser m5 c)) "edv") as [d|] eqn:Hd;
        [|discriminate].
      assert (Hd8 : bit_length d = 8)
        by (destruct c; try congruence; vm_compute in Hd;
            try discriminate Hd; now injection Hd as <-).
      destruct (nth_error ws (word_index d)) as [w|]; [|discriminate].
      unfold field_read in Hev. rewrite Hd8 in Hev. cbn [Z.eqb] in Hev.
      change (8 =? 1)%positive with false in Hev.
      change (8 =? 32)%positive with false in Hev. cbv iota in Hev.
      destruct (bit_index d <? 0); [discriminate|].
      apply Ok_inj in Hev. eexists. symmetry. exact Hev. }
    destruct Hint as [n ->]. cbn [edv_of_value].
    destruct e as [| |m]; cbn [edv_eqb as_int] in He.
    + discriminate.
    + cbn [class_of_edv] in Hclass. congruence.
    + apply Z.eqb_eq in He. now rewrite He.
Qed.

(** X21.  A header [h] of a class other than the Mark 5B one, of the class
    that [vdif_header_classes] has under its [edv], with words of 32 bits,
    that passes [verify]: [VDIFHeader.fromkeys] called with the fields of
    [h] as keywords returns, without a warning, a header of the same class
    and [edv] on which every key reads as on [h].  A bit of its words is
    the bit of [h] where a field of the table covers it and 0 elsewhere;
    for the legacy class and the class of EDV 3, whose tables cover all
    bits, the words are those of [h]. *)
Theorem fromkeys_of_header (m5 : HeaderParser)
  (time_agrees : list Z -> result unit) (c : vdif_class) (e : edv_t)
  (ws : list Z) :
  c <> VDIFMark5BHeader -> c = class_of_edv e ->
  Forall word32 ws ->
  let h := MkHeader c e ws in
  verify m5 time_agrees h = Ok tt ->
  exists kwargs h',
    header_items m5 h = Ok kwargs /\
    fromkeys m5 time_agrees kwargs = Ok (h', false) /\
    cls h' = c /\ edv h' = e /\
    (forall k, h_getitem m5 h' k = h_getitem m5 h k) /\
    (forall j n, 0 <= n ->
       Z.testbit (nth j (words h') 0) n
       = covered (header_parser m5 c) (h_keys m5 h) j n
         && Z.testbit (nth j ws 0) n) /\
    (c = VDIFLegacyHeader \/ c = VDIFHeader3 -> words h' = ws).
Proof.
  intros Hc Hclass Hws h Hverify.
  destruct (verified_header m5 time_agrees c e ws Hc Hclass Hverify)
    as (Hlen & l & Hl & Hedv).
  set (keys := od_keys (items (header_parser m5 c))).
  destruct (items_of_total m5 c e ws Hc Hlen keys (fun k Hin => Hin))
    as (kwargs & Hitems & Hget).
  set (zeros := repeat 0 (struct_words c)).
  assert (Hzeros : Forall word32 zeros).
  { apply Forall_forall. intros x Hx. apply repeat_spec in Hx.
    subst x. unfold word32. lia. }
  destruct (set_keys_merges m5 c e ws Hc Hws Hlen keys zeros kwargs
              (class_keys_distinct m5 c Hc) (fun k Hin => Hin)
              (repeat_length 0 _) Hzeros Hitems)
    as (ws' & Hrun & Hlen' & Hws' & Hbits).
  assert (Hbits' : forall j n, 0 <= n ->
            Z.testbit (nth j ws' 0) n
            = covered (header_parser m5 c) keys j n
              && Z.testbit (nth j ws 0) n).
  { intros j n Hn. rewrite (Hbits j n Hn).
    destruct (covered (header_parser m5 c) keys j n); [reflexivity|].
    unfold zeros.
    destruct (Nat.lt_ge_cases j (struct_words c)) as [Hlt | Hge].
    - rewrite nth_repeat_lt by assumption. apply Z.testbit_0_l.
    - rewrite nth_overflow by (rewrite repeat_length; assumption).
      apply Z.testbit_0_l. }
  assert (Hfields : forall k, h_getitem m5 (MkHeader c e ws') k
                              = h_getitem m5 h k).
  { apply (covered_words_read m5 c e ws Hc Hws Hlen ws' e Hlen' Hws').
    intros j n Hn Hcov. rewrite (Hbits' j n Hn). fold keys in Hcov.
    now rewrite Hcov. }
  assert (He : (if truthy l then Ok EdvFalse
                else v <- od_getitem kwargs "edv" ;; Ok (edv_of_value v))
               = Ok e).
  { destruct (truthy l); [now rewrite Hedv|].
    destruct Hedv as (ev & Hev & Heq).
    rewrite (Hget "edv"%string (read_is_key m5 h _ _ Hev)).
    rewrite Hev. cbn [bind]. now rewrite Heq. }
  exists kwargs, (MkHeader c e ws').
  split; [exact Hitems|]. split.
  { unfold fromkeys.
    rewrite (Hget "legacy_mode"%string (read_is_key m5 h _ _ Hl)).
    rewrite Hl. cbn [bind]. rewrite He. cbn [bind].
    rewrite <- Hclass.
    assert (Hinit : VDIFHeader_init m5 time_agrees c e zeros e false
                    = Ok (MkHeader c e zeros))
      by (destruct c, e; reflexivity).
    fold zeros. rewrite Hinit. cbn [bind words]. unfold h_keys.
    cbn [cls]. fold keys. rewrite Hrun. cbn [bind fst snd].
    unfold set_words. cbn [cls edv].
    rewrite (verify_same_fields m5 time_agrees c e ws ws' Hc
               ltac:(congruence) Hfields).
    fold h. rewrite Hverify. reflexivity. }
  split; [reflexivity|]. split; [reflexivity|].
  split; [exact Hfields|]. split; [exact Hbits'|].
  intros Hwhole. cbn [words].
  apply (nth_ext ws' ws 0 0); [congruence|].
  intros j Hj. apply Z.bits_inj'. intros n Hn.
  rewrite (Hbits' j n Hn).
  destruct (Z.ltb_spec n 32) as [Hlt | Hge].
  - unfold keys.
    rewrite (all_covered_bits _ _ (whole_tables m5 c Hwhole) j n)
      by lia.
    reflexivity.
  - rewrite (high_bits_word32 (nth j ws 0) n) by
        (try apply nth_word32; assumption).
    apply andb_false_r.
Qed.

Lemma fromkeys_of_header_witness :
  let h := MkHeader VDIFHeader3 (EdvInt 3)
             [100; 7; 629; 0x4172; 0x03000000; 0xACABFEED; 5; 6] in
  exists kwargs h',
    header_items (MkHeaderParser [] []) h = Ok kwargs /\
    fromkeys (MkHeaderParser [] []) (fun _ => Ok tt) kwargs
    = Ok (h', false) /\
    cls h' = VDIFHeader3 /\ edv h' = EdvInt 3 /\
    (forall k, h_getitem (MkHeaderParser [] []) h' k
               = h_getitem (MkHeaderParser [] []) h k) /\
    (forall j n, 0 <= n ->
       Z.testbit (nth j (words h') 0) n
       = covered (header_parser (MkHeaderParser [] []) VDIFHeader3)
                 (h_keys (MkHeaderParser [] []) h) j n
         && Z.testbit
              (nth j [100; 7; 629; 0x4172; 0x03000000; 0xACABFEED; 5; 6]
                   0) n) /\
    (VDIFHeader3 = VDIFLegacyHeader \/ VDIFHeader3 = VDIFHeader3 ->
     words h' = [100; 7; 629; 0x4172; 0x03000000; 0xACABFEED; 5; 6]).
Proof.
  apply (fromkeys_of_header (MkHeaderParser [] []) (fun _ => Ok tt)
           VDIFHeader3 (EdvInt 3)
           [100; 7; 629; 0x4172; 0x03000000; 0xACABFEED; 5; 6]).
  - discriminate.
  - reflexivity.
  - repeat (apply Forall_cons; [unfold word32; lia|]). apply Forall_nil.
  - reflexivity.
Defined.

(** ** The two branches of the track reordering *)

Import HostOrder.

Lemma word_of_bytes_bit (bs : list Z) :
  Forall (fun b => 0 <= b < 256) bs ->
  forall n, 0 <= n ->
    Z.testbit (word_of_bytes bs) n
    = Z.testbit (nth (Z.to_nat (n / 8)) bs 0) (n mod 8).
Proof.
  induction 1 as [|b bs Hb Hbs IH]; intros n Hn.
  - cbn [word_of_bytes fold_right]. rewrite Z.testbit_0_l.
    destruct (Z.to_nat (n / 8)); cbn [nth]; now rewrite Z.testbit_0_l.
  - cbn [word_of_bytes fold_right]. fold (word_of_bytes bs).
    rewrite Z.lor_spec, Z.shiftl_spec by assumption.
    destruct (Z.lt_ge_cases n 8) as [Hlt | Hge].
    + rewrite (Z.testbit_neg_r _ (n - 8)) by lia.
      rewrite Z.div_small, Z.mod_small by lia.
      cbn [Z.to_nat nth]. apply orb_false_r.
    + rewrite (mask_high_bit b 8 n) by lia.
      rewrite IH by lia. cbn [orb].
      replace n with (n - 8 + 1 * 8) at 3 4 by lia.
      rewrite Z.div_add, Z_mod_plus_full by lia.
      replace (Z.to_nat ((n - 8) / 8 + 1)) with (S (Z.to_nat ((n - 8) / 8)))
        by (pose proof (Z.div_pos (n - 8) 8 ltac:(lia) ltac:(lia)); lia).
      reflexivity.
Qed.

Lemma byteswap_bit (nbytes : nat) (x n : Z) :
  Z.testbit (byteswap nbytes x) n
  = (0 <=? n) && (n <? 8 * Z.of_nat nbytes)
    && Z.testbit x (swapped_position nbytes n).
Proof.
  destruct (Z.leb_spec 0 n) as [Hn | Hn];
    [|now rewrite Z.testbit_neg_r].
  cbn [andb]. unfold byteswap.
  set (g := fun i => Z.land (Z.shiftr x (8 * Z.of_nat i)) 255).
  assert (Hrange : Forall (fun b => 0 <= b < 256)
                          (rev (map g (seq 0 nbytes)))).
  { apply Forall_rev, Forall_map, Forall_forall. intros i _. unfold g.
    change 255 with (Z.ones 8). rewrite Z.land_ones by lia.
    apply Z.mod_pos_bound. lia. }
  rewrite (word_of_bytes_bit _ Hrange) by assumption.
  pose proof (Z.div_pos n 8 Hn ltac:(lia)) as Hq.
  pose proof (Z.mod_pos_bound n 8 ltac:(lia)) as Hr.
  destruct (Z.ltb_spec n (8 * Z.of_nat nbytes)) as [Hlt | Hge].
  - assert (Hi : (Z.to_nat (n / 8) < nbytes)%nat).
    { apply Nat2Z.inj_lt. rewrite Z2Nat.id by assumption.
      apply Z.div_lt_upper_bound; lia. }
    rewrite rev_nth by (rewrite length_map, length_seq; assumption).
    rewrite length_map, length_seq.
    rewrite (nth_indep _ 0 (g 0%nat))
      by (rewrite length_map, length_seq; lia).
    rewrite map_nth, seq_nth by lia.
    unfold g. change 255 with (Z.ones 8).
    rewrite Z.land_spec, Z.shiftr_spec, Z.testbit_ones_nonneg by lia.
    replace (n mod 8 <? 8) with true by (symmetry; apply Z.ltb_lt; lia).
    rewrite andb_true_r. cbn [andb]. f_equal. unfold swapped_position.
    pose proof (Z2Nat.id (n / 8) Hq) as Hid.
    set (i := Z.to_nat (n / 8)) in *.
    rewrite <- Hid. lia.
  - cbn [andb]. rewrite nth_overflow.
    + apply Z.testbit_0_l.
    + rewrite length_rev, length_map, length_seq.
      apply Nat2Z.inj_le. rewrite Z2Nat.id by assumption.
      apply Z.div_le_lower_bound; lia.
Qed.

Lemma moved_swapped_64 (f : Z -> bool) (n : Z) :
  0 <= n < 64 ->
  moved_bits 0x55AA55AA55AA55AA 0xAA00AA00AA00AA00 0x0055005500550055 9 64
    (fun k => (0 <=? k) && (k <? 64) && f (swapped_position 8 k)) n
  = moved_bits 0xAA55AA55AA55AA55 0x5500550055005500 0x00AA00AA00AA00AA
               7 64 f (swapped_position 8 n).
Proof.
  revert n. apply (each_position 64). intros i Hi.
  do 64 (destruct i as [|i]; [settle_bits f|]). lia.
Qed.

Lemma moved_swapped_32 (f : Z -> bool) (n : Z) :
  0 <= n < 32 ->
  moved_bits 0x55AA55AA 0xAA00AA00 0x00550055 9 32
    (fun k => (0 <=? k) && (k <? 32) && f (swapped_position 4 k)) n
  = moved_bits 0xAA55AA55 0x55005500 0x00AA00AA 7 32 f
               (swapped_position 4 n).
Proof.
  revert n. apply (each_position 32). intros i Hi.
  do 32 (destruct i as [|i]; [settle_bits f|]). lia.
Qed.

(** X22.  The two branches of [reorder64] and of [reorder32] make the same
    permutation of the bits in memory: the branch of a big-endian host,
    applied to the word that host reads from the bytes of [x], gives the
    word it reads from the bytes of what the little-endian branch makes of
    [x]. *)
Theorem reorder_branches_agree (x : Z) :
  reorder64_big (byteswap 8 x) = byteswap 8 (reorder64 x) /\
  reorder32_big (byteswap 4 x) = byteswap 4 (reorder32 x).
Proof.
  split; apply Z.bits_inj'; intros n Hn.
  - rewrite reorder64_big_bit, byteswap_bit, reorder64_bit.
    rewrite (moved_bits_ext _ _ _ _ _ _
               (fun k => (0 <=? k) && (k <? 64)
                         && Z.testbit x (swapped_position 8 k)) _
               (byteswap_bit 8 x)).
    change (8 * Z.of_nat 8) with 64.
    destruct (Z.ltb_spec n 64) as [Hlt | Hge].
    + replace (0 <=? n) with true by (symmetry; apply Z.leb_le; lia).
      cbn [andb]. apply moved_swapped_64. lia.
    + rewrite andb_false_r. cbn [andb].
      apply moved_bits_high; lia.
  - rewrite reorder32_big_bit, byteswap_bit, reorder32_bit.
    rewrite (moved_bits_ext _ _ _ _ _ _
               (fun k => (0 <=? k) && (k <? 32)
                         && Z.testbit x (swapped_position 4 k)) _
               (byteswap_bit 4 x)).
    change (8 * Z.of_nat 4) with 32.
    destruct (Z.ltb_spec n 32) as [Hlt | Hge].
    + replace (0 <=? n) with true by (symmetry; apply Z.leb_le; lia).
      cbn [andb]. apply moved_swapped_32. lia.
    + rewrite andb_false_r. cbn [andb].
      apply moved_bits_high; lia.
Qed.

(** ** The frame set that is returned *)

Import VdifFrame FrameOrder.

Section SortFrames.

Variable payload : Type.

Lemma insert_by_key_all (Q : Z * frame payload -> Prop) (kf : Z * frame payload) (l : list (Z * frame payload)) :
  Q kf -> Forall Q l -> Forall Q (insert_by_key payload kf l).
Proof.
  intros Hkf. induction 1 as [|kf' l Hkf' Hl IH]; cbn [insert_by_key].
  - now constructor.
  - destruct (fst kf <? fst kf'); repeat constructor; assumption.
Qed.

Lemma insert_by_key_length (kf : Z * frame payload) (l : list (Z * frame payload)) :
  length (insert_by_key payload kf l) = S (length l).
Proof.
  induction l as [|kf' l IH]; cbn [insert_by_key]; [reflexivity|].
  destruct (fst kf <? fst kf'); cbn [length]; congruence.
Qed.

Lemma insert_by_key_sorted (kf : Z * frame payload) (l : list (Z * frame payload)) :
  StronglySorted key_le l ->
  StronglySorted key_le (insert_by_key payload kf l).
Proof.
  induction 1 as [|kf' l Hsorted IH Hall]; cbn [insert_by_key].
  - repeat constructor.
  - destruct (Z.ltb_spec (fst kf) (fst kf')) as [Hlt | Hge].
    + constructor; [now constructor|].
      constructor; [unfold key_le; lia|].
      eapply Forall_impl; [|exact Hall].
      unfold key_le. intros x Hx. lia.
    + constructor; [assumption|].
      apply insert_by_key_all; [exact Hge | assumption].
Qed.

Lemma sorted_by_insertion (Q : Z * frame payload -> Prop) (ks : list (Z * frame payload)) :
  forall acc,
    StronglySorted key_le acc -> Forall Q acc -> Forall Q ks ->
    let r := fold_left (fun acc kf => insert_by_key payload kf acc) ks acc in
    StronglySorted key_le r /\ Forall Q r /\
    length r = (length ks + length acc)%nat.
Proof.
  induction ks as [|kf ks IH]; intros acc Hsorted Hacc Hks; cbn [fold_left].
  - repeat split; assumption.
  - inversion Hks as [|? ? Hkf Hks']; subst.
    destruct (IH (insert_by_key payload kf acc)) as (Hs & Hq & Hlen).
    + now apply insert_by_key_sorted.
    + now apply insert_by_key_all.
    + assumption.
    + repeat split; try assumption.
      rewrite Hlen, insert_by_key_length. cbn [length]. lia.
Qed.

Lemma sorted_positions (l : list (Z * frame payload)) :
  StronglySorted key_le l ->
  forall i j a b, (i < j)%nat ->
    nth_error l i = Some a -> nth_error l j = Some b -> fst a <= fst b.
Proof.
  induction 1 as [|x l Hsorted IH Hall]; intros i j a b Hij Ha Hb.
  - destruct i; discriminate.
  - destruct j as [|j]; [lia|]. cbn [nth_error] in Hb.
    destruct i as [|i]; cbn [nth_error] in Ha.
    + injection Ha as <-.
      apply (proj1 (Forall_forall _ _) Hall b).
      eapply nth_error_In, Hb.
    + apply (IH i j); (assumption || lia).
Qed.

End SortFrames.

Section ReturnedSet.

Variable m5 : HeaderParser.
Variable time_agrees : list Z -> result unit.
Variable py : python.
Variable payload : Type.
Variable payload_fromfile : header -> SE file payload.
Variable frame_verify : header -> payload -> result unit.

(** The keys are those of the frames, in their order. *)
Lemma keyed_frames (fs : list (frame payload))
  (ks : list (Z * frame payload)) :
  Np.mapM (fun f => k <- h_getitem m5 (frame_header f) "thread_id" ;;
                    Ok (as_int k, f)) fs = Ok ks ->
  map snd ks = fs /\
  Forall (fun kf => exists a,
              h_getitem m5 (frame_header (snd kf)) "thread_id" = Ok a /\
              fst kf = as_int a) ks.
Proof.
  revert ks. induction fs as [|f fs IH]; intros ks; cbn [Np.mapM].
  - intros Heq. apply Ok_inj in Heq. subst ks. now split.
  - destruct (h_getitem m5 (frame_header f) "thread_id") as [a|x] eqn:Ha;
      cbn [bind]; [|discriminate].
    destruct (Np.mapM _ fs) as [ks'|x]; cbn [bind]; [|discriminate].
    intros Heq. apply Ok_inj in Heq. subst ks.
    destruct (IH ks' eq_refl) as [Hmap Hall].
    cbn [map snd]. split; [now rewrite Hmap|].
    constructor; [|assumption]. now exists a.
Qed.

(** [frames.sort]: the same number of frames, each with what held of all
    before, in the order of their thread ids. *)
Lemma sort_by_thread_id_sorts (P : frame payload -> Prop)
  (fs fs' : list (frame payload)) :
  sort_by_thread_id m5 payload fs = Ok fs' ->
  Forall P fs ->
  length fs' = length fs /\ Forall P fs' /\
  forall i j fi fj a b, (i < j)%nat ->
    nth_error fs' i = Some fi -> nth_error fs' j = Some fj ->
    h_getitem m5 (frame_header fi) "thread_id" = Ok a ->
    h_getitem m5 (frame_header fj) "thread_id" = Ok b ->
    as_int a <= as_int b.
Proof.
  unfold sort_by_thread_id. intros Hsort HP.
  destruct (Np.mapM _ fs) as [ks|x] eqn:Hks; cbn [bind] in Hsort;
    [|discriminate].
  apply Ok_inj in Hsort. subst fs'.
  destruct (keyed_frames fs ks Hks) as [Hmap Hkeys].
  set (Q := fun kf : Z * frame payload =>
              P (snd kf) /\
              exists a, h_getitem m5 (frame_header (snd kf)) "thread_id"
                        = Ok a /\ fst kf = as_int a).
  assert (HQ : Forall Q ks).
  { rewrite <- Hmap in HP. rewrite Forall_map in HP.
    apply Forall_forall. intros kf Hin. split.
    - apply (proj1 (Forall_forall _ _) HP kf Hin).
    - apply (proj1 (Forall_forall _ _) Hkeys kf Hin). }
  destruct (sorted_by_insertion payload Q ks [] (SSorted_nil _)
              (Forall_nil _) HQ) as (Hsorted & Hall & Hlen).
  cbv zeta in Hsorted, Hall, Hlen.
  set (r := fold_left _ ks []) in *.
  split; [|split].
  - rewrite length_map, Hlen, <- Hmap, length_map. cbn [length]. lia.
  - apply Forall_map. eapply Forall_impl; [|exact Hall].
    intros kf [Hkf _]. exact Hkf.
  - intros i j fi fj a b Hij Hi Hj Ha Hb.
    rewrite nth_error_map in Hi, Hj.
    destruct (nth_error r i) as [ki|] eqn:Hki; [|discriminate].
    destruct (nth_error r j) as [kj|] eqn:Hkj; [|discriminate].
    cbn [option_map] in Hi, Hj.
    injection Hi as <-. injection Hj as <-.
    pose proof (sorted_positions payload r Hsorted i j ki kj Hij Hki Hkj)
      as Hle.
    destruct (proj1 (Forall_forall _ _) Hall ki (nth_error_In _ _ Hki))
      as (_ & a' & Ha' & Hfa).
    destruct (proj1 (Forall_forall _ _) Hall kj (nth_error_In _ _ Hkj))
      as (_ & b' & Hb' & Hfb).
    rewrite Ha in Ha'. rewrite Hb in Hb'.
    apply Ok_inj in Ha'. apply Ok_inj in Hb'. subst a' b'. lia.
Qed.

(** Asked for all threads, the loop keeps the frame of the first header. *)
Lemma collect_all_keeps_first (fuel : nat) (e : edv_t) (v : bool)
  (h0 : header) (fh fh' : file) (fs : list (frame payload))
  (exc : local_exc) :
  collect m5 time_agrees py payload payload_fromfile frame_verify
          fuel None e v h0 h0 [] fh = Some (fh', Ok (fs, exc)) ->
  (1 <= length fs)%nat.
Proof.
  destruct fuel as [|fuel]; [discriminate|]. cbn [collect].
  destruct (h_getitem m5 h0 "frame_nr") as [a|x]; cbn [bind];
    [|discriminate].
  unfold pyval_eqb. rewrite Z.eqb_refl.
  destruct (keep_or_skip _ _ _ _ _ _ _ _ _) as [fh1 [fs1|x]] eqn:Hkeep;
    [|discriminate].
  assert (Hfs1 : (1 <= length fs1)%nat).
  { unfold keep_or_skip, se_bind, se_lift, se_ret, selected in Hkeep.
    destruct (payload_fromfile h0 fh) as [fh2 [p|x]]; [|discriminate].
    destruct (VDIFFrame_init payload frame_verify h0 p v) as [f|x];
      [|discriminate].
    injection Hkeep as _ <-. cbn [app length]. lia. }
  destruct (VdifHeader.fromfile _ _ _ _ fh1) as [fh2 [h'|x]].
  - intros Hrec.
    apply collect_frames in Hrec as [(kept & -> & _) _].
    rewrite length_app. lia.
  - destruct x; try discriminate.
    destruct (fh_seek 0 2 fh2) as [fh3 [[]|x]]; [|discriminate].
    intros [= _ <- _]. exact Hfs1.
Qed.

(** X23.  Whenever [VDIFFrameSet.fromfile] returns a frame set: its
    [header0] is the first header read; every frame has the frame number
    of [header0] and, when thread ids were given, one of these as its
    thread id; there are at least as many frames as thread ids were given,
    and at least one when none were; and with [sort=True] the frames are
    in the order of their thread ids. *)
Theorem frameset_fromfile_returns (fuel : nat) (ids : option (list Z))
  (sort : bool) (e : edv_t) (v : bool) (fh fh' : file)
  (s : frameset payload) :
  VdifFrame.fromfile m5 time_agrees py payload payload_fromfile
                     frame_verify fuel ids sort e v fh
  = Some (fh', Ok s) ->
  (exists fh1, VdifHeader.fromfile m5 time_agrees e v fh
               = (fh1, Ok (header0 s))) /\
  Forall (same_frame_nr m5 _ (header0 s)) (frames s) /\
  Forall (wanted m5 _ ids) (frames s) /\
  (match ids with
   | Some l => length l
   | None => 1%nat
   end <= length (frames s))%nat /\
  (sort = true ->
   forall i j fi fj a b, (i < j)%nat ->
     nth_error (frames s) i = Some fi -> nth_error (frames s) j = Some fj ->
     h_getitem m5 (frame_header fi) "thread_id" = Ok a ->
     h_getitem m5 (frame_header fj) "thread_id" = Ok b ->
     as_int a <= as_int b).
Proof.
  unfold VdifFrame.fromfile.
  destruct (VdifHeader.fromfile m5 time_agrees e v fh)
    as [fh1 [h0|x]] eqn:Hfirst; [|discriminate].
  destruct (collect _ _ _ _ _ _ _ _ _ _ _ _ _) as [[fh2 [[fs exc]|x]]|]
    eqn:Hloop; try discriminate.
  intros Hfinish. injection Hfinish as _ Hfinish.
  pose proof (collect_frames _ _ _ _ _ _ _ _ _ _ _ _ _ _ _ _ _ Hloop)
    as [(kept & Hkept & Hnr & Hwanted) _].
  cbn [app] in Hkept. subst kept.
  assert (Hcount : (match ids with
                    | Some l => length l
                    | None => 1%nat
                    end <= length fs)%nat).
  { destruct ids as [l|].
    - unfold finish in Hfinish.
      destruct (Nat.ltb_spec (length fs) (length l)) as [Hlt | Hge];
        [|exact Hge].
      destruct exc; discriminate.
    - eapply collect_all_keeps_first, Hloop. }
  unfold finish in Hfinish.
  destruct (length fs <? _)%nat; [destruct exc; discriminate|].
  destruct sort.
  - destruct (sort_by_thread_id m5 payload fs) as [fs'|x] eqn:Hsort;
      cbn [bind] in Hfinish; [|discriminate].
    apply Ok_inj in Hfinish. subst s. cbn [frames header0].
    destruct (sort_by_thread_id_sorts
                (fun f => same_frame_nr m5 _ h0 f /\ wanted m5 _ ids f)
                fs fs' Hsort) as (Hlen & Hall & Hordered).
    { apply Forall_forall. intros f Hin. split.
      - apply (proj1 (Forall_forall _ _) Hnr f Hin).
      - apply (proj1 (Forall_forall _ _) Hwanted f Hin). }
    split; [now exists fh1|].
    split; [eapply Forall_impl; [|exact Hall]; now intros f [H1 _]|].
    split; [eapply Forall_impl; [|exact Hall]; now intros f [_ H2]|].
    split; [now rewrite Hlen|].
    intros _. exact Hordered.
  - cbn [bind] in Hfinish. apply Ok_inj in Hfinish. subst s.
    cbn [frames header0].
    split; [now exists fh1|]. repeat split; try assumption.
    discriminate.
Qed.

End ReturnedSet.

Lemma frameset_fromfile_returns_witness :
  exists s,
    VdifFrame.fromfile (MkHeaderParser [] []) (fun _ => Ok tt) Python3
      (list byte) (read_payload (MkHeaderParser [] [])) (fun _ _ => Ok tt)
      5 (Some [1; 0]) true EdvNone true two_threads_and_next
    = Some (MkFile (content two_threads_and_next) 80, Ok s) /\
    (2 <= length (frames s))%nat.
Proof.
  eexists. split; [vm_compute; reflexivity|].
  refine (proj1 (proj2 (proj2 (proj2
            (frameset_fromfile_returns
               (MkHeaderParser [] []) (fun _ => Ok tt) Python3 (list byte)
               (read_payload (MkHeaderParser [] [])) (fun _ _ => Ok tt)
               5 (Some [1; 0]) true EdvNone true two_threads_and_next
               (MkFile (content two_threads_and_next) 80) _ _))))).
  vm_compute. reflexivity.
Defined.
